(** * graypy: GELF logging handlers

    A shallow embedding of [graypy/handler.py]: the chunker
    ([ChunkedGELF]), the field extractor
    ([BaseGELFHandler._make_message_dict]), the serializer
    ([BaseGELFHandler._message_to_pickle], with the parts of the
    [json] module that it calls and that read its output back) and
    the UDP and TCP handlers, followed by the properties that the
    specification states about them.

    Conventions of the model.
    - Python [bytes] are lists of [Byte.byte]; Python [int]s are [Z].
    - A call that can raise returns a [result]; the exception classes
      that the modelled code can raise are the constructors of [exn].
    - [math.ceil(len(message) * 1.0 / size)] is evaluated by Python on
      IEEE doubles.  For lengths below 2^53 the rounded quotient has
      the same ceiling as the exact quotient, so the model uses the
      exact integer ceiling [ceil_div].
    - The value drawn by [random.randint] is an explicit argument.
    - [struct.pack('Q', _)] uses the native byte order, which is an
      explicit argument of type [byteorder]. *)

From Stdlib.Strings Require Import String Ascii Byte.
From Stdlib Require Import ZArith NArith DecimalFacts DecimalPos List Bool Lia.
Import ListNotations.
Open Scope Z_scope.

(** ** Python runtime: exceptions, results, built-ins *)

Inductive exn : Set :=
| ZeroDivisionError
| StructError
| ValueError
| AttributeError
| TypeError
| UnicodeDecodeError
| UnicodeEncodeError
| JSONDecodeError.

Inductive result (A : Type) : Type :=
| Ok (a : A)
| Raise (e : exn).
Arguments Ok {A} a.
Arguments Raise {A} e.

Definition bind {A B : Type} (m : result A) (k : A -> result B) : result B :=
  match m with
  | Ok a => k a
  | Raise e => Raise e
  end.

Notation "x <- m ;; k" := (bind m (fun x => k))
  (at level 61, m at next level, right associativity).

Definition bytes : Set := list byte.

(** [len(x)] *)
Definition len {A : Type} (l : list A) : Z := Z.of_nat (List.length l).

(** Normalisation of one bound of a slice, as [PySlice_AdjustIndices]
    does for a step of 1. *)
Definition clamp_index (n i : Z) : Z :=
  if i <? 0 then Z.max 0 (i + n) else Z.min i n.

(** [l[start:stop]] *)
Definition py_slice {A : Type} (l : list A) (start stop : Z) : list A :=
  let a := clamp_index (len l) start in
  let b := clamp_index (len l) stop in
  firstn (Z.to_nat (b - a)) (skipn (Z.to_nat a) l).

(** [int(math.ceil(a * 1.0 / b))] *)
Definition ceil_div (a b : Z) : result Z :=
  if b =? 0 then Raise ZeroDivisionError else Ok (- ((- a) / b)).

(** ** [struct.pack] *)

Inductive byteorder : Set := little | big.

(** [struct.pack('B', n)]: one unsigned byte, or [struct.error]. *)
Definition pack_B (n : Z) : result bytes :=
  if n <? 0 then Raise StructError
  else match Byte.of_N (Z.to_N n) with
       | Some b => Ok [b]
       | None => Raise StructError
       end.

Definition byte_of_Z (n : Z) : byte :=
  match Byte.of_N (Z.to_N (n mod 256)) with
  | Some b => b
  | None => x00
  end.

Fixpoint le_bytes (k : nat) (n : Z) : bytes :=
  match k with
  | O => []
  | S k' => byte_of_Z n :: le_bytes k' (n / 256)
  end.

(** [struct.pack('Q', n)]: eight bytes in native order, or
    [struct.error] when [n] is not an unsigned 64-bit value. *)
Definition pack_Q (native : byteorder) (n : Z) : result bytes :=
  if (0 <=? n) && (n <? 2 ^ 64) then
    Ok (match native with
        | little => le_bytes 8 n
        | big => rev (le_bytes 8 n)
        end)
  else Raise StructError.

(** ** [class ChunkedGELF] *)

Module ChunkedGELF.

Record t : Set := mk {
  message : bytes;
  size : Z;
  pieces : bytes;
  id : bytes
}.

(** [ChunkedGELF(message, size)]; [r] is the value returned by
    [random.randint(0, 0xFFFFFFFFFFFFFFFF)]. *)
Definition __init__ (native : byteorder) (r : Z) (message : bytes) (size : Z)
  : result t :=
  n <- ceil_div (len message) size ;;
  pieces <- pack_B n ;;
  id <- pack_Q native r ;;
  Ok (mk message size pieces id).

(** [b'\x1e\x0f'] *)
Definition magic : bytes := [x1e; x0f].

Definition encode (self : t) (sequence : Z) (chunk : bytes) : result bytes :=
  seq <- pack_B sequence ;;
  Ok (magic ++ id self ++ seq ++ pieces self ++ chunk).

(** [range(0, stop, step)] has a next element at position [i]. *)
Definition range_has_next (i stop step : Z) : bool :=
  if 0 <? step then i <? stop else stop <? i.

(** The generator object returned by [__iter__].  [gen_created] has
    not run yet; [gen_suspended] waits at the [yield], holding the
    counter of [enumerate] and the position of the [range] iterator
    inside [message_chunks]; [gen_closed] has returned or raised. *)
Inductive generator : Set :=
| gen_created (self : t)
| gen_suspended (self : t) (sequence : Z) (i : Z)
| gen_closed.

Inductive outcome : Set :=
| Yield (chunk : bytes)
| StopIteration
| Raised (e : exn).

(** [iter(self)].  [__iter__] is a generator function: each call
    returns a new generator, and neither the call nor the generator
    assigns to an attribute of [self]. *)
Definition __iter__ (self : t) : generator := gen_created self.

(** [message_chunks(self)]: the generator expression over
    [range(0, len(self.message), self.size)], represented by the
    position of the range, which starts at 0.  [range] refuses a step
    of zero. *)
Definition message_chunks (self : t) : result Z :=
  if size self =? 0 then Raise ValueError else Ok 0.

(** The next element of that generator expression when the range is
    at position [i], [self.message[i:i + self.size]], with the next
    position; [None] when the range is used up. *)
Definition message_chunks_next (self : t) (i : Z) : option (bytes * Z) :=
  if range_has_next i (len (message self)) (size self)
  then Some (py_slice (message self) i (i + size self), i + size self)
  else None.

(** One turn of the [for] loop of [__iter__]: the next element of
    [message_chunks], numbered by [enumerate], is encoded and
    yielded. *)
Definition resume (self : t) (sequence i : Z) : outcome * generator :=
  match message_chunks_next self i with
  | Some (chunk, i') =>
      match encode self sequence chunk with
      | Ok frame => (Yield frame, gen_suspended self (sequence + 1) i')
      | Raise e => (Raised e, gen_closed)
      end
  | None => (StopIteration, gen_closed)
  end.

(** [next(g)].  A generator that has not run yet first calls
    [message_chunks]. *)
Definition next (g : generator) : outcome * generator :=
  match g with
  | gen_created self =>
      match message_chunks self with
      | Ok i => resume self 0 i
      | Raise e => (Raised e, gen_closed)
      end
  | gen_suspended self sequence i => resume self sequence i
  | gen_closed => (StopIteration, gen_closed)
  end.

(** [list(g)], with the exception that ended it if any.  [None] means
    that the fuel ran out. *)
Fixpoint drain (fuel : nat) (g : generator) : option (list bytes * option exn) :=
  match fuel with
  | O => None
  | S fuel' =>
      match next g with
      | (Yield chunk, g') =>
          match drain fuel' g' with
          | Some (chunks, e) => Some (chunk :: chunks, e)
          | None => None
          end
      | (StopIteration, _) => Some ([], None)
      | (Raised e, _) => Some ([], Some e)
      end
  end.

(** [list(self)]: one pass over a fresh generator. *)
Definition to_list (self : t) : option (list bytes * option exn) :=
  drain (S (List.length (message self))) (__iter__ self).

End ChunkedGELF.

(** ** [DatagramHandler.send]

    The network is the list of datagrams handed to the socket so far;
    the socket itself is assumed to accept every datagram. *)

Definition wire : Set := list bytes.

Definition DatagramHandler_send (net : wire) (s : bytes) : wire := net ++ [s].

(** [for chunk in g: DatagramHandler.send(self, chunk)] *)
Fixpoint send_chunks (fuel : nat) (g : ChunkedGELF.generator) (net : wire)
  : option (result unit * wire) :=
  match fuel with
  | O => None
  | S fuel' =>
      match ChunkedGELF.next g with
      | (ChunkedGELF.Yield chunk, g') =>
          send_chunks fuel' g' (DatagramHandler_send net chunk)
      | (ChunkedGELF.StopIteration, _) => Some (Ok tt, net)
      | (ChunkedGELF.Raised e, _) => Some (Raise e, net)
      end
  end.

(** ** The fields of a chunk, as a receiver reads them off the wire *)

Definition chunk_magic (c : bytes) : bytes := firstn 2 c.
Definition chunk_id (c : bytes) : bytes := firstn 8 (skipn 2 c).
Definition chunk_sequence (c : bytes) : option byte := nth_error c 10.
Definition chunk_total (c : bytes) : option byte := nth_error c 11.
Definition chunk_payload (c : bytes) : bytes := skipn 12 c.

(** The chunk that [encode] builds for the sequence number [k], when
    [k] fits a byte. *)
Definition frame (self : ChunkedGELF.t) (k : Z) (chunk : bytes) : bytes :=
  ChunkedGELF.magic ++ ChunkedGELF.id self ++ [byte_of_Z k]
    ++ ChunkedGELF.pieces self ++ chunk.

(** The [n] chunks that follow position [i] of the message, numbered
    from [k]. *)
Fixpoint frames_from (self : ChunkedGELF.t) (n : nat) (k i : Z) : list bytes :=
  match n with
  | O => []
  | S n' =>
      frame self k
        (py_slice (ChunkedGELF.message self) i (i + ChunkedGELF.size self))
      :: frames_from self n' (k + 1) (i + ChunkedGELF.size self)
  end.

(** Number of elements of [range(0, stop, step)] not before [i], for
    a positive step. *)
Definition remaining (stop step i : Z) : nat :=
  Z.to_nat ((stop - i + step - 1) / step).

(** The chunks of one pass over [self]. *)
Definition chunk_list (self : ChunkedGELF.t) : list bytes :=
  if 0 <? ChunkedGELF.size self then
    frames_from self
      (remaining (len (ChunkedGELF.message self)) (ChunkedGELF.size self) 0) 0 0
  else [].

(** The generator after [k] calls of [next]. *)
Fixpoint nexts (k : nat) (g : ChunkedGELF.generator) : ChunkedGELF.generator :=
  match k with
  | O => g
  | S k' => nexts k' (snd (ChunkedGELF.next g))
  end.

(** ** Python values

    [text] is a Python [str]: a sequence of Unicode code points.  A
    [float] is represented by the text that [float.__repr__] returns
    for it, a [datetime] by the text that [isoformat()] returns, and
    an object of any other class by a text that names it. *)

Definition text : Set := list N.

(** The text of an ASCII literal. *)
Definition u (s : string) : text :=
  map N_of_ascii (list_ascii_of_string s).

Fixpoint text_eqb (a b : text) : bool :=
  match a, b with
  | [], [] => true
  | x :: a', y :: b' => N.eqb x y && text_eqb a' b'
  | _, _ => false
  end.

#[warnings="-register-all"]
Inductive pyobj : Set :=
| PyNone
| PyBool (b : bool)
| PyInt (n : Z)
| PyFloat (repr : text)
| PyStr (s : text)
| PyBytes (b : bytes)
| PyList (items : list pyobj)
| PyTuple (items : list pyobj)
| PyDict (items : list (pyobj * pyobj))
| PyDatetime (isoformat : text)
| PyObject (tag : text).

(** ** Dictionaries with text keys, in insertion order *)

Definition dict : Set := list (text * pyobj).

Fixpoint dict_get (d : dict) (k : text) : option pyobj :=
  match d with
  | [] => None
  | (k', v) :: d' => if text_eqb k' k then Some v else dict_get d' k
  end.

(** [d[k] = v]: an existing key keeps its place, a new key goes last. *)
Fixpoint dict_set (d : dict) (k : text) (v : pyobj) : dict :=
  match d with
  | [] => [(k, v)]
  | (k', v') :: d' =>
      if text_eqb k' k then (k', v) :: d' else (k', v') :: dict_set d' k v
  end.

(** [d.update(items)] *)
Definition dict_update (d : dict) (items : list (text * pyobj)) : dict :=
  fold_left (fun acc kv => dict_set acc (fst kv) (snd kv)) items d.

Definition dict_keys (d : dict) : list text := map fst d.

(** ** The [logging] module and the host, as far as the handler uses
    them *)

Definition logging_CRITICAL : Z := 50.
Definition logging_ERROR : Z := 40.
Definition logging_WARNING : Z := 30.
Definition logging_INFO : Z := 20.
Definition logging_DEBUG : Z := 10.

(** A [logging.LogRecord].  The fields are the attributes that the
    handler reads by name; [getMessage] is the result of the method of
    that name; [exc_info] holds the lines that
    [traceback.format_exception] returns for the attribute, when the
    attribute is true; [processName] is [None] when the record has no
    such attribute; [__dict__] lists the items of [record.__dict__] in
    the order in which Python iterates over them. *)
Record LogRecord : Set := {
  name : text;
  levelno : Z;
  pathname : pyobj;
  lineno : pyobj;
  funcName : pyobj;
  created : pyobj;
  process : pyobj;
  threadName : pyobj;
  processName : option pyobj;
  exc_info : option (list text);
  exc_text : option text;
  getMessage : text;
  __dict__ : list (text * pyobj)
}.

(** What the handler reads from the host and from the [logging]
    module: the results of [socket.getfqdn()] and
    [socket.gethostname()], and the function [logging.getLevelName]. *)
Record environment : Set := {
  socket_getfqdn : text;
  socket_gethostname : text;
  logging_getLevelName : Z -> text
}.

(** [sep.join(parts)] *)
Fixpoint join (sep : text) (parts : list text) : text :=
  match parts with
  | [] => []
  | [p] => p
  | p :: rest => p ++ sep ++ join sep rest
  end.

(** ** [class BaseGELFHandler] *)

Record BaseGELFHandler : Set := {
  chunk_size : Z;
  debugging_fields : bool;
  extra_fields : bool;
  fqdn : bool;
  localname : option text;
  facility : option text;
  level_names : bool;
  compress : bool;
  formatter : option (LogRecord -> text)
}.

Definition BaseGELFHandler__init__ (chunk_size : Z)
  (debugging_fields extra_fields fqdn : bool) (localname facility : option text)
  (level_names compress : bool) : BaseGELFHandler :=
  {| chunk_size := chunk_size;
     debugging_fields := debugging_fields;
     extra_fields := extra_fields;
     fqdn := fqdn;
     localname := localname;
     facility := facility;
     level_names := level_names;
     compress := compress;
     formatter := None |}.

Definition SYSLOG_LEVELS : list (Z * Z) :=
  [ (logging_CRITICAL, 2);
    (logging_ERROR, 3);
    (logging_WARNING, 4);
    (logging_INFO, 6);
    (logging_DEBUG, 7) ].

(** [SYSLOG_LEVELS.get(key, default)] *)
Fixpoint levels_get (table : list (Z * Z)) (key default : Z) : Z :=
  match table with
  | [] => default
  | (k, v) :: table' => if k =? key then v else levels_get table' key default
  end.

Definition skip_list : list text :=
  map u
    [ "args"; "asctime"; "created"; "exc_info"; "exc_text"; "filename";
      "funcName"; "id"; "levelname"; "levelno"; "lineno"; "module";
      "msecs"; "message"; "msg"; "name"; "pathname"; "process";
      "processName"; "relativeCreated"; "thread"; "threadName" ]%string.

(** [key in skip_list] *)
Definition in_skip_list (key : text) : bool := existsb (text_eqb key) skip_list.

(** [key.startswith('_')] *)
Definition startswith_underscore (key : text) : bool :=
  match key with
  | c :: _ => N.eqb c 95
  | [] => false
  end.

(** ['_%s' % key] *)
Definition underscore (key : text) : text := 95%N :: key.

(** The test of the loop,
    [key not in skip_list and not key.startswith('_')]. *)
Definition passes (key : text) : bool :=
  negb (in_skip_list key) && negb (startswith_underscore key).

(** The body of the loop of [_add_extra_fields], for one item. *)
Definition extra_field_step (message_dict : dict) (item : text * pyobj) : dict :=
  let (key, value) := item in
  if passes key
  then dict_set message_dict (underscore key) value
  else message_dict.

Definition _add_extra_fields (message_dict : dict) (record : LogRecord) : dict :=
  fold_left extra_field_step (__dict__ record) message_dict.

(** The truth value of an attribute that is [None] or a string. *)
Definition truthy (x : option text) : bool :=
  match x with
  | Some (_ :: _) => true
  | _ => false
  end.

Definition _get_full_message (record : LogRecord) : text :=
  match exc_info record with
  | Some lines => join [10%N] lines
  | None =>
      if truthy (exc_text record)
      then match exc_text record with Some t => t | None => [] end
      else getMessage record
  end.

Definition _make_message_dict (env : environment) (self : BaseGELFHandler)
  (record : LogRecord) : dict :=
  let host :=
    if fqdn self then socket_getfqdn env
    else if truthy (localname self)
         then match localname self with Some n => n | None => [] end
         else socket_gethostname env in
  let fields : dict :=
    [ (u "version", PyStr (u "1.0"));
      (u "host", PyStr host);
      (u "short_message",
        PyStr (match formatter self with
               | Some format => format record
               | None => getMessage record
               end));
      (u "full_message",
        PyStr (match formatter self with
               | Some format => format record
               | None => _get_full_message record
               end));
      (u "timestamp", created record);
      (u "level", PyInt (levels_get SYSLOG_LEVELS (levelno record) (levelno record)));
      (u "facility",
        PyStr (if truthy (facility self)
               then match facility self with Some f => f | None => [] end
               else name record)) ] in
  let fields :=
    if level_names self
    then dict_set fields (u "level_name")
           (PyStr (logging_getLevelName env (levelno record)))
    else fields in
  let fields :=
    match facility self with
    | Some _ => dict_update fields [ (u "_logger", PyStr (name record)) ]
    | None => fields
    end in
  let fields :=
    if debugging_fields self then
      let fields :=
        dict_update fields
          [ (u "file", pathname record);
            (u "line", lineno record);
            (u "_function", funcName record);
            (u "_pid", process record);
            (u "_thread_name", threadName record) ] in
      match processName record with
      | None | Some PyNone => fields
      | Some pn => dict_set fields (u "_process_name") pn
      end
    else fields in
  if extra_fields self then _add_extra_fields fields record else fields.

(** ** Library functions that the model leaves abstract

    [repr] is the built-in of that name; [float] is the built-in
    applied to a JSON number literal, the result being represented,
    as every float of the model, by the text of its [repr];
    [zlib_compress] is [zlib.compress]. *)
Record builtins : Set := {
  repr : pyobj -> text;
  float : text -> text;
  zlib_compress : bytes -> bytes
}.

(** ** UTF-8 *)

Inductive errors : Set := strict | replace.

Definition REPLACEMENT_CHARACTER : N := 65533.

Definition is_continuation (c : N) : bool := (128 <=? c)%N && (c <=? 191)%N.

(** The range of the second byte, which depends on the first for the
    three- and four-byte forms. *)
Definition second_byte_ok (c0 c1 : N) : bool :=
  is_continuation c1
  && negb ((c0 =? 224)%N && (c1 <? 160)%N)
  && negb ((c0 =? 237)%N && (160 <=? c1)%N)
  && negb ((c0 =? 240)%N && (c1 <? 144)%N)
  && negb ((c0 =? 244)%N && (144 <=? c1)%N).

(** What an undecodable sequence becomes, followed by the decoding
    [rest] of what comes after it. *)
Definition undecodable (mode : errors) (rest : result text) : result text :=
  match mode with
  | strict => Raise UnicodeDecodeError
  | replace => t <- rest ;; Ok (REPLACEMENT_CHARACTER :: t)
  end.

Definition decoded (c : N) (rest : result text) : result text :=
  t <- rest ;; Ok (c :: t).

(** [b.decode('utf-8', errors=mode)] *)
Fixpoint utf8_decode (mode : errors) (b : bytes) : result text :=
  match b with
  | [] => Ok []
  | b0 :: t0 =>
      let c0 := Byte.to_N b0 in
      if (c0 <? 128)%N then decoded c0 (utf8_decode mode t0)
      else if (c0 <? 194)%N then undecodable mode (utf8_decode mode t0)
      else if (c0 <? 245)%N then
        match t0 with
        | [] => undecodable mode (Ok [])
        | b1 :: t1 =>
            let c1 := Byte.to_N b1 in
            if negb (second_byte_ok c0 c1) then undecodable mode (utf8_decode mode t0)
            else if (c0 <? 224)%N then
              decoded ((c0 - 192) * 64 + (c1 - 128))%N (utf8_decode mode t1)
            else
              match t1 with
              | [] => undecodable mode (Ok [])
              | b2 :: t2 =>
                  let c2 := Byte.to_N b2 in
                  if negb (is_continuation c2) then undecodable mode (utf8_decode mode t1)
                  else if (c0 <? 240)%N then
                    decoded ((c0 - 224) * 4096 + (c1 - 128) * 64 + (c2 - 128))%N
                      (utf8_decode mode t2)
                  else
                    match t2 with
                    | [] => undecodable mode (Ok [])
                    | b3 :: t3 =>
                        let c3 := Byte.to_N b3 in
                        if negb (is_continuation c3)
                        then undecodable mode (utf8_decode mode t2)
                        else
                          decoded ((c0 - 240) * 262144 + (c1 - 128) * 4096
                                   + (c2 - 128) * 64 + (c3 - 128))%N
                            (utf8_decode mode t3)
                    end
              end
        end
      else undecodable mode (utf8_decode mode t0)
  end.

Definition byte_of_N (n : N) : byte :=
  match Byte.of_N n with
  | Some b => b
  | None => x00
  end.

Definition is_surrogate (c : N) : bool := (55296 <=? c)%N && (c <=? 57343)%N.

(** [s.encode('utf-8')] *)
Fixpoint utf8_encode (s : text) : result bytes :=
  match s with
  | [] => Ok []
  | c :: s' =>
      if is_surrogate c || (1114111 <? c)%N then Raise UnicodeEncodeError
      else
        t <- utf8_encode s' ;;
        Ok ((if (c <? 128)%N then [byte_of_N c]
             else if (c <? 2048)%N then
               [byte_of_N (192 + c / 64); byte_of_N (128 + c mod 64)]
             else if (c <? 65536)%N then
               [byte_of_N (224 + c / 4096); byte_of_N (128 + (c / 64) mod 64);
                byte_of_N (128 + c mod 64)]
             else
               [byte_of_N (240 + c / 262144); byte_of_N (128 + (c / 4096) mod 64);
                byte_of_N (128 + (c / 64) mod 64); byte_of_N (128 + c mod 64)])%N
            ++ t)
  end.

(** ** Dictionaries with keys of any hashable type *)

(** Equality of two keys.  Keys of different numeric types that Python
    holds equal, as [1] and [True], are kept apart. *)
Fixpoint key_eqb (a b : pyobj) : bool :=
  match a, b with
  | PyNone, PyNone => true
  | PyBool x, PyBool y => Bool.eqb x y
  | PyInt x, PyInt y => Z.eqb x y
  | PyFloat x, PyFloat y => text_eqb x y
  | PyStr x, PyStr y => text_eqb x y
  | PyBytes x, PyBytes y =>
      if list_eq_dec Byte.byte_eq_dec x y then true else false
  | PyTuple x, PyTuple y =>
      (fix all2 (x y : list pyobj) {struct x} : bool :=
         match x, y with
         | [], [] => true
         | h :: t, h' :: t' => key_eqb h h' && all2 t t'
         | _, _ => false
         end) x y
  | PyDatetime x, PyDatetime y => text_eqb x y
  | PyObject x, PyObject y => text_eqb x y
  | _, _ => false
  end.

Fixpoint items_set (d : list (pyobj * pyobj)) (k v : pyobj) : list (pyobj * pyobj) :=
  match d with
  | [] => [(k, v)]
  | (k', v') :: d' =>
      if key_eqb k' k then (k', v) :: d' else (k', v') :: items_set d' k v
  end.

(** [dict(pairs)]: a key seen again keeps its place and takes the new
    value. *)
Definition dict_of_pairs (pairs : list (pyobj * pyobj)) : list (pyobj * pyobj) :=
  fold_left (fun acc kv => items_set acc (fst kv) (snd kv)) pairs [].

(** ** [BaseGELFHandler._sanitize] *)

Fixpoint _sanitize (obj : pyobj) : pyobj :=
  match obj with
  | PyDict items =>
      PyDict (dict_of_pairs
                (map (fun kv => (_sanitize (fst kv), _sanitize (snd kv))) items))
  | PyList items => PyList (map _sanitize items)
  | PyTuple items => PyTuple (map _sanitize items)
  | PyBytes b =>
      match utf8_decode replace b with
      | Ok t => PyStr t
      | Raise _ => obj
      end
  | _ => obj
  end.

(** ** [BaseGELFHandler._smarter_repr] *)

Definition _smarter_repr (py : builtins) (obj : pyobj) : text :=
  match obj with
  | PyDatetime isoformat => isoformat
  | _ => repr py obj
  end.

(** ** [json.dumps(obj, separators=',:', default=_smarter_repr)] *)

(** The code point of an ASCII character. *)
Definition ch (c : ascii) : N := N_of_ascii c.

Definition QUOTE : N := 34.
Definition BACKSLASH : N := 92.

Fixpoint digits_of_uint (d : Decimal.uint) : text :=
  match d with
  | Decimal.Nil => []
  | Decimal.D0 d' => 48%N :: digits_of_uint d'
  | Decimal.D1 d' => 49%N :: digits_of_uint d'
  | Decimal.D2 d' => 50%N :: digits_of_uint d'
  | Decimal.D3 d' => 51%N :: digits_of_uint d'
  | Decimal.D4 d' => 52%N :: digits_of_uint d'
  | Decimal.D5 d' => 53%N :: digits_of_uint d'
  | Decimal.D6 d' => 54%N :: digits_of_uint d'
  | Decimal.D7 d' => 55%N :: digits_of_uint d'
  | Decimal.D8 d' => 56%N :: digits_of_uint d'
  | Decimal.D9 d' => 57%N :: digits_of_uint d'
  end.

(** [int.__repr__(n)] *)
Definition int_repr (n : Z) : text :=
  match n with
  | Z0 => [48%N]
  | Zpos p => digits_of_uint (Pos.to_uint p)
  | Zneg p => ch "-" :: digits_of_uint (Pos.to_uint p)
  end.

(** [floatstr] of the encoder, on the [repr] of the float. *)
Definition floatstr (r : text) : text :=
  if text_eqb r (u "nan") then u "NaN"
  else if text_eqb r (u "inf") then u "Infinity"
  else if text_eqb r (u "-inf") then u "-Infinity"
  else r.

Definition hex_digit (n : N) : N :=
  if (n <? 10)%N then (48 + n)%N else (87 + n)%N.

(** ['\\u{0:04x}'.format(n)] *)
Definition u_escape (n : N) : text :=
  [ BACKSLASH; ch "u";
    hex_digit ((n / 4096) mod 16)%N; hex_digit ((n / 256) mod 16)%N;
    hex_digit ((n / 16) mod 16)%N; hex_digit (n mod 16)%N ].

(** The replacement of one character by [encode_basestring_ascii]. *)
Definition escape_char (c : N) : text :=
  if (c =? QUOTE)%N then [BACKSLASH; QUOTE]
  else if (c =? BACKSLASH)%N then [BACKSLASH; BACKSLASH]
  else if (c =? 10)%N then [BACKSLASH; ch "n"]
  else if (c =? 13)%N then [BACKSLASH; ch "r"]
  else if (c =? 9)%N then [BACKSLASH; ch "t"]
  else if (c =? 12)%N then [BACKSLASH; ch "f"]
  else if (c =? 8)%N then [BACKSLASH; ch "b"]
  else if (32 <=? c)%N && (c <=? 126)%N then [c]
  else if (c <? 65536)%N then u_escape c
  else
    let n := (c - 65536)%N in
    u_escape (N.lor 55296 (N.land (N.shiftr n 10) 1023))
      ++ u_escape (N.lor 56320 (N.land n 1023)).

Definition encode_basestring_ascii (s : text) : text :=
  QUOTE :: flat_map escape_char s ++ [QUOTE].

(** The text of a dictionary key, or [TypeError]. *)
Definition key_text (k : pyobj) : result text :=
  match k with
  | PyStr s => Ok s
  | PyFloat r => Ok (floatstr r)
  | PyBool true => Ok (u "true")
  | PyBool false => Ok (u "false")
  | PyNone => Ok (u "null")
  | PyInt n => Ok (int_repr n)
  | _ => Raise TypeError
  end.

(** The results of a list of calls, or the first exception. *)
Fixpoint sequence {A : Type} (l : list (result A)) : result (list A) :=
  match l with
  | [] => Ok []
  | r :: l' => a <- r ;; t <- sequence l' ;; Ok (a :: t)
  end.

Fixpoint json_dumps (py : builtins) (o : pyobj) : result text :=
  match o with
  | PyStr s => Ok (encode_basestring_ascii s)
  | PyNone => Ok (u "null")
  | PyBool true => Ok (u "true")
  | PyBool false => Ok (u "false")
  | PyInt n => Ok (int_repr n)
  | PyFloat r => Ok (floatstr r)
  | PyList items | PyTuple items =>
      chunks <- sequence (map (json_dumps py) items) ;;
      Ok (ch "[" :: join [ch ","] chunks ++ [ch "]"])
  | PyDict items =>
      chunks <- sequence
                  (map (fun kv =>
                          k <- key_text (fst kv) ;;
                          v <- json_dumps py (snd kv) ;;
                          Ok (encode_basestring_ascii k ++ ch ":" :: v))
                     items) ;;
      Ok (ch "{" :: join [ch ","] chunks ++ [ch "}"])
  | PyBytes _ | PyDatetime _ | PyObject _ =>
      Ok (encode_basestring_ascii (_smarter_repr py o))
  end.

(** ** [BaseGELFHandler._message_to_pickle] *)

Definition _message_to_pickle (py : builtins) (obj : pyobj) : result bytes :=
  let obj := _sanitize obj in
  serialized <- json_dumps py obj ;;
  utf8_encode serialized.

(** ** [json.loads] *)

Definition is_whitespace (c : N) : bool :=
  (c =? 32)%N || (c =? 9)%N || (c =? 10)%N || (c =? 13)%N.

Fixpoint skip_whitespace (s : text) : text :=
  match s with
  | c :: rest => if is_whitespace c then skip_whitespace rest else s
  | [] => []
  end.

Definition is_digit (c : N) : bool := (48 <=? c)%N && (c <=? 57)%N.

(** The value of a hexadecimal digit. *)
Definition unhex (c : N) : option N :=
  if is_digit c then Some (c - 48)%N
  else if (97 <=? c)%N && (c <=? 102)%N then Some (c - 87)%N
  else if (65 <=? c)%N && (c <=? 70)%N then Some (c - 55)%N
  else None.

Definition unhex4 (h1 h2 h3 h4 : N) : option N :=
  match unhex h1, unhex h2, unhex h3, unhex h4 with
  | Some a, Some b, Some c, Some d => Some (a * 4096 + b * 256 + c * 16 + d)%N
  | _, _, _, _ => None
  end.

Definition is_high_surrogate (c : N) : bool := (55296 <=? c)%N && (c <=? 56319)%N.
Definition is_low_surrogate (c : N) : bool := (56320 <=? c)%N && (c <=? 57343)%N.

(** The character of a one-letter escape. *)
Definition unescape (e : N) : option N :=
  if (e =? QUOTE)%N then Some QUOTE
  else if (e =? BACKSLASH)%N then Some BACKSLASH
  else if (e =? ch "/")%N then Some (ch "/")
  else if (e =? ch "b")%N then Some 8%N
  else if (e =? ch "f")%N then Some 12%N
  else if (e =? ch "n")%N then Some 10%N
  else if (e =? ch "r")%N then Some 13%N
  else if (e =? ch "t")%N then Some 9%N
  else None.

(** The low half of a surrogate pair at the head of [s], with what
    follows it.  The scanner looks for it only when the escape is
    followed by something more. *)
Definition low_surrogate_escape (s : text) : result (option (N * text)) :=
  match s with
  | b :: e :: l1 :: l2 :: l3 :: l4 :: c :: rest =>
      if (b =? BACKSLASH)%N && (e =? ch "u")%N then
        match unhex4 l1 l2 l3 l4 with
        | Some c2 => Ok (if is_low_surrogate c2 then Some (c2, c :: rest) else None)
        | None => Raise JSONDecodeError
        end
      else Ok None
  | _ => Ok None
  end.

(** [scanstring]: the text of a string literal after its opening
    quote, with what follows the closing quote.  The recursion takes
    one character or one escape at a time; [fuel] bounds the number of
    turns. *)
Fixpoint scanstring (fuel : nat) (s : text) : option (result (text * text)) :=
  match fuel with
  | O => None
  | S fuel' =>
      let continue (c : N) (rest : text) : option (result (text * text)) :=
        match scanstring fuel' rest with
        | Some (Ok (t, rest')) => Some (Ok (c :: t, rest'))
        | other => other
        end in
      match s with
      | [] => Some (Raise JSONDecodeError)
      | c :: rest =>
          if (c =? QUOTE)%N then Some (Ok ([], rest))
          else if (c =? BACKSLASH)%N then
            match rest with
            | [] => Some (Raise JSONDecodeError)
            | e :: rest1 =>
                if (e =? ch "u")%N then
                  match rest1 with
                  | h1 :: h2 :: h3 :: h4 :: rest2 =>
                      match unhex4 h1 h2 h3 h4 with
                      | None => Some (Raise JSONDecodeError)
                      | Some c1 =>
                          if is_high_surrogate c1 then
                            match low_surrogate_escape rest2 with
                            | Raise e => Some (Raise e)
                            | Ok (Some (c2, rest3)) =>
                                continue
                                  (65536 + ((c1 - 55296) * 1024 + (c2 - 56320)))%N
                                  rest3
                            | Ok None => continue c1 rest2
                            end
                          else continue c1 rest2
                      end
                  | _ => Some (Raise JSONDecodeError)
                  end
                else
                  match unescape e with
                  | Some c' => continue c' rest1
                  | None => Some (Raise JSONDecodeError)
                  end
            end
          else if (c <? 32)%N then Some (Raise JSONDecodeError)
          else continue c rest
      end
  end.

Fixpoint span_digits (s : text) : text * text :=
  match s with
  | c :: rest =>
      if is_digit c then let (ds, r) := span_digits rest in (c :: ds, r)
      else ([], s)
  | [] => ([], [])
  end.

(** The parts of a number literal: each function returns the part at
    the head of [s], empty when there is none, and what follows it. *)
Definition scan_sign (s : text) : text * text :=
  match s with
  | c :: r => if (c =? ch "-")%N then ([c], r) else ([], s)
  | [] => ([], s)
  end.

Definition scan_integer (s : text) : option (text * text) :=
  match s with
  | [] => None
  | c :: r =>
      if (c =? 48)%N then Some ([c], r)
      else if is_digit c then let (ds, r') := span_digits r in Some (c :: ds, r')
      else None
  end.

Definition scan_fraction (s : text) : text * text :=
  match s with
  | dot :: d :: r =>
      if (dot =? ch ".")%N && is_digit d
      then let (ds, r') := span_digits r in (dot :: d :: ds, r')
      else ([], s)
  | _ => ([], s)
  end.

Definition scan_exponent (s : text) : text * text :=
  match s with
  | e :: r =>
      if ((e =? ch "e")%N || (e =? ch "E")%N) && negb (length r =? 0)%nat then
        let (sg, r') :=
          match r with
          | c :: r'' =>
              if (c =? ch "-")%N || (c =? ch "+")%N then ([c], r'') else ([], r)
          | [] => ([], r)
          end in
        let (ds, r'') := span_digits r' in
        match ds with
        | [] => ([], s)
        | _ :: _ => (e :: sg ++ ds, r'')
        end
      else ([], s)
  | [] => ([], s)
  end.

(** The literal of the number at the head of [s], whether it has a
    fraction or an exponent, and what follows it. *)
Definition match_number (s : text) : option (text * bool * text) :=
  let (sign, s1) := scan_sign s in
  match scan_integer s1 with
  | None => None
  | Some (ip, s2) =>
      let (frac, s3) := scan_fraction s2 in
      let (exp, s4) := scan_exponent s3 in
      Some (sign ++ ip ++ frac ++ exp,
            negb ((length frac =? 0)%nat && (length exp =? 0)%nat), s4)
  end.

Fixpoint uint_of_digits (ds : text) : Decimal.uint :=
  match ds with
  | [] => Decimal.Nil
  | c :: ds' =>
      let d := uint_of_digits ds' in
      if (c =? 48)%N then Decimal.D0 d
      else if (c =? 49)%N then Decimal.D1 d
      else if (c =? 50)%N then Decimal.D2 d
      else if (c =? 51)%N then Decimal.D3 d
      else if (c =? 52)%N then Decimal.D4 d
      else if (c =? 53)%N then Decimal.D5 d
      else if (c =? 54)%N then Decimal.D6 d
      else if (c =? 55)%N then Decimal.D7 d
      else if (c =? 56)%N then Decimal.D8 d
      else Decimal.D9 d
  end.

(** [int(literal)] for a literal that [match_number] accepted. *)
Definition int_of_literal (literal : text) : Z :=
  match literal with
  | c :: ds =>
      if (c =? ch "-")%N then - Z.of_N (N.of_uint (uint_of_digits ds))
      else Z.of_N (N.of_uint (uint_of_digits literal))
  | [] => 0
  end.

(** [s] starts with [prefix]; what follows the prefix. *)
Fixpoint strip_prefix (prefix s : text) : option text :=
  match prefix, s with
  | [], _ => Some s
  | p :: prefix', c :: s' => if (p =? c)%N then strip_prefix prefix' s' else None
  | _ :: _, [] => None
  end.

(** A named constant or a number at the head of [s]. *)
Definition scan_atom (py : builtins) (s : text) : result (pyobj * text) :=
  let number :=
    match match_number s with
    | Some (literal, true, rest) => Ok (PyFloat (float py literal), rest)
    | Some (literal, false, rest) => Ok (PyInt (int_of_literal literal), rest)
    | None => Raise JSONDecodeError
    end in
  let constant (name : string) (value : pyobj) : result (pyobj * text) :=
    match strip_prefix (u name) s with
    | Some rest => Ok (value, rest)
    | None => number
    end in
  match s with
  | [] => Raise JSONDecodeError
  | c :: _ =>
      if (c =? ch "n")%N then constant "null"%string PyNone
      else if (c =? ch "t")%N then constant "true"%string (PyBool true)
      else if (c =? ch "f")%N then constant "false"%string (PyBool false)
      else if (c =? ch "N")%N then constant "NaN"%string (PyFloat (u "nan"))
      else if (c =? ch "I")%N then constant "Infinity"%string (PyFloat (u "inf"))
      else if (c =? ch "-")%N then constant "-Infinity"%string (PyFloat (u "-inf"))
      else number
  end.

(** [scan_once], [JSONArray] and [JSONObject].  [None] means that the
    fuel ran out. *)
Fixpoint scan_once (py : builtins) (fuel : nat) (s : text) {struct fuel}
  : option (result (pyobj * text)) :=
  match fuel with
  | O => None
  | S fuel' =>
      match s with
      | [] => Some (Raise JSONDecodeError)
      | c :: rest =>
          if (c =? QUOTE)%N then
            match scanstring (S (length rest)) rest with
            | Some (Ok (t, rest')) => Some (Ok (PyStr t, rest'))
            | Some (Raise e) => Some (Raise e)
            | None => None
            end
          else if (c =? ch "{")%N then
            match skip_whitespace rest with
            | [] => Some (Raise JSONDecodeError)
            | c' :: rest' =>
                if (c' =? ch "}")%N then Some (Ok (PyDict [], rest'))
                else parse_pairs py fuel' (c' :: rest') []
            end
          else if (c =? ch "[")%N then
            match skip_whitespace rest with
            | [] => Some (Raise JSONDecodeError)
            | c' :: rest' =>
                if (c' =? ch "]")%N then Some (Ok (PyList [], rest'))
                else parse_items py fuel' (c' :: rest') []
            end
          else Some (scan_atom py s)
      end
  end

with parse_items (py : builtins) (fuel : nat) (s : text) (acc : list pyobj)
  {struct fuel} : option (result (pyobj * text)) :=
  match fuel with
  | O => None
  | S fuel' =>
      match scan_once py fuel' s with
      | Some (Ok (v, s1)) =>
          match skip_whitespace s1 with
          | [] => Some (Raise JSONDecodeError)
          | c :: s2 =>
              if (c =? ch "]")%N then Some (Ok (PyList (rev (v :: acc)), s2))
              else if (c =? ch ",")%N
                   then parse_items py fuel' (skip_whitespace s2) (v :: acc)
                   else Some (Raise JSONDecodeError)
          end
      | other => other
      end
  end

with parse_pairs (py : builtins) (fuel : nat) (s : text)
  (acc : list (pyobj * pyobj)) {struct fuel} : option (result (pyobj * text)) :=
  match fuel with
  | O => None
  | S fuel' =>
      match s with
      | [] => Some (Raise JSONDecodeError)
      | q :: s1 =>
          if negb (q =? QUOTE)%N then Some (Raise JSONDecodeError)
          else
            match scanstring (S (length s1)) s1 with
            | None => None
            | Some (Raise e) => Some (Raise e)
            | Some (Ok (key, s2)) =>
                match skip_whitespace s2 with
                | [] => Some (Raise JSONDecodeError)
                | colon :: s3 =>
                    if negb (colon =? ch ":")%N then Some (Raise JSONDecodeError)
                    else
                      match scan_once py fuel' (skip_whitespace s3) with
                      | Some (Ok (v, s4)) =>
                          match skip_whitespace s4 with
                          | [] => Some (Raise JSONDecodeError)
                          | c :: s5 =>
                              if (c =? ch "}")%N then
                                Some (Ok (PyDict (dict_of_pairs
                                                    (rev ((PyStr key, v) :: acc))),
                                          s5))
                              else if (c =? ch ",")%N
                                   then parse_pairs py fuel' (skip_whitespace s5)
                                          ((PyStr key, v) :: acc)
                                   else Some (Raise JSONDecodeError)
                          end
                      | other => other
                      end
                end
            end
      end
  end.

(** [json.loads(s)] for a [str]. *)
Definition json_loads (py : builtins) (s : text) : option (result pyobj) :=
  match scan_once py (S (length s)) (skip_whitespace s) with
  | None => None
  | Some (Raise e) => Some (Raise e)
  | Some (Ok (obj, rest)) =>
      match skip_whitespace rest with
      | [] => Some (Ok obj)
      | _ :: _ => Some (Raise JSONDecodeError)
      end
  end.

(** [json.loads(b)] for UTF-8 [bytes]. *)
Definition json_loads_bytes (py : builtins) (b : bytes) : option (result pyobj) :=
  match utf8_decode strict b with
  | Ok s => json_loads py s
  | Raise e => Some (Raise e)
  end.

(** ** What a JSON decoder returns for what the encoder writes *)

(** A text that comes back from its string literal: code points of
    Unicode, and no high surrogate directly before a low one (the
    decoder would read the two escapes as one character). *)
Fixpoint text_ok (s : text) : bool :=
  match s with
  | [] => true
  | c :: s' =>
      (c <=? 1114111)%N
      && negb (is_high_surrogate c
               && match s' with
                  | c' :: _ => is_low_surrogate c'
                  | [] => false
                  end)
      && text_ok s'
  end.

(** The [repr] of a finite float: a JSON number with a fraction or an
    exponent, that [float] reads back as the same float. *)
Definition float_ok (py : builtins) (r : text) : bool :=
  match match_number r with
  | Some (literal, true, []) => text_eqb literal r && text_eqb (float py r) r
  | _ => false
  end.

(** The values that the encoder accepts and the decoder reads back. *)
Fixpoint encodable (py : builtins) (v : pyobj) : bool :=
  match v with
  | PyNone | PyBool _ | PyInt _ => true
  | PyFloat r => float_ok py r
  | PyStr s => text_ok s
  | PyList items | PyTuple items => forallb (encodable py) items
  | PyDict items =>
      forallb (fun kv =>
                 match key_text (fst kv) with
                 | Ok t => text_ok t
                 | Raise _ => false
                 end && encodable py (snd kv))
        items
  | PyBytes _ | PyDatetime _ | PyObject _ => text_ok (_smarter_repr py v)
  end.

(** The JSON image of a value: a tuple becomes a list, a key that is
    not a text becomes its JSON text, and a value of a class that JSON
    does not know becomes the text of [_smarter_repr]. *)
Fixpoint json_image (py : builtins) (v : pyobj) : pyobj :=
  match v with
  | PyList items | PyTuple items => PyList (map (json_image py) items)
  | PyDict items =>
      PyDict (dict_of_pairs
                (map (fun kv =>
                        (PyStr (match key_text (fst kv) with
                                | Ok t => t
                                | Raise _ => []
                                end),
                         json_image py (snd kv)))
                   items))
  | PyBytes _ | PyDatetime _ | PyObject _ => PyStr (_smarter_repr py v)
  | _ => v
  end.

Fixpoint distinct_keys (keys : list pyobj) : bool :=
  match keys with
  | [] => true
  | k :: keys' => negb (existsb (key_eqb k) keys') && distinct_keys keys'
  end.

(** The values made of [None], booleans, integers, floats, texts,
    lists, and dictionaries with distinct text keys. *)
Fixpoint json_native (v : pyobj) : bool :=
  match v with
  | PyNone | PyBool _ | PyInt _ | PyFloat _ | PyStr _ => true
  | PyList items => forallb json_native items
  | PyDict items =>
      forallb (fun kv =>
                 match fst kv with PyStr _ => true | _ => false end
                 && json_native (snd kv))
        items
      && distinct_keys (map fst items)
  | PyTuple _ | PyBytes _ | PyDatetime _ | PyObject _ => false
  end.

Definition no_space (s : text) : bool := negb (existsb (N.eqb 32) s).

(** Every text of the value passes [ok]: the texts that are values,
    the texts of the keys, and the texts that [_smarter_repr] gives. *)
Fixpoint texts_all (ok : text -> bool) (py : builtins) (v : pyobj) : bool :=
  match v with
  | PyNone | PyBool _ | PyInt _ | PyFloat _ => true
  | PyStr s => ok s
  | PyList items | PyTuple items => forallb (texts_all ok py) items
  | PyDict items =>
      forallb (fun kv =>
                 match key_text (fst kv) with
                 | Ok t => ok t
                 | Raise _ => true
                 end && texts_all ok py (snd kv))
        items
  | PyBytes _ | PyDatetime _ | PyObject _ => ok (_smarter_repr py v)
  end.

(** No text of the value holds a space. *)
Definition spaceless (py : builtins) (v : pyobj) : bool := texts_all no_space py v.

(** The characters of a number literal. *)
Definition number_char (c : N) : bool :=
  is_digit c || (c =? ch "-")%N || (c =? ch "+")%N || (c =? ch ".")%N
  || (c =? ch "e")%N || (c =? ch "E")%N.

(** What can follow a value in a JSON text: nothing, or the comma or
    the bracket that closes the container. *)
Definition delimited (rest : text) : bool :=
  match rest with
  | [] => true
  | c :: _ => (c =? ch ",")%N || (c =? ch "]")%N || (c =? ch "}")%N
  end.

(** The forms that [escape_char] gives to a character [c]. *)
Inductive escape_shape (c : N) : text -> Prop :=
| shape_short (e : N) :
    e <> ch "u" -> unescape e = Some c -> escape_shape c [BACKSLASH; e]
| shape_literal :
    c <> QUOTE -> c <> BACKSLASH -> (32 <= c)%N -> escape_shape c [c]
| shape_u :
    (c < 65536)%N -> escape_shape c (u_escape c)
| shape_pair (hi lo : N) :
    is_high_surrogate hi = true -> is_low_surrogate lo = true ->
    (65536 + ((hi - 55296) * 1024 + (lo - 56320)))%N = c ->
    escape_shape c (u_escape hi ++ u_escape lo).

(** The result of a turn of [scanstring]: the character read, before
    the text that the later turns read. *)
Definition prepend (c : N) (r : option (result (text * text)))
  : option (result (text * text)) :=
  match r with
  | Some (Ok (t, rest)) => Some (Ok (c :: t, rest))
  | Some (Raise e) => Some (Raise e)
  | None => None
  end.

(** The first character of a value in the output of the encoder. *)
Definition value_start (c : N) : bool :=
  (c =? QUOTE)%N || (c =? ch "{")%N || (c =? ch "[")%N || (c =? ch "n")%N
  || (c =? ch "t")%N || (c =? ch "f")%N || (c =? ch "-")%N || is_digit c.

(** The decoder reads the text [t] back as the value [v]: [t] starts
    as a value does, and [scan_once] returns [v] for [t] before any
    delimited rest, with fuel for the length of [t]. *)
Definition reads_back (py : builtins) (t : text) (v : pyobj) : Prop :=
  (exists c t', t = c :: t' /\ value_start c = true) /\
  forall (fuel : nat) (rest : text),
    (length t <= fuel)%nat -> delimited rest = true ->
    scan_once py fuel (t ++ rest) = Some (Ok (v, rest)).

(** ** Whitespace between the tokens of a JSON text *)

(** Whether a JSON text holds no whitespace between its tokens.  The
    scan is outside or inside a string literal ([in_string]).
    Outside, a quotation mark starts a literal and a whitespace
    character is refused; inside, a backslash takes the next
    character with it, a quotation mark ends the literal, and any
    other character, a space too, belongs to the literal.  The text
    has to end outside a literal. *)
Fixpoint no_space_between_tokens (in_string : bool) (s : text) : bool :=
  match s with
  | [] => negb in_string
  | c :: rest =>
      if in_string then
        if (c =? BACKSLASH)%N then
          match rest with
          | _ :: rest' => no_space_between_tokens true rest'
          | [] => false
          end
        else if (c =? QUOTE)%N then no_space_between_tokens false rest
        else no_space_between_tokens true rest
      else if is_whitespace c then false
      else if (c =? QUOTE)%N then no_space_between_tokens true rest
      else no_space_between_tokens false rest
  end.

(** A piece of JSON text that starts and ends outside a string literal
    and holds no whitespace outside its literals: the scan passes over
    it. *)
Definition unspaced (t : text) : Prop :=
  forall rest : text,
    no_space_between_tokens false (t ++ rest) = no_space_between_tokens false rest.

(** ** [BaseGELFHandler.makePickle] *)

(** A dictionary with text keys, as a Python value. *)
Definition document (d : dict) : pyobj :=
  PyDict (map (fun kv => (PyStr (fst kv), snd kv)) d).

Definition BaseGELFHandler_makePickle (env : environment) (py : builtins)
  (self : BaseGELFHandler) (record : LogRecord) : result bytes :=
  let message_dict := _make_message_dict env self record in
  packed <- _message_to_pickle py (document message_dict) ;;
  let frame := if compress self then zlib_compress py packed else packed in
  Ok frame.

(** ** [class GELFUDPHandler] *)

Record GELFUDPHandler : Set := {
  udp_base : BaseGELFHandler;
  udp_host : text;
  udp_port : Z
}.

Definition GELFUDPHandler__init__ (host : text) (port chunk_size : Z)
  (debugging_fields extra_fields fqdn : bool) (localname facility : option text)
  (level_names compress : bool) : GELFUDPHandler :=
  {| udp_base := BaseGELFHandler__init__ chunk_size debugging_fields extra_fields
                   fqdn localname facility level_names compress;
     udp_host := host;
     udp_port := port |}.

(** [GELFUDPHandler.send(self, s)]; [r] is the value that
    [random.randint] returns if the chunker is constructed, and [net]
    the datagrams sent before the call. *)
Definition GELFUDPHandler_send (native : byteorder) (r : Z) (self : GELFUDPHandler)
  (s : bytes) (net : wire) : option (result unit * wire) :=
  if len s <? chunk_size (udp_base self) then Some (Ok tt, DatagramHandler_send net s)
  else
    match ChunkedGELF.__init__ native r s (chunk_size (udp_base self)) with
    | Raise e => Some (Raise e, net)
    | Ok c => send_chunks (S (List.length s)) (ChunkedGELF.__iter__ c) net
    end.

(** ** [class GELFTCPHandler] *)

Record GELFTCPHandler : Set := {
  base : BaseGELFHandler;
  host : text;
  port : Z;
  tls : bool;
  tls_server_name : option text
}.

(** [GELFTCPHandler(host, port, chunk_size, ...)].  The constructor
    has no [compress] parameter and hands [False] to the constructor
    of the base class. *)
Definition GELFTCPHandler__init__ (host : text) (port chunk_size : Z)
  (debugging_fields extra_fields fqdn : bool) (localname facility : option text)
  (level_names tls : bool) (tls_server_name : option text) : GELFTCPHandler :=
  {| base := BaseGELFHandler__init__ chunk_size debugging_fields extra_fields fqdn
               localname facility level_names false;
     host := host;
     port := port;
     tls := tls;
     tls_server_name := tls_server_name |}.

(** The names that the built-in type [super] defines or inherits from
    [object].  In [GELFTCPHandler.makePickle] the name [super] is not
    called: it denotes that type. *)
Definition super_attributes : list string :=
  [ "__class__"; "__delattr__"; "__dir__"; "__doc__"; "__eq__"; "__format__";
    "__ge__"; "__get__"; "__getattribute__"; "__gt__"; "__hash__"; "__init__";
    "__init_subclass__"; "__le__"; "__lt__"; "__ne__"; "__new__"; "__reduce__";
    "__reduce_ex__"; "__repr__"; "__self__"; "__self_class__"; "__setattr__";
    "__sizeof__"; "__str__"; "__subclasshook__"; "__thisclass__" ]%string.

(** [super.<name>], read as a method to call with a handler and a
    record: the type has no other attribute than the ones listed, and
    none of those takes such arguments. *)
Definition super_getattr (name : string)
  : result (GELFTCPHandler -> LogRecord -> result bytes) :=
  if existsb (String.eqb name) super_attributes
  then Ok (fun _ _ => Raise TypeError)
  else Raise AttributeError.

(** [GELFTCPHandler.makePickle]:
    [return super.makePickle(self, record) + b'\x00'] *)
Definition GELFTCPHandler_makePickle (self : GELFTCPHandler) (record : LogRecord)
  : result bytes :=
  makePickle <- super_getattr "makePickle" ;;
  pickle <- makePickle self record ;;
  Ok (pickle ++ [x00]).

(** ** A sample record, handler and host *)

Definition example_env : environment :=
  {| socket_getfqdn := u "log1.example.org";
     socket_gethostname := u "log1";
     logging_getLevelName := fun _ => u "ERROR" |}.

Definition example_record : LogRecord :=
  {| name := u "app.db";
     levelno := logging_ERROR;
     pathname := PyStr (u "/srv/app/db.py");
     lineno := PyInt 12;
     funcName := PyStr (u "connect");
     created := PyFloat (u "1541289600.5");
     process := PyInt 4242;
     threadName := PyStr (u "MainThread");
     processName := Some (PyStr (u "MainProcess"));
     exc_info := None;
     exc_text := None;
     getMessage := u "x";
     __dict__ :=
       [ (u "name", PyStr (u "app.db"));
         (u "msg", PyStr (u "x"));
         (u "args", PyTuple []);
         (u "levelname", PyStr (u "ERROR"));
         (u "levelno", PyInt 40);
         (u "pathname", PyStr (u "/srv/app/db.py"));
         (u "lineno", PyInt 12);
         (u "funcName", PyStr (u "connect"));
         (u "created", PyFloat (u "1541289600.5"));
         (u "process", PyInt 4242);
         (u "threadName", PyStr (u "MainThread"));
         (u "processName", PyStr (u "MainProcess"));
         (u "user", PyStr (u "amal"));
         (u "id", PyInt 7);
         (u "_secret", PyStr (u "s3"));
         (u "pid", PyInt 1) ] |}.

Definition example_handler : BaseGELFHandler :=
  BaseGELFHandler__init__ 1420 true true false None None false true.

(** The same handler with the facility override set to the empty
    string. *)
Definition example_handler_empty_facility : BaseGELFHandler :=
  BaseGELFHandler__init__ 1420 true true false None (Some []) false true.

(** Library functions for the examples: [repr] of an object of
    another class is the text it carries, [float] of a literal that is
    the [repr] of a float is that float, and the compression is a
    stand-in that only marks its input. *)
Definition example_builtins : builtins :=
  {| repr := fun o => match o with PyObject t => t | _ => u "<object>" end;
     float := fun literal => literal;
     zlib_compress := fun b => x78 :: x9c :: b |}.

(** A document with a tuple among its extra fields. *)
Definition example_document : pyobj :=
  PyDict
    [ (PyStr (u "version"), PyStr (u "1.0"));
      (PyStr (u "level"), PyInt 3);
      (PyStr (u "_coords"), PyTuple [PyInt 1; PyInt 2]) ].

(** A document of JSON-native values only. *)
Definition example_native_document : pyobj :=
  PyDict
    [ (PyStr (u "version"), PyStr (u "1.0"));
      (PyStr (u "host"), PyStr (u "log1"));
      (PyStr (u "short_message"), PyStr (u "x"));
      (PyStr (u "timestamp"), PyFloat (u "1541289600.5"));
      (PyStr (u "level"), PyInt 3);
      (PyStr (u "_tags"), PyList [PyStr (u "db"); PyNone; PyBool true]) ].

(** UDP handlers with small chunk sizes. *)
Definition example_udp_handler (chunk_size : Z) : GELFUDPHandler :=
  GELFUDPHandler__init__ (u "localhost") 12201 chunk_size true true false None None
    false false.

(** A document with spaces in a text. *)
Definition example_spaced_document : pyobj :=
  PyDict
    [ (PyStr (u "version"), PyStr (u "1.0"));
      (PyStr (u "short_message"), PyStr (u "disk full on /var"));
      (PyStr (u "level"), PyInt 3) ].

(** ** The value of a message id *)

(** The unsigned integer that a sequence of bytes holds in
    little-endian order. *)
Fixpoint le_value (bs : bytes) : Z :=
  match bs with
  | [] => 0
  | b :: bs' => Z.of_N (Byte.to_N b) + 256 * le_value bs'
  end.

(** ** The names of the fields of a document *)

(** The keys of the dictionary literal that [_make_message_dict]
    starts from, in the order of the literal. *)
Definition required_keys : list text :=
  map u [ "version"; "host"; "short_message"; "full_message"; "timestamp";
          "level"; "facility" ]%string.

(** The keys that [_make_message_dict] adds under the names that it
    spells out, in the order in which it adds them. *)
Definition optional_keys (self : BaseGELFHandler) (record : LogRecord) : list text :=
  (if level_names self then [u "level_name"] else [])
  ++ match facility self with
     | Some _ => [u "_logger"]
     | None => []
     end
  ++ (if debugging_fields self
      then map u [ "file"; "line"; "_function"; "_pid"; "_thread_name" ]%string
           ++ match processName record with
              | None | Some PyNone => []
              | Some _ => [u "_process_name"]
              end
      else []).

(** The host that the handler names as the source of a record. *)
Definition source_host (env : environment) (self : BaseGELFHandler) : text :=
  if fqdn self then socket_getfqdn env
  else match localname self with
       | Some (c :: n) => c :: n
       | _ => socket_gethostname env
       end.

(** ** Classes of values for the serializer *)

(** A character of ASCII that is not a control character. *)
Definition printable (c : N) : bool := (32 <=? c)%N && (c <=? 126)%N.

(** The [repr] of every float of the value passes [ok]. *)
Fixpoint floats_all (ok : text -> bool) (v : pyobj) : bool :=
  match v with
  | PyFloat r => ok r
  | PyList items | PyTuple items => forallb (floats_all ok) items
  | PyDict items =>
      forallb (fun kv => floats_all ok (fst kv) && floats_all ok (snd kv)) items
  | _ => true
  end.

(** Every key of every dictionary of the value is a text, a number, a
    boolean or [None]: the keys that the encoder accepts. *)
Fixpoint keys_ok (v : pyobj) : bool :=
  match v with
  | PyList items | PyTuple items => forallb keys_ok items
  | PyDict items =>
      forallb (fun kv =>
                 match key_text (fst kv) with
                 | Ok _ => true
                 | Raise _ => false
                 end && keys_ok (snd kv))
        items
  | _ => true
  end.

(** No [bytes] object is left in the value. *)
Fixpoint bytes_free (v : pyobj) : bool :=
  match v with
  | PyBytes _ => false
  | PyList items | PyTuple items => forallb bytes_free items
  | PyDict items =>
      forallb (fun kv => bytes_free (fst kv) && bytes_free (snd kv)) items
  | _ => true
  end.

(** No [bytes] object is left in the value, and no dictionary of the
    value lists a key twice. *)
Fixpoint clean (v : pyobj) : bool :=
  match v with
  | PyBytes _ => false
  | PyList items | PyTuple items => forallb clean items
  | PyDict items =>
      forallb (fun kv => clean (fst kv) && clean (snd kv)) items
      && distinct_keys (map fst items)
  | _ => true
  end.

(** ** The attributes of a record that can reach the document *)

(** The values of the attributes that [_make_message_dict] copies
    into the document as they are. *)
Definition record_values (record : LogRecord) : list pyobj :=
  [ created record; pathname record; lineno record; funcName record;
    process record; threadName record ]
  ++ match processName record with
     | Some pn => [pn]
     | None => []
     end
  ++ map snd (__dict__ record).

(** No text of the list is listed twice. *)
Fixpoint distinct_texts (l : list text) : bool :=
  match l with
  | [] => true
  | k :: l' => negb (existsb (text_eqb k) l') && distinct_texts l'
  end.

(** ** Integers that [int.__repr__] writes *)

(** Since Python 3.11 the conversion of an integer to its decimal text
    raises [ValueError] when the integer has more than 4300 digits
    ([sys.int_info.default_max_str_digits]); the encoder of [json]
    writes an integer through that conversion.  [int_repr] is the
    conversion for the integers below that bound. *)
Definition repr_writes (n : Z) : bool := Z.abs n <? 10 ^ 4300.

(** Every integer of the value passes [ok]. *)
Fixpoint ints_all (ok : Z -> bool) (v : pyobj) : bool :=
  match v with
  | PyInt n => ok n
  | PyList items | PyTuple items => forallb (ints_all ok) items
  | PyDict items =>
      forallb (fun kv => ints_all ok (fst kv) && ints_all ok (snd kv)) items
  | _ => true
  end.

(** ** [GELFUDPHandler.send] on a socket that can refuse a datagram *)

(** [DatagramHandler.send] of the standard library hands the datagram
    to [socket.sendto] and lets its exceptions through: [OSError] for
    a datagram that the protocol cannot carry, among others.  A socket
    is described by its answers: [sendto net s] is [None] when the
    socket takes the datagram [s] after the datagrams [net], and the
    exception that it raises otherwise.  A datagram that the socket
    refuses is not sent. *)
Definition socket (X : Type) : Type := wire -> bytes -> option X.

(** How a call of [send] ends: it returns, it raises an exception of
    the chunker, or it lets an exception of the socket through. *)
Inductive sent (X : Type) : Type :=
| Returns
| Raises (e : exn)
| SocketRaises (x : X).
Arguments Returns {X}.
Arguments Raises {X} e.
Arguments SocketRaises {X} x.

(** [for chunk in g: DatagramHandler.send(self, chunk)]: the loop ends
    with the first exception, of the generator or of the socket. *)
Fixpoint send_chunks_over {X : Type} (sendto : socket X) (fuel : nat)
  (g : ChunkedGELF.generator) (net : wire) : option (sent X * wire) :=
  match fuel with
  | O => None
  | S fuel' =>
      match ChunkedGELF.next g with
      | (ChunkedGELF.Yield chunk, g') =>
          match sendto net chunk with
          | None => send_chunks_over sendto fuel' g' (net ++ [chunk])
          | Some x => Some (SocketRaises x, net)
          end
      | (ChunkedGELF.StopIteration, _) => Some (Returns, net)
      | (ChunkedGELF.Raised e, _) => Some (Raises e, net)
      end
  end.

(** [GELFUDPHandler.send(self, s)] on the socket [sendto]; [r] is the
    value that [random.randint] returns if the chunker is constructed,
    and [net] the datagrams sent before the call. *)
Definition GELFUDPHandler_send_over {X : Type} (sendto : socket X)
  (native : byteorder) (r : Z) (self : GELFUDPHandler) (s : bytes) (net : wire)
  : option (sent X * wire) :=
  if len s <? chunk_size (udp_base self) then
    match sendto net s with
    | None => Some (Returns, net ++ [s])
    | Some x => Some (SocketRaises x, net)
    end
  else
    match ChunkedGELF.__init__ native r s (chunk_size (udp_base self)) with
    | Raise e => Some (Raises e, net)
    | Ok c => send_chunks_over sendto (S (List.length s)) (ChunkedGELF.__iter__ c) net
    end.

(** Handing datagrams to the socket one after the other, up to the
    first one that it refuses. *)
Fixpoint deliver {X : Type} (sendto : socket X) (net : wire) (datagrams : list bytes)
  : sent X * wire :=
  match datagrams with
  | [] => (Returns, net)
  | d :: rest =>
      match sendto net d with
      | None => deliver sendto (net ++ [d]) rest
      | Some x => (SocketRaises x, net)
      end
  end.

(** A socket that refuses every datagram of more than [limit] bytes
    with the error number [errno]. *)
Definition example_socket (limit errno : Z) : socket Z :=
  fun _ d => if len d <=? limit then None else Some errno.

(** * Properties *)

(** ** Built-ins *)

Lemma len_nonneg {A : Type} (l : list A) : 0 <= len l.
Proof. unfold len. lia. Qed.

Lemma len_app {A : Type} (l1 l2 : list A) : len (l1 ++ l2) = len l1 + len l2.
Proof. unfold len. rewrite length_app. lia. Qed.

Lemma pack_B_in_range (n : Z) :
  0 <= n <= 255 -> pack_B n = Ok [byte_of_Z n].
Proof.
  intros Hn. unfold pack_B, byte_of_Z.
  destruct (Z.ltb_spec n 0); [lia|].
  rewrite Z.mod_small by lia.
  destruct (Byte.of_N (Z.to_N n)) eqn:E; [reflexivity|].
  apply Byte.of_N_None_iff in E. lia.
Qed.

Lemma pack_B_out_of_range (n : Z) :
  n < 0 \/ 255 < n -> pack_B n = Raise StructError.
Proof.
  intros Hn. unfold pack_B.
  destruct (Z.ltb_spec n 0); [reflexivity|].
  destruct (Byte.of_N (Z.to_N n)) eqn:E; [|reflexivity].
  apply Byte.to_of_N in E. pose proof (Byte.to_N_bounded b). lia.
Qed.

Lemma pack_B_inv (n : Z) (bs : bytes) :
  pack_B n = Ok bs -> 0 <= n <= 255 /\ bs = [byte_of_Z n].
Proof.
  intros H.
  destruct (Z.ltb_spec n 0) as [Hlt|Hge].
  - rewrite pack_B_out_of_range in H by lia. discriminate.
  - destruct (Z.leb_spec n 255) as [Hle|Hgt].
    + rewrite pack_B_in_range in H by lia. inversion H. split; [lia|reflexivity].
    + rewrite pack_B_out_of_range in H by lia. discriminate.
Qed.

Lemma length_le_bytes (k : nat) (n : Z) : List.length (le_bytes k n) = k.
Proof. revert n. induction k; intros n; simpl; [reflexivity|]. now rewrite IHk. Qed.

Lemma pack_Q_inv (native : byteorder) (r : Z) (bs : bytes) :
  pack_Q native r = Ok bs -> List.length bs = 8%nat.
Proof.
  unfold pack_Q. destruct ((0 <=? r) && (r <? 2 ^ 64)); [|discriminate].
  intros H. injection H as <-. destruct native; reflexivity.
Qed.

Lemma pack_Q_in_range (native : byteorder) (r : Z) :
  0 <= r < 2 ^ 64 -> exists bs, pack_Q native r = Ok bs.
Proof.
  intros Hr. unfold pack_Q.
  destruct (Z.leb_spec 0 r); [|lia].
  destruct (Z.ltb_spec r (2 ^ 64)); [|lia].
  simpl. eauto.
Qed.

Lemma ceil_div_pos (a b : Z) :
  0 < b -> ceil_div a b = Ok ((a + b - 1) / b).
Proof.
  intros Hb. unfold ceil_div.
  destruct (Z.eqb_spec b 0); [lia|]. f_equal.
  assert (Hq : (a + b - 1) / b = - ((- a) / b)); [|lia].
  pose proof (Z.div_mod (- a) b ltac:(lia)) as E1.
  pose proof (Z.mod_pos_bound (- a) b Hb) as B1.
  symmetry. apply Z.div_unique with (r := b - 1 - (- a) mod b); [lia|].
  nia.
Qed.

(** ** Slices of the message *)

Lemma py_slice_inside {A : Type} (l : list A) (i s : Z) :
  0 <= i <= len l -> 0 < s ->
  py_slice l i (i + s) = firstn (Z.to_nat s) (skipn (Z.to_nat i) l).
Proof.
  intros Hi Hs. unfold py_slice, clamp_index.
  destruct (Z.ltb_spec i 0); [lia|].
  destruct (Z.ltb_spec (i + s) 0); [lia|].
  rewrite (Z.min_l i) by lia.
  destruct (Z.le_ge_cases (i + s) (len l)) as [Hin|Hout].
  - rewrite Z.min_l by lia. f_equal. lia.
  - rewrite Z.min_r by lia.
    rewrite !firstn_all2; try reflexivity;
      rewrite length_skipn; unfold len in *; lia.
Qed.

Lemma py_slice_step {A : Type} (l : list A) (i s : Z) :
  0 <= i <= len l -> 0 < s ->
  py_slice l i (i + s) ++ skipn (Z.to_nat (i + s)) l = skipn (Z.to_nat i) l.
Proof.
  intros Hi Hs. rewrite py_slice_inside by assumption.
  replace (Z.to_nat (i + s)) with (Z.to_nat s + Z.to_nat i)%nat by lia.
  rewrite <- skipn_skipn. apply firstn_skipn.
Qed.

Lemma remaining_zero (stop step i : Z) :
  0 < step -> remaining stop step i = 0%nat -> stop <= i.
Proof.
  unfold remaining. intros Hs H.
  destruct (Z.le_gt_cases stop i); [assumption|].
  assert (1 <= (stop - i + step - 1) / step); [|lia].
  apply Z.div_le_lower_bound; lia.
Qed.

Lemma remaining_succ (stop step i : Z) (n : nat) :
  0 < step -> remaining stop step i = S n ->
  i < stop /\ remaining stop step (i + step) = n.
Proof.
  unfold remaining. intros Hs H.
  assert (Hi : i < stop).
  { destruct (Z.lt_ge_cases i stop); [assumption|].
    assert ((stop - i + step - 1) / step <= 0); [|lia].
    assert ((stop - i + step - 1) / step < 1); [|lia].
    apply Z.div_lt_upper_bound; lia. }
  split; [assumption|].
  replace (stop - i + step - 1) with (stop - (i + step) + step - 1 + 1 * step) in H by lia.
  rewrite Z.div_add in H by lia. 
  assert (0 <= (stop - (i + step) + step - 1) / step).
  { apply Z.div_pos; lia. }
  lia.
Qed.

Lemma remaining_le_len (stop step : Z) :
  0 < step -> 0 <= stop -> (remaining stop step 0 <= Z.to_nat stop)%nat.
Proof.
  intros Hs Hl. unfold remaining.
  assert ((stop - 0 + step - 1) / step <= stop); [|lia].
  destruct (Z.eq_dec stop 0) as [->|Hne].
  - rewrite Z.div_small; lia.
  - apply Z.div_le_upper_bound; nia.
Qed.

(** ** The constructor of [ChunkedGELF] *)

Lemma init_inv (native : byteorder) (r : Z) (m : bytes) (s : Z) (c : ChunkedGELF.t) :
  ChunkedGELF.__init__ native r m s = Ok c ->
  ChunkedGELF.message c = m /\ ChunkedGELF.size c = s /\
  pack_Q native r = Ok (ChunkedGELF.id c) /\
  exists n, ceil_div (len m) s = Ok n /\ 0 <= n <= 255 /\
            ChunkedGELF.pieces c = [byte_of_Z n].
Proof.
  unfold ChunkedGELF.__init__. intros H.
  destruct (ceil_div (len m) s) as [n|e] eqn:En; [|discriminate]. simpl in H.
  destruct (pack_B n) as [p|e] eqn:Ep; [|discriminate]. simpl in H.
  destruct (pack_Q native r) as [q|e] eqn:Eq; [|discriminate]. simpl in H.
  injection H as <-. simpl.
  apply pack_B_inv in Ep. destruct Ep as [Hn ->].
  repeat split. exists n. auto.
Qed.

Lemma init_ok (native : byteorder) (r : Z) (m : bytes) (s n : Z) :
  ceil_div (len m) s = Ok n -> 0 <= n <= 255 -> 0 <= r < 2 ^ 64 ->
  exists q, pack_Q native r = Ok q /\
    ChunkedGELF.__init__ native r m s = Ok (ChunkedGELF.mk m s [byte_of_Z n] q).
Proof.
  intros Hc Hn Hr. destruct (pack_Q_in_range native r Hr) as [q Hq].
  exists q. split; [assumption|].
  unfold ChunkedGELF.__init__. rewrite Hc. simpl.
  rewrite pack_B_in_range by assumption. simpl. rewrite Hq. reflexivity.
Qed.

Lemma init_too_many (native : byteorder) (r : Z) (m : bytes) (s n : Z) :
  ceil_div (len m) s = Ok n -> n < 0 \/ 255 < n ->
  ChunkedGELF.__init__ native r m s = Raise StructError.
Proof.
  intros Hc Hn. unfold ChunkedGELF.__init__. rewrite Hc. simpl.
  rewrite pack_B_out_of_range by assumption. reflexivity.
Qed.

(** ** The generator *)

Section Generator.

Variable self : ChunkedGELF.t.

Let m := ChunkedGELF.message self.
Let s := ChunkedGELF.size self.

Lemma resume_yield (k i : Z) (n : nat) :
  0 < s -> 0 <= k <= 255 -> remaining (len m) s i = S n ->
  ChunkedGELF.resume self k i =
    (ChunkedGELF.Yield (frame self k (py_slice m i (i + s))),
     ChunkedGELF.gen_suspended self (k + 1) (i + s)).
Proof.
  intros Hs Hk Hr. apply remaining_succ in Hr; [|assumption].
  unfold ChunkedGELF.resume, ChunkedGELF.message_chunks_next,
  ChunkedGELF.range_has_next, ChunkedGELF.encode.
  fold s. fold m.
  destruct (Z.ltb_spec 0 s); [|lia].
  destruct (Z.ltb_spec i (len m)); [|lia].
  rewrite pack_B_in_range by assumption. reflexivity.
Qed.

Lemma resume_stop (k i : Z) :
  0 < s -> remaining (len m) s i = 0%nat ->
  ChunkedGELF.resume self k i = (ChunkedGELF.StopIteration, ChunkedGELF.gen_closed).
Proof.
  intros Hs Hr. apply remaining_zero in Hr; [|assumption].
  unfold ChunkedGELF.resume, ChunkedGELF.message_chunks_next,
  ChunkedGELF.range_has_next. fold s. fold m.
  destruct (Z.ltb_spec 0 s); [|lia].
  destruct (Z.ltb_spec i (len m)); [lia|reflexivity].
Qed.

Lemma resume_negative_step (k : Z) :
  s < 0 ->
  ChunkedGELF.resume self k 0 = (ChunkedGELF.StopIteration, ChunkedGELF.gen_closed).
Proof.
  intros Hs. unfold ChunkedGELF.resume, ChunkedGELF.message_chunks_next,
  ChunkedGELF.range_has_next. fold s. fold m.
  destruct (Z.ltb_spec 0 s); [lia|].
  pose proof (len_nonneg m).
  destruct (Z.ltb_spec (len m) 0); [lia|reflexivity].
Qed.

Lemma drain_suspended (n : nat) :
  forall (fuel : nat) (k i : Z),
    0 < s -> 0 <= k -> k + Z.of_nat n <= 256 ->
    remaining (len m) s i = n -> (n < fuel)%nat ->
    ChunkedGELF.drain fuel (ChunkedGELF.gen_suspended self k i)
    = Some (frames_from self n k i, None).
Proof.
  induction n as [|n IH]; intros fuel k i Hs Hk Hkn Hr Hf.
  - destruct fuel as [|fuel]; [lia|]. simpl.
    rewrite resume_stop by assumption. reflexivity.
  - destruct fuel as [|fuel]; [lia|].
    cbn [ChunkedGELF.drain ChunkedGELF.next].
    rewrite (resume_yield k i n) by (try assumption; lia).
    apply remaining_succ in Hr; [|assumption]. destruct Hr as [_ Hr].
    rewrite IH by (try assumption; lia). reflexivity.
Qed.

(** A pass over a fresh generator, for a positive chunk size. *)
Lemma drain_created (fuel : nat) :
  0 < s -> Z.of_nat (remaining (len m) s 0) <= 256 ->
  (remaining (len m) s 0 < fuel)%nat ->
  ChunkedGELF.drain fuel (ChunkedGELF.__iter__ self)
  = Some (frames_from self (remaining (len m) s 0) 0 0, None).
Proof.
  intros Hs Hn Hf.
  pose proof (drain_suspended (remaining (len m) s 0) fuel 0 0 Hs
                ltac:(lia) ltac:(lia) eq_refl Hf) as H.
  destruct fuel as [|fuel]; [lia|].
  cbn [ChunkedGELF.drain ChunkedGELF.next] in H.
  cbn [ChunkedGELF.drain ChunkedGELF.next ChunkedGELF.__iter__].
  unfold ChunkedGELF.message_chunks.
  fold s. destruct (Z.eqb_spec s 0); [lia|]. exact H.
Qed.

Lemma to_list_positive :
  0 < s -> Z.of_nat (remaining (len m) s 0) <= 256 ->
  ChunkedGELF.to_list self
  = Some (frames_from self (remaining (len m) s 0) 0 0, None).
Proof.
  intros Hs Hn. unfold ChunkedGELF.to_list. apply drain_created; try assumption.
  pose proof (remaining_le_len (len m) s Hs (len_nonneg m)).
  fold m. unfold len in *. lia.
Qed.

Lemma to_list_negative :
  s < 0 -> ChunkedGELF.to_list self = Some ([], None).
Proof.
  intros Hs. unfold ChunkedGELF.to_list.
  cbn [ChunkedGELF.drain ChunkedGELF.next ChunkedGELF.__iter__].
  unfold ChunkedGELF.message_chunks.
  fold s. destruct (Z.eqb_spec s 0); [lia|].
  rewrite resume_negative_step by assumption. reflexivity.
Qed.

(** *** Shape of the chunk list *)

Lemma length_frames_from (n : nat) (k i : Z) :
  List.length (frames_from self n k i) = n.
Proof.
  revert k i. induction n as [|n IH]; intros k i; simpl; [reflexivity|].
  now rewrite IH.
Qed.

Lemma nth_error_frames_from (n : nat) :
  forall (j : nat) (k i : Z),
    (j < n)%nat ->
    nth_error (frames_from self n k i) j
    = Some (frame self (k + Z.of_nat j)
              (py_slice m (i + Z.of_nat j * s) (i + Z.of_nat j * s + s))).
Proof.
  induction n as [|n IH]; intros j k i Hj; [lia|].
  destruct j as [|j].
  - replace (k + Z.of_nat 0) with k by lia.
    replace (i + Z.of_nat 0 * s) with i by lia. reflexivity.
  - replace (k + Z.of_nat (S j)) with (k + 1 + Z.of_nat j) by lia.
    replace (i + Z.of_nat (S j) * s) with (i + s + Z.of_nat j * s) by lia.
    cbn [frames_from nth_error]. rewrite IH by lia. reflexivity.
Qed.

Hypothesis id_length : List.length (ChunkedGELF.id self) = 8%nat.
Hypothesis pieces_length : List.length (ChunkedGELF.pieces self) = 1%nat.

Lemma chunk_payload_frame (k : Z) (chunk : bytes) :
  chunk_payload (frame self k chunk) = chunk.
Proof.
  unfold chunk_payload, frame, ChunkedGELF.magic.
  destruct (ChunkedGELF.id self) as [|i0 [|i1 [|i2 [|i3 [|i4 [|i5 [|i6 [|i7 [|? ?]]]]]]]]];
    try discriminate.
  destruct (ChunkedGELF.pieces self) as [|p0 [|? ?]]; try discriminate.
  reflexivity.
Qed.

Lemma chunk_fields_frame (k : Z) (chunk : bytes) :
  chunk_magic (frame self k chunk) = ChunkedGELF.magic /\
  chunk_id (frame self k chunk) = ChunkedGELF.id self /\
  chunk_sequence (frame self k chunk) = Some (byte_of_Z k) /\
  [chunk_total (frame self k chunk)] = map Some (ChunkedGELF.pieces self).
Proof.
  unfold chunk_magic, chunk_id, chunk_sequence, chunk_total, frame, ChunkedGELF.magic.
  destruct (ChunkedGELF.id self) as [|i0 [|i1 [|i2 [|i3 [|i4 [|i5 [|i6 [|i7 [|? ?]]]]]]]]];
    try discriminate.
  destruct (ChunkedGELF.pieces self) as [|p0 [|? ?]]; try discriminate.
  repeat split; reflexivity.
Qed.

Lemma payloads_frames_from (n : nat) :
  forall (k i : Z),
    0 < s -> 0 <= i -> remaining (len m) s i = n ->
    concat (map chunk_payload (frames_from self n k i)) = skipn (Z.to_nat i) m.
Proof.
  induction n as [|n IH]; intros k i Hs Hi Hr.
  - apply remaining_zero in Hr; [|assumption]. simpl.
    symmetry. apply skipn_all2. unfold len in Hr. lia.
  - apply remaining_succ in Hr; [|assumption]. destruct Hr as [Hlt Hr].
    cbn [frames_from map concat]. rewrite chunk_payload_frame.
    fold s. fold m. rewrite IH by (try assumption; lia).
    apply py_slice_step; lia.
Qed.

End Generator.

(** ** One pass over a constructed chunker *)

Lemma ceil_div_inv (a b n : Z) :
  ceil_div a b = Ok n -> b <> 0 /\ n = - ((- a) / b).
Proof.
  unfold ceil_div. destruct (Z.eqb_spec b 0); [discriminate|].
  intros H. injection H as <-. auto.
Qed.

(** [ceil_div] is the ceiling of the quotient. *)
Lemma ceil_div_spec (a b n : Z) :
  0 < b -> (ceil_div a b = Ok n <-> (n - 1) * b < a <= n * b).
Proof.
  intros Hb. rewrite ceil_div_pos by assumption. split.
  - intros H. injection H as <-.
    pose proof (Z.div_mod (a + b - 1) b ltac:(lia)).
    pose proof (Z.mod_pos_bound (a + b - 1) b Hb). nia.
  - intros H. f_equal. symmetry.
    apply Z.div_unique with (r := a + b - 1 - b * n); lia.
Qed.

Lemma remaining_ceil (a b n : Z) :
  0 < b -> 0 <= a -> ceil_div a b = Ok n ->
  Z.of_nat (remaining a b 0) = n.
Proof.
  intros Hb Ha H. rewrite ceil_div_pos in H by assumption. injection H as <-.
  unfold remaining. rewrite Z.sub_0_r.
  rewrite Z2Nat.id; [reflexivity|]. apply Z.div_pos; lia.
Qed.

Lemma to_list_init (native : byteorder) (r : Z) (m : bytes) (s : Z) (c : ChunkedGELF.t) :
  ChunkedGELF.__init__ native r m s = Ok c ->
  ChunkedGELF.to_list c = Some (chunk_list c, None).
Proof.
  intros H. apply init_inv in H.
  destruct H as (Hm & Hs & _ & n & Hn & Hr & _).
  unfold chunk_list. rewrite Hm, Hs.
  destruct (ceil_div_inv _ _ _ Hn) as [Hs0 _].
  destruct (Z.ltb_spec 0 s) as [Hpos|Hneg].
  - rewrite <- Hm at 1. rewrite <- Hs.
    apply to_list_positive; rewrite ?Hm, ?Hs; [assumption|].
    rewrite (remaining_ceil _ _ n Hpos (len_nonneg m) Hn). lia.
  - apply to_list_negative. lia.
Qed.

Lemma nth_error_chunk_list (c : ChunkedGELF.t) (k : nat) (chunk : bytes) :
  nth_error (chunk_list c) k = Some chunk ->
  0 < ChunkedGELF.size c /\
  (k < remaining (len (ChunkedGELF.message c)) (ChunkedGELF.size c) 0)%nat /\
  chunk = frame c (Z.of_nat k)
            (py_slice (ChunkedGELF.message c)
               (Z.of_nat k * ChunkedGELF.size c)
               (Z.of_nat k * ChunkedGELF.size c + ChunkedGELF.size c)).
Proof.
  unfold chunk_list. intros H.
  destruct (Z.ltb_spec 0 (ChunkedGELF.size c)) as [Hpos|Hneg].
  - assert (Hk : (k < remaining (len (ChunkedGELF.message c)) (ChunkedGELF.size c) 0)%nat).
    { assert (Hn : nth_error
               (frames_from c
                  (remaining (len (ChunkedGELF.message c)) (ChunkedGELF.size c) 0) 0 0) k
             <> None) by congruence.
      apply nth_error_Some in Hn. now rewrite length_frames_from in Hn. }
    rewrite nth_error_frames_from in H by assumption.
    injection H as <-. repeat split; assumption.
  - destruct k; discriminate.
Qed.

(** The [for] loop of [send] puts the chunks of the pass on the wire. *)
Lemma send_chunks_drain (fuel : nat) :
  forall (g : ChunkedGELF.generator) (net : wire) (chunks : list bytes) (e : option exn),
    ChunkedGELF.drain fuel g = Some (chunks, e) ->
    send_chunks fuel g net
    = Some (match e with None => Ok tt | Some x => Raise x end, net ++ chunks).
Proof.
  induction fuel as [|fuel IH]; intros g net chunks e H; [discriminate|].
  cbn [ChunkedGELF.drain] in H. cbn [send_chunks].
  destruct (ChunkedGELF.next g) as [[ch| |x] g'].
  - destruct (ChunkedGELF.drain fuel g') as [[cs e']|] eqn:E; [|discriminate].
    injection H as <- <-. rewrite (IH g' _ cs e' E).
    unfold DatagramHandler_send. rewrite <- app_assoc. reflexivity.
  - injection H as <- <-. rewrite app_nil_r. reflexivity.
  - injection H as <- <-. rewrite app_nil_r. reflexivity.
Qed.

Lemma next_closes (g g' : ChunkedGELF.generator) (o : ChunkedGELF.outcome) :
  ChunkedGELF.next g = (o, g') ->
  (forall chunk, o <> ChunkedGELF.Yield chunk) ->
  g' = ChunkedGELF.gen_closed.
Proof.
  assert (R : forall self k i,
             ChunkedGELF.resume self k i = (o, g') ->
             (forall chunk, o <> ChunkedGELF.Yield chunk) ->
             g' = ChunkedGELF.gen_closed).
  { intros self k i. unfold ChunkedGELF.resume.
    destruct (ChunkedGELF.message_chunks_next self i) as [[chunk i']|].
    - destruct (ChunkedGELF.encode _ _ _); intros H Ho; injection H as <- <-;
        [exfalso; eapply Ho; reflexivity | reflexivity].
    - intros H _. injection H as _ <-. reflexivity. }
  destruct g as [self|self k i|]; cbn [ChunkedGELF.next].
  - destruct (ChunkedGELF.message_chunks self); [apply R|].
    intros H _. injection H as _ <-. reflexivity.
  - apply R.
  - intros H _. injection H as _ <-. reflexivity.
Qed.

Lemma nexts_closed (k : nat) :
  nexts k ChunkedGELF.gen_closed = ChunkedGELF.gen_closed.
Proof. induction k; simpl; auto. Qed.

(** What the successive calls of [next] return, read off the list of
    a complete pass. *)
Lemma next_nexts_drain (fuel : nat) :
  forall (g : ChunkedGELF.generator) (chunks : list bytes) (k : nat),
    ChunkedGELF.drain fuel g = Some (chunks, None) ->
    fst (ChunkedGELF.next (nexts k g))
    = match nth_error chunks k with
      | Some chunk => ChunkedGELF.Yield chunk
      | None => ChunkedGELF.StopIteration
      end.
Proof.
  induction fuel as [|fuel IH]; intros g chunks k H; [discriminate|].
  cbn [ChunkedGELF.drain] in H.
  destruct (ChunkedGELF.next g) as [o g'] eqn:En.
  destruct o as [ch| |x].
  - destruct (ChunkedGELF.drain fuel g') as [[cs e']|] eqn:E; [|discriminate].
    injection H as <- ->. destruct k as [|k].
    + simpl. rewrite En. reflexivity.
    + cbn [nexts nth_error]. rewrite En. simpl. apply IH. assumption.
  - injection H as <-.
    assert (g' = ChunkedGELF.gen_closed) as ->.
    { eapply next_closes; [eassumption|]. intros ch. discriminate. }
    destruct k as [|k]; simpl.
    + rewrite En. reflexivity.
    + rewrite En. simpl. rewrite nexts_closed. reflexivity.
  - discriminate.
Qed.

(** ** Chunking *)

Lemma chunk_list_frames (c : ChunkedGELF.t) (chunk : bytes) :
  In chunk (chunk_list c) -> exists k payload, chunk = frame c k payload.
Proof.
  intros H. apply In_nth_error in H. destruct H as [k Hk].
  apply nth_error_chunk_list in Hk. destruct Hk as (_ & _ & ->). eauto.
Qed.

Lemma init_lengths (native : byteorder) (r : Z) (m : bytes) (s : Z) (c : ChunkedGELF.t) :
  ChunkedGELF.__init__ native r m s = Ok c ->
  List.length (ChunkedGELF.id c) = 8%nat /\
  List.length (ChunkedGELF.pieces c) = 1%nat.
Proof.
  intros H. apply init_inv in H. destruct H as (_ & _ & Hq & n & _ & _ & Hp).
  split; [eapply pack_Q_inv; eassumption | rewrite Hp; reflexivity].
Qed.

(** C1, as amended.  For a payload of length L and a chunk size S with
    0 < S <= L and ceil(L/S) <= 255, and for any message id that
    [random.randint] can draw, the chunker is constructed, one pass
    over it yields exactly ceil(L/S) chunks, the payload slices of the
    chunks concatenated in the order yielded are the payload, every
    chunk carries the total-count byte ceil(L/S), and every chunk
    carries the 8-byte message id of the instance. *)
Theorem chunking_covers_payload
  (native : byteorder) (r : Z) (m : bytes) (s n : Z) :
  0 <= r < 2 ^ 64 -> 0 < s <= len m ->
  ceil_div (len m) s = Ok n -> n <= 255 ->
  exists (c : ChunkedGELF.t) (chunks : list bytes),
    ChunkedGELF.__init__ native r m s = Ok c /\
    ChunkedGELF.to_list c = Some (chunks, None) /\
    len chunks = n /\
    concat (map chunk_payload chunks) = m /\
    Forall (fun ch => chunk_total ch = Some (byte_of_Z n)) chunks /\
    Forall (fun ch => chunk_id ch = ChunkedGELF.id c) chunks /\
    List.length (ChunkedGELF.id c) = 8%nat.
Proof.
  intros Hr Hs Hc Hn.
  assert (Hn0 : 0 <= n).
  { apply ceil_div_spec in Hc; [|lia]. nia. }
  destruct (init_ok native r m s n Hc ltac:(lia) Hr) as (q & Hq & Hinit).
  set (c := ChunkedGELF.mk m s [byte_of_Z n] q) in *.
  destruct (init_lengths _ _ _ _ _ Hinit) as [Hid Hp].
  exists c, (chunk_list c).
  split; [assumption|].
  split; [eapply to_list_init; eassumption|].
  assert (Hrem : Z.of_nat (remaining (len m) s 0) = n).
  { apply remaining_ceil; [lia | apply len_nonneg | assumption]. }
  assert (Hlist : chunk_list c = frames_from c (remaining (len m) s 0) 0 0).
  { unfold chunk_list. cbn [ChunkedGELF.size ChunkedGELF.message c].
    destruct (Z.ltb_spec 0 s); [reflexivity|lia]. }
  split; [|split; [|split; [|split]]].
  - rewrite Hlist. unfold len. rewrite length_frames_from. assumption.
  - rewrite Hlist.
    rewrite (payloads_frames_from c Hid Hp (remaining (len m) s 0) 0 0);
      [reflexivity | simpl; lia | lia | reflexivity].
  - apply Forall_forall. intros ch Hin.
    apply chunk_list_frames in Hin. destruct Hin as (k & payload & ->).
    destruct (chunk_fields_frame c Hid Hp k payload) as (_ & _ & _ & Ht).
    cbn [ChunkedGELF.pieces c map] in Ht. now injection Ht.
  - apply Forall_forall. intros ch Hin.
    apply chunk_list_frames in Hin. destruct Hin as (k & payload & ->).
    apply (chunk_fields_frame c Hid Hp k payload).
  - assumption.
Qed.

Lemma chunking_covers_payload_witness :
  exists (c : ChunkedGELF.t) (chunks : list bytes),
    ChunkedGELF.__init__ little 7 [x61; x62; x63; x64; x65] 2 = Ok c /\
    ChunkedGELF.to_list c = Some (chunks, None) /\
    len chunks = 3 /\
    concat (map chunk_payload chunks) = [x61; x62; x63; x64; x65] /\
    Forall (fun ch => chunk_total ch = Some (byte_of_Z 3)) chunks /\
    Forall (fun ch => chunk_id ch = ChunkedGELF.id c) chunks /\
    List.length (ChunkedGELF.id c) = 8%nat.
Proof.
  apply (chunking_covers_payload little 7 [x61; x62; x63; x64; x65] 2 3).
  - lia.
  - unfold len; simpl; lia.
  - reflexivity.
  - lia.
Defined.

(** C1, as stated, fails where ceil(L/S) does not fit a byte: for 256
    bytes and a chunk size of 1 (so L >= S) the constructor raises and
    there is no chunker to iterate.  It fails for a chunk size of 0,
    where the division raises, and for a negative chunk size: with 1
    byte and a chunk size of -5 the chunker is constructed and yields
    no chunk, so that the slices do not make up the payload. *)
Lemma chunking_every_size_counterexample :
  let m := repeat x00 256 in
  len m >= 1 /\
  ChunkedGELF.__init__ little 7 m 1 = Raise StructError /\
  ChunkedGELF.__init__ little 7 m 0 = Raise ZeroDivisionError /\
  ~ (exists (c : ChunkedGELF.t) (chunks : list bytes),
       ChunkedGELF.__init__ little 7 m 1 = Ok c /\
       ChunkedGELF.to_list c = Some (chunks, None) /\
       len chunks = 256) /\
  len [x61] >= -5 /\
  ~ (exists (c : ChunkedGELF.t) (chunks : list bytes),
       ChunkedGELF.__init__ little 7 [x61] (-5) = Ok c /\
       ChunkedGELF.to_list c = Some (chunks, None) /\
       concat (map chunk_payload chunks) = [x61]).
Proof.
  cbv zeta. split; [vm_compute; discriminate|].
  split; [vm_compute; reflexivity|].
  split; [vm_compute; reflexivity|].
  split; [|split; [vm_compute; discriminate|]].
  - intros (c & chunks & H & _).
    assert (E : ChunkedGELF.__init__ little 7 (repeat x00 256) 1 = Raise StructError)
      by (vm_compute; reflexivity).
    rewrite E in H. discriminate.
  - intros (c & chunks & H & Hl & Hc).
    vm_compute in H. injection H as <-.
    vm_compute in Hl. injection Hl as <-. discriminate Hc.
Qed.

(** C3.  Every chunk that a constructed chunker emits is the two magic
    bytes 0x1e 0x0f, the 8-byte message id, the 1-byte sequence index,
    the 1-byte total count and the payload slice, in this order; the
    k-th chunk emitted carries the index k (from 0) and the k-th slice
    of the payload. *)
Theorem chunk_wire_format
  (native : byteorder) (r : Z) (m : bytes) (s : Z) (c : ChunkedGELF.t) :
  ChunkedGELF.__init__ native r m s = Ok c ->
  exists chunks : list bytes,
    ChunkedGELF.to_list c = Some (chunks, None) /\
    List.length (ChunkedGELF.id c) = 8%nat /\
    List.length (ChunkedGELF.pieces c) = 1%nat /\
    forall (k : nat) (chunk : bytes),
      nth_error chunks k = Some chunk ->
      let payload := py_slice m (Z.of_nat k * s) (Z.of_nat k * s + s) in
      pack_B (Z.of_nat k) = Ok [byte_of_Z (Z.of_nat k)] /\
      ChunkedGELF.encode c (Z.of_nat k) payload = Ok chunk /\
      chunk = [x1e; x0f] ++ ChunkedGELF.id c ++ [byte_of_Z (Z.of_nat k)]
                ++ ChunkedGELF.pieces c ++ payload /\
      chunk_sequence chunk = Some (byte_of_Z (Z.of_nat k)).
Proof.
  intros Hinit. exists (chunk_list c).
  destruct (init_lengths _ _ _ _ _ Hinit) as [Hid Hp].
  split; [eapply to_list_init; eassumption|].
  split; [assumption|]. split; [assumption|].
  intros k chunk Hk payload.
  apply nth_error_chunk_list in Hk. destruct Hk as (Hpos & Hlt & ->).
  apply init_inv in Hinit.
  destruct Hinit as (Hm & Hs & _ & n & Hn & Hr & _).
  rewrite Hm, Hs in *. fold payload.
  assert (Hrem : Z.of_nat (remaining (len m) s 0) = n).
  { apply remaining_ceil; [lia | apply len_nonneg | assumption]. }
  assert (Hpack : pack_B (Z.of_nat k) = Ok [byte_of_Z (Z.of_nat k)]).
  { apply pack_B_in_range. lia. }
  split; [assumption|]. split; [|split].
  - unfold ChunkedGELF.encode. rewrite Hpack. reflexivity.
  - reflexivity.
  - apply (chunk_fields_frame c Hid Hp).
Qed.

Lemma chunk_wire_format_witness :
  exists chunks : list bytes,
    ChunkedGELF.to_list
      (ChunkedGELF.mk [x61; x62; x63] 2 [x02]
         [x07; x00; x00; x00; x00; x00; x00; x00])
    = Some (chunks, None) /\
    nth_error chunks 1
    = Some [x1e; x0f; x07; x00; x00; x00; x00; x00; x00; x00; x01; x02; x63].
Proof.
  destruct (chunk_wire_format little 7 [x61; x62; x63] 2 _ eq_refl)
    as (chunks & Hl & _ & _ & _).
  exists chunks. split; [exact Hl|].
  vm_compute in Hl. injection Hl as <-. reflexivity.
Defined.

(** C8, as amended.  When ceil(L/S) exceeds 255 no check of the source
    guards the constructor, but packing the count into one byte
    raises: the chunker is not constructed, no total-count byte is
    produced, and [send] raises before any datagram is handed to the
    socket. *)
Theorem chunk_count_overflow_raises
  (native : byteorder) (r : Z) (self : GELFUDPHandler) (m : bytes) (n : Z)
  (net : wire) :
  ceil_div (len m) (chunk_size (udp_base self)) = Ok n -> 255 < n ->
  ChunkedGELF.__init__ native r m (chunk_size (udp_base self)) = Raise StructError /\
  GELFUDPHandler_send native r self m net = Some (Raise StructError, net).
Proof.
  intros Hc Hn. set (s := chunk_size (udp_base self)) in *.
  assert (Hinit : ChunkedGELF.__init__ native r m s = Raise StructError).
  { eapply init_too_many; [eassumption|lia]. }
  split; [assumption|].
  unfold GELFUDPHandler_send. fold s. rewrite Hinit.
  destruct (Z.ltb_spec (len m) s) as [Hlt|Hge]; [|reflexivity].
  exfalso. pose proof (len_nonneg m).
  apply ceil_div_spec in Hc; [|lia]. nia.
Qed.

Lemma chunk_count_overflow_raises_witness :
  ChunkedGELF.__init__ big 0 (repeat x41 600) 2 = Raise StructError /\
  GELFUDPHandler_send big 0 (example_udp_handler 2) (repeat x41 600) []
  = Some (Raise StructError, []).
Proof.
  apply (chunk_count_overflow_raises big 0 (example_udp_handler 2)
           (repeat x41 600) 300 []).
  - vm_compute. reflexivity.
  - lia.
Defined.

(** C8, as stated, fails: for 512 bytes and a chunk size of 2 the count
    is 256, and no chunker with a truncated count byte (256 mod 256 = 0)
    or any other count byte comes out of the constructor. *)
Lemma truncated_count_counterexample :
  let m := repeat x41 512 in
  ceil_div (len m) 2 = Ok 256 /\
  ChunkedGELF.__init__ little 1 m 2 = Raise StructError /\
  (forall c : ChunkedGELF.t, ChunkedGELF.__init__ little 1 m 2 <> Ok c) /\
  GELFUDPHandler_send little 1 (example_udp_handler 2) m []
  = Some (Raise StructError, []).
Proof.
  cbv zeta.
  assert (E : ChunkedGELF.__init__ little 1 (repeat x41 512) 2 = Raise StructError)
    by (vm_compute; reflexivity).
  split; [vm_compute; reflexivity|]. split; [exact E|]. split.
  - intros c H. rewrite E in H. discriminate.
  - vm_compute. reflexivity.
Qed.

(** C9, as amended.  A pass over a constructed chunker is lazy and
    ascending: the k-th call of [next] on the generator returned by
    [__iter__] yields the chunk of index k, and once the chunks are
    used up every further call stops, so one generator is single-pass.
    The instance itself is not consumed: [__iter__] reads the instance
    without changing it and starts a fresh generator, so every pass
    over the same instance yields the same chunks. *)
Theorem iteration_lazy_and_repeatable
  (native : byteorder) (r : Z) (m : bytes) (s : Z) (c : ChunkedGELF.t) :
  ChunkedGELF.__init__ native r m s = Ok c ->
  exists chunks : list bytes,
    ChunkedGELF.to_list c = Some (chunks, None) /\
    (forall k : nat,
       fst (ChunkedGELF.next (nexts k (ChunkedGELF.__iter__ c)))
       = match nth_error chunks k with
         | Some chunk => ChunkedGELF.Yield chunk
         | None => ChunkedGELF.StopIteration
         end) /\
    (forall (k : nat) (chunk : bytes),
       nth_error chunks k = Some chunk ->
       chunk_sequence chunk = Some (byte_of_Z (Z.of_nat k))) /\
    (forall k : nat,
       (List.length chunks < k)%nat ->
       nexts k (ChunkedGELF.__iter__ c) = ChunkedGELF.gen_closed).
Proof.
  intros Hinit. exists (chunk_list c).
  pose proof (to_list_init _ _ _ _ _ Hinit) as Hl.
  destruct (init_lengths _ _ _ _ _ Hinit) as [Hid Hp].
  split; [assumption|]. split; [|split].
  - intros k. eapply next_nexts_drain. exact Hl.
  - intros k chunk Hk. apply nth_error_chunk_list in Hk.
    destruct Hk as (_ & _ & ->). apply (chunk_fields_frame c Hid Hp).
  - intros k Hk. destruct k as [|k]; [lia|].
    assert (Hstop : fst (ChunkedGELF.next (nexts (List.length (chunk_list c))
                                             (ChunkedGELF.__iter__ c)))
                    = ChunkedGELF.StopIteration).
    { erewrite next_nexts_drain by exact Hl.
      destruct (nth_error (chunk_list c) (List.length (chunk_list c))) eqn:E;
        [|reflexivity].
      assert (Hn : nth_error (chunk_list c) (List.length (chunk_list c)) <> None)
        by congruence.
      apply nth_error_Some in Hn. lia. }
    assert (Hsplit : forall (a b : nat) (g : ChunkedGELF.generator),
               nexts (a + b) g = nexts b (nexts a g)).
    { induction a as [|a IH]; intros b g; simpl; [reflexivity|apply IH]. }
    replace (S k) with (S (List.length (chunk_list c))
                        + (k - List.length (chunk_list c)))%nat by lia.
    rewrite Hsplit.
    replace (S (List.length (chunk_list c)))
      with (List.length (chunk_list c) + 1)%nat by lia.
    rewrite Hsplit. cbn [nexts].
    destruct (ChunkedGELF.next (nexts (List.length (chunk_list c))
                                  (ChunkedGELF.__iter__ c))) as [o g'] eqn:En.
    simpl in Hstop. subst o. simpl.
    rewrite (next_closes _ _ _ En) by (intros ch; discriminate).
    apply nexts_closed.
Qed.

Lemma iteration_lazy_and_repeatable_witness :
  exists chunks : list bytes,
    ChunkedGELF.to_list
      (ChunkedGELF.mk [x61; x62; x63] 2 [x02]
         [x00; x00; x00; x00; x00; x00; x00; x07])
    = Some (chunks, None) /\
    List.length chunks = 2%nat.
Proof.
  destruct (iteration_lazy_and_repeatable big 7 [x61; x62; x63] 2 _ eq_refl)
    as (chunks & Hl & _).
  exists chunks. split; [exact Hl|].
  vm_compute in Hl. injection Hl as <-. reflexivity.
Defined.

(** C9, as stated, fails: a first pass over an instance runs its
    generator to the end, and a second pass over the same instance
    yields the same two chunks again. *)
Lemma second_iteration_counterexample :
  let c := ChunkedGELF.mk [x61; x62; x63] 2 [x02]
             [x07; x00; x00; x00; x00; x00; x00; x00] in
  let chunks := [ [x1e; x0f; x07; x00; x00; x00; x00; x00; x00; x00; x00; x02; x61; x62];
                  [x1e; x0f; x07; x00; x00; x00; x00; x00; x00; x00; x01; x02; x63] ] in
  ChunkedGELF.__init__ little 7 [x61; x62; x63] 2 = Ok c /\
  ChunkedGELF.to_list c = Some (chunks, None) /\
  nexts 3 (ChunkedGELF.__iter__ c) = ChunkedGELF.gen_closed /\
  ChunkedGELF.drain 4 (ChunkedGELF.__iter__ c) = Some (chunks, None) /\
  ~ (ChunkedGELF.drain 4 (ChunkedGELF.__iter__ c) <> ChunkedGELF.to_list c).
Proof.
  cbv zeta. repeat split; try (vm_compute; reflexivity).
  intros H. apply H. vm_compute. reflexivity.
Qed.

(** ** The UDP handler *)

Lemma send_chunked (native : byteorder) (r : Z) (self : GELFUDPHandler)
  (m : bytes) (net : wire) (c : ChunkedGELF.t) :
  chunk_size (udp_base self) <= len m ->
  ChunkedGELF.__init__ native r m (chunk_size (udp_base self)) = Ok c ->
  GELFUDPHandler_send native r self m net = Some (Ok tt, net ++ chunk_list c).
Proof.
  intros Hs Hinit. unfold GELFUDPHandler_send.
  destruct (Z.ltb_spec (len m) (chunk_size (udp_base self))); [lia|]. rewrite Hinit.
  pose proof (to_list_init _ _ _ _ _ Hinit) as Hl.
  unfold ChunkedGELF.to_list in Hl.
  destruct (init_inv _ _ _ _ _ Hinit) as (Hm & _). rewrite Hm in Hl.
  apply (send_chunks_drain _ _ net) in Hl. exact Hl.
Qed.

(** [send] returns for every input. *)
Lemma send_total (native : byteorder) (r : Z) (self : GELFUDPHandler)
  (m : bytes) (net : wire) :
  exists res, GELFUDPHandler_send native r self m net = Some res.
Proof.
  destruct (Z.lt_ge_cases (len m) (chunk_size (udp_base self))) as [Hlt|Hge].
  - unfold GELFUDPHandler_send.
    destruct (Z.ltb_spec (len m) (chunk_size (udp_base self))); [eauto|lia].
  - destruct (ChunkedGELF.__init__ native r m (chunk_size (udp_base self)))
      as [c|e] eqn:E.
    + rewrite (send_chunked _ _ _ _ _ c) by (assumption || lia). eauto.
    + unfold GELFUDPHandler_send.
      destruct (Z.ltb_spec (len m) (chunk_size (udp_base self))); [lia|].
      rewrite E. eauto.
Qed.

Lemma chunk_list_payloads (native : byteorder) (r : Z) (m : bytes) (s : Z)
  (c : ChunkedGELF.t) :
  ChunkedGELF.__init__ native r m s = Ok c -> 0 < s ->
  concat (map chunk_payload (chunk_list c)) = m.
Proof.
  intros Hinit Hs.
  destruct (init_lengths _ _ _ _ _ Hinit) as [Hid Hp].
  destruct (init_inv _ _ _ _ _ Hinit) as (Hm & Hsz & _).
  unfold chunk_list. rewrite Hsz, Hm.
  destruct (Z.ltb_spec 0 s); [|lia].
  rewrite (payloads_frames_from c Hid Hp (remaining (len m) s 0) 0 0);
    rewrite ?Hm, ?Hsz; [reflexivity | lia | lia | reflexivity].
Qed.

Lemma send_exact_size (native : byteorder) (r : Z) (self : GELFUDPHandler)
  (m q : bytes) (net : wire) :
  chunk_size (udp_base self) = len m -> 0 < len m -> pack_Q native r = Ok q ->
  GELFUDPHandler_send native r self m net
  = Some (Ok tt, net ++ [[x1e; x0f] ++ q ++ [x00; x01] ++ m]).
Proof.
  intros Hsize Hpos Hq.
  assert (Hc : ceil_div (len m) (len m) = Ok 1).
  { apply ceil_div_spec; lia. }
  assert (Hinit : ChunkedGELF.__init__ native r m (chunk_size (udp_base self))
                  = Ok (ChunkedGELF.mk m (len m) [x01] q)).
  { rewrite Hsize. unfold ChunkedGELF.__init__. rewrite Hc. simpl. rewrite Hq.
    reflexivity. }
  rewrite (send_chunked _ _ _ _ _ _ ltac:(rewrite Hsize; apply Z.le_refl) Hinit).
  do 3 f_equal.
  unfold chunk_list. cbn [ChunkedGELF.size ChunkedGELF.message].
  destruct (Z.ltb_spec 0 (len m)); [|lia].
  rewrite <- (Nat2Z.id (remaining _ _ _)).
  rewrite (remaining_ceil _ _ 1 Hpos (len_nonneg m) Hc).
  change (Z.to_nat 1) with 1%nat. cbn [frames_from ChunkedGELF.size ChunkedGELF.message].
  rewrite py_slice_inside by lia.
  change (Z.to_nat 0) with 0%nat. rewrite skipn_O.
  rewrite firstn_all2 by (unfold len; lia).
  reflexivity.
Qed.

(** C2.  For every UDP handler, [send] hands the payload to the socket
    as one datagram, unchanged, if and only if the payload is shorter
    than the chunk size of the handler.  A payload as long as the
    chunk size is chunked: it leaves as one chunk with the 12-byte
    header.  A payload one byte shorter leaves as it is, without
    header. *)
Theorem send_unchunked_iff_shorter
  (native : byteorder) (r : Z) (self : GELFUDPHandler) (s : bytes) (net : wire) :
  (GELFUDPHandler_send native r self s net = Some (Ok tt, net ++ [s])
   <-> len s < chunk_size (udp_base self)) /\
  (len s = chunk_size (udp_base self) ->
   GELFUDPHandler_send native r self s net <> Some (Ok tt, net ++ [s]) /\
   forall q : bytes,
     0 < chunk_size (udp_base self) -> pack_Q native r = Ok q ->
     GELFUDPHandler_send native r self s net
     = Some (Ok tt, net ++ [[x1e; x0f] ++ q ++ [x00; x01] ++ s])) /\
  (len s = chunk_size (udp_base self) - 1 ->
   GELFUDPHandler_send native r self s net = Some (Ok tt, net ++ [s])).
Proof.
  set (size := chunk_size (udp_base self)).
  assert (Hbelow : len s < size ->
            GELFUDPHandler_send native r self s net = Some (Ok tt, net ++ [s])).
  { intros Hlt. unfold GELFUDPHandler_send. fold size.
    destruct (Z.ltb_spec (len s) size); [reflexivity|lia]. }
  assert (Hnot : size <= len s ->
            GELFUDPHandler_send native r self s net <> Some (Ok tt, net ++ [s])).
  { intros Hge Hsend.
    destruct (ChunkedGELF.__init__ native r s size) as [c|e] eqn:Hinit.
    - rewrite (send_chunked _ _ _ _ _ c Hge Hinit) in Hsend.
      injection Hsend as Hsend. apply app_inv_head in Hsend.
      destruct (Z.ltb_spec 0 size) as [Hpos|Hneg].
      + pose proof (chunk_list_payloads _ _ _ _ _ Hinit Hpos) as Hp.
        rewrite Hsend in Hp. cbn [map concat] in Hp. rewrite app_nil_r in Hp.
        unfold chunk_payload in Hp.
        assert (Hlen : List.length (skipn 12 s) = List.length s) by (now rewrite Hp).
        rewrite length_skipn in Hlen. unfold len in Hge. lia.
      + destruct (init_inv _ _ _ _ _ Hinit) as (_ & Hsz & _).
        unfold chunk_list in Hsend. rewrite Hsz in Hsend.
        destruct (Z.ltb_spec 0 size); [lia|discriminate].
    - unfold GELFUDPHandler_send in Hsend. fold size in Hsend.
      destruct (Z.ltb_spec (len s) size); [lia|].
      rewrite Hinit in Hsend. discriminate. }
  split; [|split].
  - split; [|exact Hbelow].
    intros Hsend. destruct (Z.lt_ge_cases (len s) size); [assumption|].
    exfalso. now apply Hnot.
  - intros Heq. split; [apply Hnot; lia|].
    intros q Hpos Hq. apply send_exact_size; [now symmetry|lia|assumption].
  - intros Heq. apply Hbelow. lia.
Qed.

Lemma send_unchunked_iff_shorter_witness :
  GELFUDPHandler_send little 7 (example_udp_handler 3) [x61; x62; x63] []
  = Some (Ok tt, [[x1e; x0f; x07; x00; x00; x00; x00; x00; x00; x00;
                   x00; x01; x61; x62; x63]]) /\
  GELFUDPHandler_send little 7 (example_udp_handler 3) [x61; x62] []
  = Some (Ok tt, [[x61; x62]]).
Proof.
  split.
  - destruct (send_unchunked_iff_shorter little 7 (example_udp_handler 3)
                [x61; x62; x63] []) as (_ & Heq & _).
    destruct (Heq eq_refl) as [_ Hsend].
    apply (Hsend [x07; x00; x00; x00; x00; x00; x00; x00]);
      [reflexivity|reflexivity].
  - destruct (send_unchunked_iff_shorter little 7 (example_udp_handler 3)
                [x61; x62] []) as (_ & _ & Hbelow).
    apply Hbelow. reflexivity.
Defined.

(** ** Dictionaries *)

Lemma text_eqb_eq (a b : text) : text_eqb a b = true <-> a = b.
Proof.
  revert b. induction a as [|x a IH]; intros [|y b]; simpl;
    try (split; [discriminate | discriminate]); [tauto|].
  rewrite andb_true_iff, N.eqb_eq, IH. split.
  - intros [-> ->]. reflexivity.
  - intros H. injection H as -> ->. auto.
Qed.

Lemma text_eqb_refl (a : text) : text_eqb a a = true.
Proof. now apply text_eqb_eq. Qed.

Lemma text_eqb_neq (a b : text) : a <> b -> text_eqb a b = false.
Proof.
  intros H. destruct (text_eqb a b) eqn:E; [|reflexivity].
  apply text_eqb_eq in E. contradiction.
Qed.

Lemma dict_get_set_same (d : dict) (k : text) (v : pyobj) :
  dict_get (dict_set d k v) k = Some v.
Proof.
  induction d as [|[k' v'] d IH]; simpl.
  - now rewrite text_eqb_refl.
  - destruct (text_eqb k' k) eqn:E; simpl; rewrite E; [reflexivity|exact IH].
Qed.

Lemma dict_get_set_other (d : dict) (k k' : text) (v : pyobj) :
  k <> k' -> dict_get (dict_set d k v) k' = dict_get d k'.
Proof.
  intros Hne. induction d as [|[k0 v0] d IH]; simpl.
  - now rewrite text_eqb_neq.
  - destruct (text_eqb k0 k) eqn:E; simpl.
    + apply text_eqb_eq in E. subst k0. now rewrite text_eqb_neq.
    + rewrite IH. reflexivity.
Qed.

Lemma dict_keys_set (d : dict) (k : text) (v : pyobj) :
  dict_keys (dict_set d k v)
  = if existsb (fun k' => text_eqb k' k) (dict_keys d)
    then dict_keys d else dict_keys d ++ [k].
Proof.
  unfold dict_keys.
  induction d as [|[k0 v0] d IH]; simpl; [reflexivity|].
  destruct (text_eqb k0 k) eqn:E; simpl; [reflexivity|].
  rewrite IH.
  destruct (existsb _ (map fst d)); reflexivity.
Qed.

(** ** Extra fields *)

Lemma extra_field_step_other (d : dict) (item : text * pyobj) (k : text) :
  (passes (fst item) = true -> underscore (fst item) <> k) ->
  dict_get (extra_field_step d item) k = dict_get d k.
Proof.
  destruct item as [key value]. unfold extra_field_step. simpl.
  intros H. destruct (passes key); [|reflexivity].
  apply dict_get_set_other. now apply H.
Qed.

Lemma extra_loop_other (items : list (text * pyobj)) (k : text) :
  forall d : dict,
    (forall key, In key (map fst items) -> passes key = true -> underscore key <> k) ->
    dict_get (fold_left extra_field_step items d) k = dict_get d k.
Proof.
  induction items as [|item items IH]; intros d H; simpl; [reflexivity|].
  rewrite IH.
  - apply extra_field_step_other. apply H. simpl. now left.
  - intros key Hin. apply H. simpl. now right.
Qed.

Lemma extra_loop_same (items : list (text * pyobj)) (key : text) (value : pyobj) :
  forall d : dict,
    NoDup (map fst items) -> In (key, value) items -> passes key = true ->
    dict_get (fold_left extra_field_step items d) (underscore key) = Some value.
Proof.
  induction items as [|[k0 v0] items IH]; intros d Hnd Hin Hp; [contradiction|].
  simpl in Hnd. inversion Hnd as [|? ? Hnotin Hnd']; subst.
  destruct Hin as [Heq|Hin].
  - injection Heq as -> ->. cbn [fold_left].
    rewrite extra_loop_other.
    + unfold extra_field_step. rewrite Hp.
      apply dict_get_set_same.
    + intros k Hk _ Heq. unfold underscore in Heq. injection Heq as ->.
      contradiction.
  - cbn [fold_left]. now apply IH.
Qed.

Lemma extra_field_step_keys (d : dict) (key : text) (value : pyobj) :
  exists added : list text,
    dict_keys (extra_field_step d (key, value)) = dict_keys d ++ added /\
    (added = [] \/ (added = [underscore key] /\ passes key = true)).
Proof.
  unfold extra_field_step.
  destruct (passes key).
  - rewrite dict_keys_set. destruct (existsb _ (dict_keys d)).
    + exists []. rewrite app_nil_r. auto.
    + exists [underscore key]. auto.
  - exists []. rewrite app_nil_r. auto.
Qed.

Lemma extra_loop_keys (items : list (text * pyobj)) :
  forall d : dict,
    exists added : list text,
      dict_keys (fold_left extra_field_step items d) = dict_keys d ++ added /\
      forall k, In k added ->
        exists key, In key (map fst items) /\ passes key = true /\ k = underscore key.
Proof.
  induction items as [|[k0 v0] items IH]; intros d; cbn [fold_left].
  - exists []. rewrite app_nil_r. split; [reflexivity|]. intros k [].
  - destruct (IH (extra_field_step d (k0, v0))) as (added & Hk & Hin).
    destruct (extra_field_step_keys d k0 v0) as (a0 & Hk0 & Ha0).
    rewrite Hk0, <- app_assoc in Hk.
    exists (a0 ++ added). split; [assumption|].
    intros k H. apply in_app_or in H. destruct H as [H|H].
    + destruct Ha0 as [->|[-> Hp]]; [contradiction|].
      destruct H as [<-|[]]. exists k0. simpl. auto.
    + destruct (Hin k H) as (key & Hkey & Hpk & ->).
      exists key. simpl. auto.
Qed.

Lemma startswith_underscore_underscore (key : text) :
  startswith_underscore (underscore key) = true.
Proof. reflexivity. Qed.

Lemma extra_fields_plain_key (d : dict) (record : LogRecord) (k : text) :
  startswith_underscore k = false ->
  dict_get (_add_extra_fields d record) k = dict_get d k.
Proof.
  intros Hk. unfold _add_extra_fields. apply extra_loop_other.
  intros key _ _ Heq. subst k. discriminate.
Qed.

Lemma extra_fields_refused_key (d : dict) (record : LogRecord) (key : text) :
  passes key = false ->
  dict_get (_add_extra_fields d record) (underscore key) = dict_get d (underscore key).
Proof.
  intros Hk. unfold _add_extra_fields. apply extra_loop_other.
  intros key' _ Hp Heq. unfold underscore in Heq. injection Heq as ->. congruence.
Qed.

Lemma dict_get_absent (d : dict) (k : text) :
  ~ In k (dict_keys d) -> dict_get d k = None.
Proof.
  unfold dict_keys. induction d as [|[k0 v0] d IH]; simpl; [reflexivity|].
  intros H. destruct (text_eqb k0 k) eqn:E.
  - apply text_eqb_eq in E. tauto.
  - apply IH. tauto.
Qed.

Lemma dict_get_present (d : dict) (k : text) (v : pyobj) :
  dict_get d k = Some v -> In k (dict_keys d).
Proof.
  intros H. destruct (in_dec (list_eq_dec N.eq_dec) k (dict_keys d)) as [Hin|Hout];
    [assumption|].
  rewrite dict_get_absent in H by assumption. discriminate.
Qed.

(** The document before the extra fields are added. *)
Lemma make_message_dict_extra (env : environment) (self : BaseGELFHandler)
  (record : LogRecord) :
  exists fields : dict,
    _make_message_dict env self record
    = (if extra_fields self then _add_extra_fields fields record else fields) /\
    dict_get fields (u "level")
    = Some (PyInt (levels_get SYSLOG_LEVELS (levelno record) (levelno record))) /\
    dict_get fields (u "facility")
    = Some (PyStr (if truthy (facility self)
                   then match facility self with Some f => f | None => [] end
                   else name record)) /\
    dict_get fields (u "_logger")
    = match facility self with
      | Some _ => Some (PyStr (name record))
      | None => None
      end /\
    (forall key,
       key <> u "logger" -> key <> u "function" -> key <> u "pid" ->
       key <> u "thread_name" -> key <> u "process_name" ->
       dict_get fields (underscore key) = None).
Proof.
  unfold _make_message_dict. cbv zeta. eexists. split; [reflexivity|].
  destruct (level_names self), (facility self) as [f|], (debugging_fields self);
    try destruct (processName record) as [[]|];
    (split; [reflexivity|]); (split; [reflexivity|]); (split; [reflexivity|]);
    intros key H1 H2 H3 H4 H5;
    apply dict_get_absent; intros Hin;
    vm_compute in Hin, H1, H2, H3, H4, H5;
    repeat (destruct Hin as [Hin|Hin]; [try discriminate Hin|]);
    try contradiction;
    injection Hin as Hin; symmetry in Hin; contradiction.
Qed.

Lemma passes_false_iff (key : text) :
  passes key = false <-> in_skip_list key = true \/ startswith_underscore key = true.
Proof.
  unfold passes. destruct (in_skip_list key), (startswith_underscore key); simpl;
    intuition discriminate.
Qed.

Lemma passes_true_iff (key : text) :
  passes key = true <-> in_skip_list key = false /\ startswith_underscore key = false.
Proof.
  unfold passes. destruct (in_skip_list key), (startswith_underscore key); simpl;
    intuition discriminate.
Qed.

(** The keys that the loop appends to [d], in the order of the items. *)
Lemma extra_loop_order (items : list (text * pyobj)) :
  forall d : dict,
    NoDup (map fst items) ->
    dict_keys (fold_left extra_field_step items d)
    = dict_keys d
      ++ filter (fun k => negb (existsb (fun k' => text_eqb k' k) (dict_keys d)))
           (map underscore (filter passes (map fst items))).
Proof.
  induction items as [|[k0 v0] items IH]; intros d Hnd; cbn [fold_left].
  - simpl. now rewrite app_nil_r.
  - simpl in Hnd. inversion Hnd as [|? ? Hnotin Hnd']; subst.
    rewrite (IH _ Hnd'). cbn [map fst filter].
    unfold extra_field_step.
    destruct (passes k0) eqn:Hp; [|reflexivity].
    rewrite dict_keys_set. cbn [map filter].
    destruct (existsb (fun k' => text_eqb k' (underscore k0)) (dict_keys d)) eqn:Hmem;
      cbn [negb]; [reflexivity|].
    rewrite <- app_assoc. cbn [app]. do 2 f_equal.
    apply filter_ext_in. intros k Hk.
    rewrite existsb_app. cbn [existsb]. rewrite orb_false_r.
    replace (text_eqb (underscore k0) k) with false; [now rewrite orb_false_r|].
    symmetry. apply text_eqb_neq. intros <-.
    apply in_map_iff in Hk. destruct Hk as (key & Heq & Hin).
    unfold underscore in Heq. injection Heq as ->.
    apply filter_In in Hin. tauto.
Qed.

(** ** The field extractor *)

(** C6.  The [level] field of the document is the syslog level of the
    table for the five severities of the table, and the numeric
    severity of the record, unchanged, for every other severity. *)
Theorem level_follows_syslog_table
  (env : environment) (self : BaseGELFHandler) (record : LogRecord) :
  let level := dict_get (_make_message_dict env self record) (u "level") in
  (levelno record = logging_CRITICAL -> level = Some (PyInt 2)) /\
  (levelno record = logging_ERROR -> level = Some (PyInt 3)) /\
  (levelno record = logging_WARNING -> level = Some (PyInt 4)) /\
  (levelno record = logging_INFO -> level = Some (PyInt 6)) /\
  (levelno record = logging_DEBUG -> level = Some (PyInt 7)) /\
  (levelno record <> logging_CRITICAL -> levelno record <> logging_ERROR ->
   levelno record <> logging_WARNING -> levelno record <> logging_INFO ->
   levelno record <> logging_DEBUG ->
   level = Some (PyInt (levelno record))).
Proof.
  cbv zeta.
  assert (H : dict_get (_make_message_dict env self record) (u "level")
              = Some (PyInt (levels_get SYSLOG_LEVELS (levelno record) (levelno record)))).
  { destruct (make_message_dict_extra env self record) as (fields & -> & Hl & _).
    destruct (extra_fields self); [|assumption].
    rewrite extra_fields_plain_key by reflexivity. assumption. }
  rewrite H.
  repeat split; try (intros ->; reflexivity).
  intros H1 H2 H3 H4 H5. do 2 f_equal.
  unfold SYSLOG_LEVELS, levels_get, logging_CRITICAL, logging_ERROR,
    logging_WARNING, logging_INFO, logging_DEBUG in *.
  repeat match goal with
         | |- context [?a =? ?b] => destruct (Z.eqb_spec a b); [congruence|]
         end.
  reflexivity.
Qed.

Lemma level_follows_syslog_table_witness :
  dict_get (_make_message_dict example_env example_handler example_record) (u "level")
  = Some (PyInt 3).
Proof.
  apply (proj1 (proj2 (level_follows_syslog_table
                         example_env example_handler example_record))).
  reflexivity.
Defined.

(** C7.  With extra fields enabled, every attribute of the record
    whose key is neither in the skip list nor starts with an
    underscore is in the document under '_' + key with its value,
    whatever the document held under that key before; for a key of the
    skip list (where 'id' is) or with a leading underscore the loop
    leaves '_' + key as it was and the document has no such field;
    and the loop appends the new keys in the iteration order of the
    record's attributes. *)
Theorem extra_fields_added
  (env : environment) (self : BaseGELFHandler) (record : LogRecord)
  (message_dict : dict) :
  NoDup (map fst (__dict__ record)) ->
  (forall (key : text) (value : pyobj),
      In (key, value) (__dict__ record) ->
      in_skip_list key = false -> startswith_underscore key = false ->
      dict_get (_add_extra_fields message_dict record) (underscore key) = Some value /\
      (extra_fields self = true ->
       dict_get (_make_message_dict env self record) (underscore key) = Some value)) /\
  (forall key : text,
      in_skip_list key = true \/ startswith_underscore key = true ->
      dict_get (_add_extra_fields message_dict record) (underscore key)
      = dict_get message_dict (underscore key) /\
      dict_get (_make_message_dict env self record) (underscore key) = None) /\
  in_skip_list (u "id") = true /\
  dict_keys (_add_extra_fields message_dict record)
  = dict_keys message_dict
    ++ filter (fun k => negb (existsb (fun k' => text_eqb k' k) (dict_keys message_dict)))
         (map underscore (filter passes (map fst (__dict__ record)))).
Proof.
  intros Hnd. split; [|split; [|split]].
  - intros key value Hin Hskip Hus.
    assert (Hp : passes key = true) by (apply passes_true_iff; auto).
    split.
    + unfold _add_extra_fields. now apply extra_loop_same.
    + intros Hextra.
      destruct (make_message_dict_extra env self record) as (fields & -> & _).
      rewrite Hextra. unfold _add_extra_fields. now apply extra_loop_same.
  - intros key Hkey. apply passes_false_iff in Hkey. split.
    + now apply extra_fields_refused_key.
    + destruct (make_message_dict_extra env self record)
        as (fields & -> & _ & _ & _ & Hnone).
      assert (Hf : dict_get fields (underscore key) = None).
      { apply Hnone; intros ->; vm_compute in Hkey; discriminate. }
      destruct (extra_fields self); [|assumption].
      rewrite extra_fields_refused_key by assumption. assumption.
  - reflexivity.
  - unfold _add_extra_fields. now apply extra_loop_order.
Qed.

Lemma example_record_keys_distinct : NoDup (map fst (__dict__ example_record)).
Proof.
  repeat (constructor; [intros H; vm_compute in H; intuition discriminate|]).
  constructor.
Qed.

Lemma extra_fields_added_witness :
  dict_get (_make_message_dict example_env example_handler example_record)
    (u "_user") = Some (PyStr (u "amal")) /\
  dict_get (_make_message_dict example_env example_handler example_record)
    (u "_pid") = Some (PyInt 1) /\
  dict_get (_make_message_dict example_env example_handler example_record)
    (u "_id") = None.
Proof.
  destruct (extra_fields_added example_env example_handler example_record []
              example_record_keys_distinct) as (Hadd & Hskip & _).
  split; [|split].
  - apply (Hadd (u "user") (PyStr (u "amal"))); try reflexivity.
    vm_compute. tauto.
  - apply (Hadd (u "pid") (PyInt 1)); try reflexivity.
    vm_compute. tauto.
  - apply (Hskip (u "id")). left. reflexivity.
Defined.

(** C10.  With the facility override set to the empty string, the
    [facility] field is the record's name, not the override, and the
    [_logger] field is added all the same, holding the record's name
    (unless an extra field [logger] of the record then overwrites
    it): the test for the value of [facility] is the truth of the
    override, the test for [_logger] is that it is not [None]. *)
Theorem empty_facility_override
  (env : environment) (self : BaseGELFHandler) (record : LogRecord) :
  facility self = Some [] ->
  let doc := _make_message_dict env self record in
  dict_get doc (u "facility") = Some (PyStr (name record)) /\
  In (u "_logger") (dict_keys doc) /\
  (extra_fields self = false \/ ~ In (u "logger") (map fst (__dict__ record)) ->
   dict_get doc (u "_logger") = Some (PyStr (name record))).
Proof.
  intros Hf. cbv zeta.
  destruct (make_message_dict_extra env self record)
    as (fields & -> & _ & Hfac & Hlog & _).
  rewrite Hf in Hfac, Hlog. simpl in Hfac.
  split; [|split].
  - destruct (extra_fields self); [|assumption].
    rewrite extra_fields_plain_key by reflexivity. assumption.
  - apply dict_get_present in Hlog.
    destruct (extra_fields self); [|assumption].
    unfold _add_extra_fields.
    destruct (extra_loop_keys (__dict__ record) fields) as (added & -> & _).
    apply in_or_app. now left.
  - intros Hcase. destruct (extra_fields self) eqn:He; [|assumption].
    destruct Hcase as [Hcase|Hcase]; [discriminate|].
    unfold _add_extra_fields. rewrite extra_loop_other; [assumption|].
    intros key Hin _ Heq. change (u "_logger") with (underscore (u "logger")) in Heq.
    unfold underscore in Heq. injection Heq as ->. contradiction.
Qed.

Lemma empty_facility_override_witness :
  dict_get (_make_message_dict example_env example_handler_empty_facility example_record)
    (u "facility") = Some (PyStr (u "app.db")) /\
  dict_get (_make_message_dict example_env example_handler_empty_facility example_record)
    (u "_logger") = Some (PyStr (u "app.db")).
Proof.
  destruct (empty_facility_override example_env example_handler_empty_facility
              example_record eq_refl) as (Hfac & _ & Hlog).
  split; [exact Hfac|].
  apply Hlog. right. intros H. vm_compute in H. intuition discriminate.
Defined.

(** ** Values *)

(** Induction over values, with the hypotheses for the elements of
    the containers. *)
Lemma pyobj_induction (P : pyobj -> Prop) :
  P PyNone ->
  (forall b, P (PyBool b)) ->
  (forall n, P (PyInt n)) ->
  (forall r, P (PyFloat r)) ->
  (forall s, P (PyStr s)) ->
  (forall b, P (PyBytes b)) ->
  (forall items, Forall P items -> P (PyList items)) ->
  (forall items, Forall P items -> P (PyTuple items)) ->
  (forall items, Forall (fun kv => P (fst kv) /\ P (snd kv)) items -> P (PyDict items)) ->
  (forall t, P (PyDatetime t)) ->
  (forall t, P (PyObject t)) ->
  forall v, P v.
Proof.
  intros HNone HBool HInt HFloat HStr HBytes HList HTuple HDict HDate HObj.
  fix IH 1. intros [ | b | n | r | s | b | items | items | items | t | t ].
  - exact HNone.
  - apply HBool.
  - apply HInt.
  - apply HFloat.
  - apply HStr.
  - apply HBytes.
  - apply HList. induction items as [|x items IHi]; constructor; [apply IH|exact IHi].
  - apply HTuple. induction items as [|x items IHi]; constructor; [apply IH|exact IHi].
  - apply HDict. induction items as [|[k x] items IHi]; constructor;
      [split; apply IH|exact IHi].
  - apply HDate.
  - apply HObj.
Qed.

(** ** String literals *)

Lemma unhex_hex_digit (d : N) : (d < 16)%N -> unhex (hex_digit d) = Some d.
Proof.
  intros H.
  assert (E : (d = 0 \/ d = 1 \/ d = 2 \/ d = 3 \/ d = 4 \/ d = 5 \/ d = 6 \/ d = 7 \/
               d = 8 \/ d = 9 \/ d = 10 \/ d = 11 \/ d = 12 \/ d = 13 \/ d = 14 \/
               d = 15)%N) by lia.
  repeat (destruct E as [->|E]; [reflexivity|]). subst d. reflexivity.
Qed.

Lemma unhex4_u_escape (c : N) :
  (c < 65536)%N ->
  unhex4 (hex_digit ((c / 4096) mod 16)) (hex_digit ((c / 256) mod 16))
    (hex_digit ((c / 16) mod 16)) (hex_digit (c mod 16)) = Some c.
Proof.
  intros H. unfold unhex4.
  rewrite !unhex_hex_digit by (apply N.mod_lt; discriminate).
  f_equal.
  pose proof (N.div_mod c 16 ltac:(discriminate)).
  pose proof (N.div_mod (c / 16) 16 ltac:(discriminate)).
  pose proof (N.div_mod (c / 16 / 16) 16 ltac:(discriminate)).
  pose proof (N.div_mod (c / 16 / 16 / 16) 16 ltac:(discriminate)).
  assert (c / 16 / 16 / 16 / 16 = 0)%N.
  { rewrite !N.Div0.div_div. apply N.div_small. exact H. }
  replace (c / 4096)%N with (c / 16 / 16 / 16)%N by (now rewrite !N.Div0.div_div).
  replace (c / 256)%N with (c / 16 / 16)%N by (now rewrite !N.Div0.div_div).
  lia.
Qed.

Lemma lor_low_bits (base x : N) :
  base = 55296%N \/ base = 56320%N -> (x < 1024)%N ->
  N.lor base x = (base + x)%N.
Proof.
  intros Hb Hx.
  assert (H : forallb (fun y => (N.lor 55296 y =? 55296 + y)%N
                                && (N.lor 56320 y =? 56320 + y)%N)
                (map N.of_nat (seq 0 1024)) = true) by (vm_compute; reflexivity).
  rewrite forallb_forall in H.
  specialize (H x). rewrite andb_true_iff, !N.eqb_eq in H.
  assert (Hin : In x (map N.of_nat (seq 0 1024))).
  { apply in_map_iff. exists (N.to_nat x). split; [lia|]. apply in_seq. lia. }
  destruct Hb as [-> | ->]; apply H; exact Hin.
Qed.

Lemma escape_char_shape (c : N) :
  (c <= 1114111)%N -> escape_shape c (escape_char c).
Proof.
  intros Hc. unfold escape_char.
  destruct (N.eqb_spec c QUOTE) as [->|H1];
    [apply shape_short; [discriminate|reflexivity]|].
  destruct (N.eqb_spec c BACKSLASH) as [->|H2];
    [apply shape_short; [discriminate|reflexivity]|].
  destruct (N.eqb_spec c 10) as [->|H3];
    [apply shape_short; [discriminate|reflexivity]|].
  destruct (N.eqb_spec c 13) as [->|H4];
    [apply shape_short; [discriminate|reflexivity]|].
  destruct (N.eqb_spec c 9) as [->|H5];
    [apply shape_short; [discriminate|reflexivity]|].
  destruct (N.eqb_spec c 12) as [->|H6];
    [apply shape_short; [discriminate|reflexivity]|].
  destruct (N.eqb_spec c 8) as [->|H7];
    [apply shape_short; [discriminate|reflexivity]|].
  destruct ((32 <=? c)%N && (c <=? 126)%N) eqn:Hp.
  - apply andb_true_iff in Hp. destruct Hp as [Hlo _].
    apply N.leb_le in Hlo. now apply shape_literal.
  - destruct (N.ltb_spec c 65536) as [Hs|Hl]; [now apply shape_u|].
    cbv zeta.
    assert (Hn : (c - 65536 < 1048576)%N) by lia.
    rewrite N.shiftr_div_pow2.
    change 1023%N with (N.ones 10). rewrite !N.land_ones.
    change (2 ^ 10)%N with 1024%N.
    assert (Hq : ((c - 65536) / 1024 < 1024)%N).
    { apply N.Div0.div_lt_upper_bound. exact Hn. }
    rewrite (N.mod_small _ _ Hq).
    pose proof (N.mod_lt (c - 65536) 1024 ltac:(discriminate)) as Hr.
    rewrite !lor_low_bits by (auto || assumption).
    pose proof (N.div_mod (c - 65536) 1024 ltac:(discriminate)) as Hdm.
    revert Hq Hr Hdm.
    generalize ((c - 65536) / 1024)%N, ((c - 65536) mod 1024)%N.
    intros q r Hq Hr Hdm.
    apply shape_pair.
    + unfold is_high_surrogate. apply andb_true_iff.
      split; apply N.leb_le; lia.
    + unfold is_low_surrogate. apply andb_true_iff.
      split; apply N.leb_le; lia.
    + lia.
Qed.

(** *** One turn of [scanstring] *)

Lemma scanstring_literal (fuel : nat) (c : N) (rest : text) :
  c <> QUOTE -> c <> BACKSLASH -> (32 <= c)%N ->
  scanstring (S fuel) (c :: rest) = prepend c (scanstring fuel rest).
Proof.
  intros H1 H2 H3. cbn [scanstring].
  rewrite (proj2 (N.eqb_neq c QUOTE) H1), (proj2 (N.eqb_neq c BACKSLASH) H2).
  destruct (N.ltb_spec c 32); [lia|]. reflexivity.
Qed.

Lemma scanstring_short (fuel : nat) (e c : N) (rest : text) :
  e <> ch "u" -> unescape e = Some c ->
  scanstring (S fuel) (BACKSLASH :: e :: rest) = prepend c (scanstring fuel rest).
Proof.
  intros H1 H2. cbn [scanstring].
  change (BACKSLASH =? QUOTE)%N with false.
  change (BACKSLASH =? BACKSLASH)%N with true. cbv iota.
  rewrite (proj2 (N.eqb_neq e (ch "u")) H1), H2. reflexivity.
Qed.

Lemma scanstring_u (fuel : nat) (h1 h2 h3 h4 c : N) (rest : text) :
  unhex4 h1 h2 h3 h4 = Some c ->
  is_high_surrogate c = false \/ low_surrogate_escape rest = Ok None ->
  scanstring (S fuel) (BACKSLASH :: ch "u" :: h1 :: h2 :: h3 :: h4 :: rest)
  = prepend c (scanstring fuel rest).
Proof.
  intros H1 H2. cbn [scanstring].
  change (BACKSLASH =? QUOTE)%N with false.
  change (BACKSLASH =? BACKSLASH)%N with true.
  change (ch "u" =? ch "u")%N with true. cbv iota.
  rewrite H1. destruct (is_high_surrogate c) eqn:Hh; [|reflexivity].
  destruct H2 as [H2|H2]; [discriminate|]. rewrite H2. reflexivity.
Qed.

Lemma scanstring_pair (fuel : nat) (h1 h2 h3 h4 hi lo : N) (rest rest' : text) :
  unhex4 h1 h2 h3 h4 = Some hi -> is_high_surrogate hi = true ->
  low_surrogate_escape rest = Ok (Some (lo, rest')) ->
  scanstring (S fuel) (BACKSLASH :: ch "u" :: h1 :: h2 :: h3 :: h4 :: rest)
  = prepend (65536 + ((hi - 55296) * 1024 + (lo - 56320)))%N (scanstring fuel rest').
Proof.
  intros H1 H2 H3. cbn [scanstring].
  change (BACKSLASH =? QUOTE)%N with false.
  change (BACKSLASH =? BACKSLASH)%N with true.
  change (ch "u" =? ch "u")%N with true. cbv iota.
  rewrite H1, H2, H3. reflexivity.
Qed.

(** *** The escape after a high surrogate *)

Lemma low_escape_other_start (b : N) (t : text) :
  b <> BACKSLASH -> low_surrogate_escape (b :: t) = Ok None.
Proof.
  intros H. unfold low_surrogate_escape.
  rewrite (proj2 (N.eqb_neq b BACKSLASH) H).
  destruct t as [|? [|? [|? [|? [|? [|? ?]]]]]]; reflexivity.
Qed.

Lemma low_escape_short (b e : N) (t : text) :
  e <> ch "u" -> low_surrogate_escape (b :: e :: t) = Ok None.
Proof.
  intros H. unfold low_surrogate_escape.
  rewrite (proj2 (N.eqb_neq e (ch "u")) H), andb_false_r.
  destruct t as [|? [|? [|? [|? [|? ?]]]]]; reflexivity.
Qed.

Lemma low_escape_u (l1 l2 l3 l4 c : N) (t : text) :
  unhex4 l1 l2 l3 l4 = Some c -> is_low_surrogate c = false ->
  low_surrogate_escape (BACKSLASH :: ch "u" :: l1 :: l2 :: l3 :: l4 :: t) = Ok None.
Proof.
  intros H1 H2. unfold low_surrogate_escape. destruct t as [|x t]; [reflexivity|].
  change ((BACKSLASH =? BACKSLASH)%N && (ch "u" =? ch "u")%N) with true. cbv iota.
  rewrite H1, H2. reflexivity.
Qed.

Lemma low_escape_pair (l1 l2 l3 l4 c x : N) (t : text) :
  unhex4 l1 l2 l3 l4 = Some c -> is_low_surrogate c = true ->
  low_surrogate_escape (BACKSLASH :: ch "u" :: l1 :: l2 :: l3 :: l4 :: x :: t)
  = Ok (Some (c, x :: t)).
Proof.
  intros H1 H2. unfold low_surrogate_escape.
  change ((BACKSLASH =? BACKSLASH)%N && (ch "u" =? ch "u")%N) with true. cbv iota.
  rewrite H1, H2. reflexivity.
Qed.

Lemma high_not_low (c : N) : is_high_surrogate c = true -> is_low_surrogate c = false.
Proof.
  unfold is_high_surrogate, is_low_surrogate. intros H.
  apply andb_true_iff in H. destruct H as [_ H]. apply N.leb_le in H.
  destruct (N.leb_spec 56320 c); [lia|reflexivity].
Qed.

Lemma surrogate_small (c : N) :
  is_high_surrogate c = true \/ is_low_surrogate c = true -> (c < 65536)%N.
Proof.
  unfold is_high_surrogate, is_low_surrogate.
  intros [H|H]; apply andb_true_iff in H; destruct H as [_ H];
    apply N.leb_le in H; lia.
Qed.

Lemma text_ok_cons (c : N) (s : text) :
  text_ok (c :: s) = true ->
  (c <= 1114111)%N /\ text_ok s = true /\
  (is_high_surrogate c = true ->
   match s with c' :: _ => is_low_surrogate c' = false | [] => True end).
Proof.
  cbn [text_ok]. rewrite !andb_true_iff, negb_true_iff. intros [[H1 H2] H3].
  apply N.leb_le in H1. repeat split; try assumption.
  intros Hh. rewrite Hh in H2. simpl in H2.
  destruct s; [exact I|assumption].
Qed.

Lemma low_escape_printed (s rest : text) :
  text_ok s = true ->
  match s with c' :: _ => is_low_surrogate c' = false | [] => True end ->
  low_surrogate_escape (flat_map escape_char s ++ QUOTE :: rest) = Ok None.
Proof.
  intros Hok Hhead. destruct s as [|c s].
  - apply low_escape_other_start. discriminate.
  - apply text_ok_cons in Hok. destruct Hok as (Hc & _ & _).
    cbn [flat_map]. rewrite <- app_assoc.
    destruct (escape_char_shape c Hc) as [e He Hu | H1 H2 H3 | Hs | hi lo Hhi Hlo Heq].
    + apply low_escape_short. assumption.
    + apply low_escape_other_start. assumption.
    + unfold u_escape. cbn [app]. eapply low_escape_u; [|exact Hhead].
      now apply unhex4_u_escape.
    + unfold u_escape. cbn [app]. eapply low_escape_u.
      * apply unhex4_u_escape. apply surrogate_small. now left.
      * now apply high_not_low.
Qed.

(** *** A string literal comes back as its text *)

Lemma scanstring_escaped (s : text) :
  forall (fuel : nat) (rest : text),
    text_ok s = true -> (length s < fuel)%nat ->
    scanstring fuel (flat_map escape_char s ++ QUOTE :: rest) = Some (Ok (s, rest)).
Proof.
  induction s as [|c s IH]; intros fuel rest Hok Hfuel.
  - destruct fuel as [|fuel]; [inversion Hfuel|]. reflexivity.
  - destruct fuel as [|fuel]; [inversion Hfuel|].
    simpl in Hfuel. apply PeanoNat.lt_S_n in Hfuel.
    apply text_ok_cons in Hok. destruct Hok as (Hc & Hs & Hsur).
    specialize (IH fuel rest Hs Hfuel).
    cbn [flat_map]. rewrite <- app_assoc.
    destruct (escape_char_shape c Hc) as [e He Hu | H1 H2 H3 | Hsmall | hi lo Hhi Hlo Heq].
    + cbn [app]. rewrite (scanstring_short fuel e c) by assumption.
      rewrite IH. reflexivity.
    + cbn [app]. rewrite scanstring_literal by assumption.
      rewrite IH. reflexivity.
    + unfold u_escape. cbn [app].
      rewrite (scanstring_u fuel _ _ _ _ c).
      * rewrite IH. reflexivity.
      * now apply unhex4_u_escape.
      * destruct (is_high_surrogate c) eqn:Hh; [right|now left].
        apply low_escape_printed; [assumption|]. now apply Hsur.
    + unfold u_escape. cbn [app].
      destruct (flat_map escape_char s ++ QUOTE :: rest) as [|x t] eqn:Erest.
      { destruct (flat_map escape_char s); discriminate. }
      rewrite (scanstring_pair fuel _ _ _ _ hi lo _ (x :: t)).
      * rewrite IH, Heq. reflexivity.
      * apply unhex4_u_escape. apply surrogate_small. now left.
      * assumption.
      * apply low_escape_pair; [|assumption].
        apply unhex4_u_escape. apply surrogate_small. now right.
Qed.

(** ** Number literals *)

Lemma delimited_cases (rest : text) :
  delimited rest = true ->
  rest = [] \/ exists t, rest = ch "," :: t \/ rest = ch "]" :: t \/ rest = ch "}" :: t.
Proof.
  destruct rest as [|c t]; [now left|]. unfold delimited.
  rewrite !orb_true_iff, !N.eqb_eq. intros [[->| ->]| ->]; right; exists t; auto.
Qed.

(** Splits the goal along the forms of a delimited rest. *)
Ltac delimiter rest H :=
  let t := fresh "t" in
  destruct (delimited_cases rest H) as [->|[t [->|[->| ->]]]].

Lemma span_digits_app (s rest : text) :
  delimited rest = true ->
  span_digits (s ++ rest) = (fst (span_digits s), snd (span_digits s) ++ rest).
Proof.
  intros Hd. induction s as [|c s IH].
  - delimiter rest Hd; reflexivity.
  - cbn [app span_digits]. destruct (is_digit c); [|reflexivity].
    rewrite IH. destruct (span_digits s). reflexivity.
Qed.

Lemma scan_sign_app (s rest : text) :
  delimited rest = true ->
  scan_sign (s ++ rest) = (fst (scan_sign s), snd (scan_sign s) ++ rest).
Proof.
  intros Hd. destruct s as [|c s].
  - delimiter rest Hd; reflexivity.
  - cbn [app scan_sign]. destruct (c =? ch "-")%N; reflexivity.
Qed.

Lemma scan_integer_app (s rest ip s2 : text) :
  delimited rest = true ->
  scan_integer s = Some (ip, s2) ->
  scan_integer (s ++ rest) = Some (ip, s2 ++ rest).
Proof.
  intros Hd. destruct s as [|c s]; [discriminate|].
  cbn [app scan_integer]. destruct (c =? 48)%N.
  - intros H. injection H as <- <-. reflexivity.
  - destruct (is_digit c); [|discriminate].
    rewrite (span_digits_app s rest Hd). destruct (span_digits s) as [ds r].
    intros H. injection H as <- <-. reflexivity.
Qed.

Lemma scan_fraction_app (s rest : text) :
  delimited rest = true ->
  scan_fraction (s ++ rest) = (fst (scan_fraction s), snd (scan_fraction s) ++ rest).
Proof.
  intros Hd. destruct s as [|x [|d r]].
  - delimiter rest Hd; try reflexivity; destruct t; reflexivity.
  - delimiter rest Hd; try reflexivity;
      cbn [app scan_fraction];
      match goal with
      | |- context [(?a && is_digit ?b)] =>
          change (is_digit b) with false; rewrite andb_false_r
      end; reflexivity.
  - cbn [app scan_fraction]. destruct ((x =? ch ".")%N && is_digit d); [|reflexivity].
    rewrite (span_digits_app r rest Hd). destruct (span_digits r). reflexivity.
Qed.

Lemma scan_exponent_app (s rest : text) :
  delimited rest = true ->
  scan_exponent (s ++ rest) = (fst (scan_exponent s), snd (scan_exponent s) ++ rest).
Proof.
  intros Hd. destruct s as [|e r].
  - delimiter rest Hd; reflexivity.
  - cbn [app scan_exponent].
    destruct ((e =? ch "e")%N || (e =? ch "E")%N) eqn:He; [|reflexivity].
    cbn [andb]. destruct r as [|c r].
    + cbn [app length Nat.eqb negb].
      delimiter rest Hd; reflexivity.
    + cbn [app length Nat.eqb negb].
      destruct ((c =? ch "-")%N || (c =? ch "+")%N).
      * rewrite (span_digits_app r rest Hd). destruct (span_digits r) as [[|d ds] r'];
          reflexivity.
      * change (c :: r ++ rest) with ((c :: r) ++ rest).
        rewrite (span_digits_app (c :: r) rest Hd).
        destruct (span_digits (c :: r)) as [[|d ds] r']; reflexivity.
Qed.

Lemma match_number_app (s rest literal s4 : text) (is_float : bool) :
  delimited rest = true ->
  match_number s = Some (literal, is_float, s4) ->
  match_number (s ++ rest) = Some (literal, is_float, s4 ++ rest).
Proof.
  intros Hd. unfold match_number.
  rewrite (scan_sign_app s rest Hd). destruct (scan_sign s) as [sign s1]. cbn [fst snd].
  destruct (scan_integer s1) as [[ip s2]|] eqn:Ei; [|discriminate].
  rewrite (scan_integer_app s1 rest ip s2 Hd Ei).
  rewrite (scan_fraction_app s2 rest Hd). destruct (scan_fraction s2) as [frac s3].
  cbn [fst snd].
  rewrite (scan_exponent_app s3 rest Hd). destruct (scan_exponent s3) as [exp s4'].
  cbn [fst snd].
  intros H. injection H as <- <- <-. reflexivity.
Qed.

Lemma digits_of_uint_digits (d : Decimal.uint) :
  Forall (fun c => is_digit c = true) (digits_of_uint d).
Proof. induction d; simpl; constructor; auto. Qed.

Lemma span_digits_all (ds : text) :
  Forall (fun c => is_digit c = true) ds -> span_digits ds = (ds, []).
Proof.
  induction 1 as [|c ds Hc _ IH]; [reflexivity|].
  cbn [span_digits]. rewrite Hc, IH. reflexivity.
Qed.

Lemma uint_of_digits_of_uint (d : Decimal.uint) :
  uint_of_digits (digits_of_uint d) = d.
Proof. induction d; simpl; try rewrite IHd; reflexivity. Qed.

Lemma pos_to_uint_normal (p : positive) :
  Decimal.unorm (Pos.to_uint p) = Pos.to_uint p.
Proof.
  rewrite <- DecimalPos.Unsigned.to_of, DecimalPos.Unsigned.of_to. reflexivity.
Qed.

Lemma pos_digits_head (p : positive) :
  exists (c : N) (ds : text),
    digits_of_uint (Pos.to_uint p) = c :: ds /\
    is_digit c = true /\ c <> 48%N /\ c <> ch "-" /\
    Forall (fun c => is_digit c = true) ds.
Proof.
  pose proof (pos_to_uint_normal p) as Hn.
  pose proof (DecimalPos.Unsigned.to_uint_nonnil p) as Hnil.
  pose proof (DecimalPos.Unsigned.to_uint_nonzero p) as Hzero.
  pose proof (digits_of_uint_digits (Pos.to_uint p)) as Hd.
  destruct (Pos.to_uint p) as [|d|d|d|d|d|d|d|d|d|d];
    [contradiction| |
     cbn [digits_of_uint] in *; inversion Hd; subst;
     eexists; eexists; repeat split; try eassumption; discriminate ..].
  exfalso. rewrite DecimalFacts.unorm_D0 in Hn.
  destruct d as [|d|d|d|d|d|d|d|d|d|d]; try discriminate Hn;
    [apply Hzero; reflexivity|].
  assert (Hne : Decimal.D0 d <> Decimal.Nil) by discriminate.
  pose proof (DecimalFacts.nb_digits_unorm (Decimal.D0 d) Hne) as Hlen.
  rewrite Hn in Hlen. cbn [Decimal.nb_digits] in Hlen. lia.
Qed.

Lemma match_number_digits (c : N) (ds : text) :
  is_digit c = true -> c <> 48%N -> Forall (fun c => is_digit c = true) ds ->
  scan_integer (c :: ds) = Some (c :: ds, []).
Proof.
  intros Hc H0 Hds. unfold scan_integer.
  rewrite (proj2 (N.eqb_neq c 48) H0), Hc, (span_digits_all ds Hds). reflexivity.
Qed.

Lemma match_number_int_repr (n : Z) :
  match_number (int_repr n) = Some (int_repr n, false, []).
Proof.
  destruct n as [|p|p]; [reflexivity| |];
    destruct (pos_digits_head p) as (c & ds & E & Hc & H0 & Hm & Hds);
    unfold match_number, int_repr; rewrite E.
  - unfold scan_sign. rewrite (proj2 (N.eqb_neq c (ch "-")) Hm).
    rewrite (match_number_digits c ds Hc H0 Hds). cbn. now rewrite app_nil_r.
  - unfold scan_sign. change (ch "-" =? ch "-")%N with true. cbv iota.
    rewrite (match_number_digits c ds Hc H0 Hds). cbn. now rewrite app_nil_r.
Qed.

Lemma int_of_literal_int_repr (n : Z) : int_of_literal (int_repr n) = n.
Proof.
  destruct n as [|p|p]; [reflexivity| |].
  - destruct (pos_digits_head p) as (c & ds & E & Hc & H0 & Hm & Hds).
    unfold int_of_literal, int_repr. rewrite E.
    rewrite (proj2 (N.eqb_neq c (ch "-")) Hm), <- E.
    rewrite uint_of_digits_of_uint.
    change (N.of_uint (Pos.to_uint p)) with (Pos.of_uint (Pos.to_uint p)).
    rewrite DecimalPos.Unsigned.of_to. reflexivity.
  - unfold int_of_literal, int_repr.
    change (ch "-" =? ch "-")%N with true. cbv iota.
    rewrite uint_of_digits_of_uint.
    change (N.of_uint (Pos.to_uint p)) with (Pos.of_uint (Pos.to_uint p)).
    rewrite DecimalPos.Unsigned.of_to. reflexivity.
Qed.

(** ** Atoms *)

Lemma is_digit_range (c : N) : is_digit c = true <-> (48 <= c <= 57)%N.
Proof.
  unfold is_digit. rewrite andb_true_iff, !N.leb_le. tauto.
Qed.

Lemma value_start_facts (c : N) :
  value_start c = true ->
  is_whitespace c = false /\ c <> ch "]" /\ c <> ch "}" /\ c <> ch "," /\ c <> ch ":".
Proof.
  unfold value_start. rewrite !orb_true_iff, !N.eqb_eq, is_digit_range.
  intros H. unfold is_whitespace.
  repeat match type of H with
         | _ \/ _ => destruct H as [H|H]
         end;
    try (subst c; repeat split; try reflexivity;
         intros E; vm_compute in E; discriminate E).
  assert (Hn : forall k, (k < 48 \/ 57 < k)%N -> c <> k) by (intros k Hk ->; lia).
  repeat split; try (apply Hn; first [left; reflexivity | right; reflexivity]).
  rewrite !orb_false_iff, !N.eqb_neq.
  repeat split; apply Hn; lia.
Qed.

Lemma skip_whitespace_value (c : N) (t : text) :
  value_start c = true -> skip_whitespace (c :: t) = c :: t.
Proof.
  intros H. apply value_start_facts in H. destruct H as (H & _).
  cbn [skip_whitespace]. now rewrite H.
Qed.

Lemma match_number_head (s : text) (x : text * bool * text) :
  match_number s = Some x ->
  exists c s', s = c :: s' /\
    ((c = ch "-" /\ exists d s'', s' = d :: s'' /\ is_digit d = true)
     \/ is_digit c = true).
Proof.
  unfold match_number. destruct s as [|c s']; [discriminate|].
  intros H. exists c, s'. split; [reflexivity|].
  unfold scan_sign in H. destruct (N.eqb_spec c (ch "-")) as [->|Hc].
  - left. split; [reflexivity|].
    destruct s' as [|d s'']; [discriminate|]. exists d, s''. split; [reflexivity|].
    unfold scan_integer in H. destruct (N.eqb_spec d 48) as [->|Hd]; [reflexivity|].
    destruct (is_digit d); [reflexivity|discriminate].
  - right. unfold scan_integer in H. destruct (N.eqb_spec c 48) as [->|Hd]; [reflexivity|].
    destruct (is_digit c); [reflexivity|discriminate].
Qed.

Lemma digit_not_letter (c k : N) :
  is_digit c = true -> (k < 48 \/ 57 < k)%N -> (c =? k)%N = false.
Proof.
  intros Hc Hk. apply is_digit_range in Hc. apply N.eqb_neq. lia.
Qed.

(** A number at the head of the text is what [scan_atom] returns. *)
Lemma scan_atom_number (py : builtins) (s literal rest : text) (is_float : bool) :
  match_number s = Some (literal, is_float, rest) ->
  scan_atom py s
  = Ok (if is_float then PyFloat (float py literal)
        else PyInt (int_of_literal literal), rest).
Proof.
  intros H. destruct (match_number_head s _ H) as (c & s' & -> & Hc).
  unfold scan_atom. rewrite H.
  destruct Hc as [[-> (d & s'' & -> & Hd)]|Hc].
  - cbn -[match_number N.eqb].
    change (ch "-" =? ch "n")%N with false. change (ch "-" =? ch "t")%N with false.
    change (ch "-" =? ch "f")%N with false. change (ch "-" =? ch "N")%N with false.
    change (ch "-" =? ch "I")%N with false. change (ch "-" =? ch "-")%N with true.
    change (45 =? 45)%N with true.
    cbv iota. rewrite (N.eqb_sym 73 d), (digit_not_letter d 73 Hd) by lia.
    destruct is_float; reflexivity.
  - rewrite !(digit_not_letter c _ Hc)
      by first [left; reflexivity | right; reflexivity].
    destruct is_float; reflexivity.
Qed.

Lemma scan_once_number (py : builtins) (fuel : nat) (s literal rest : text)
  (is_float : bool) :
  match_number s = Some (literal, is_float, rest) ->
  scan_once py (S fuel) s
  = Some (Ok (if is_float then PyFloat (float py literal)
              else PyInt (int_of_literal literal), rest)).
Proof.
  intros H. rewrite <- (scan_atom_number py s literal rest is_float H).
  destruct (match_number_head s _ H) as (c & s' & -> & Hc).
  cbn [scan_once].
  assert (Hq : (c =? QUOTE)%N = false /\ (c =? ch "{")%N = false
               /\ (c =? ch "[")%N = false).
  { destruct Hc as [[-> _]|Hc]; [repeat split; reflexivity|].
    repeat split; apply (digit_not_letter c _ Hc);
      first [left; reflexivity | right; reflexivity]. }
  destruct Hq as (-> & -> & ->). reflexivity.
Qed.

Lemma number_value_start (s : text) (x : text * bool * text) :
  match_number s = Some x ->
  exists c t', s = c :: t' /\ value_start c = true.
Proof.
  intros H. destruct (match_number_head s _ H) as (c & s' & -> & Hc).
  exists c, s'. split; [reflexivity|]. unfold value_start.
  destruct Hc as [[-> _]|Hc]; [reflexivity|]. rewrite Hc. apply orb_true_r.
Qed.

Lemma reads_back_int (py : builtins) (n : Z) :
  reads_back py (int_repr n) (PyInt n).
Proof.
  split; [eapply number_value_start, match_number_int_repr|].
  intros fuel rest Hfuel Hd.
  pose proof (match_number_app _ rest _ _ _ Hd (match_number_int_repr n)) as H.
  destruct fuel as [|fuel].
  { destruct (number_value_start _ _ (match_number_int_repr n)) as (c & t' & E & _).
    rewrite E in Hfuel. inversion Hfuel. }
  rewrite (scan_once_number py fuel _ _ _ _ H), int_of_literal_int_repr.
  reflexivity.
Qed.

Lemma float_ok_inv (py : builtins) (r : text) :
  float_ok py r = true ->
  match_number r = Some (r, true, []) /\ float py r = r /\ floatstr r = r.
Proof.
  unfold float_ok. intros H.
  destruct (match_number r) as [[[literal [|]] [|? ?]]|] eqn:E; try discriminate.
  apply andb_true_iff in H. destruct H as [H1 H2].
  apply text_eqb_eq in H1, H2. subst literal.
  repeat split; try assumption.
  unfold floatstr.
  destruct (text_eqb r (u "nan")) eqn:E1;
    [apply text_eqb_eq in E1; subst r; discriminate|].
  destruct (text_eqb r (u "inf")) eqn:E2;
    [apply text_eqb_eq in E2; subst r; discriminate|].
  destruct (text_eqb r (u "-inf")) eqn:E3;
    [apply text_eqb_eq in E3; subst r; discriminate|].
  reflexivity.
Qed.

Lemma reads_back_float (py : builtins) (r : text) :
  float_ok py r = true -> reads_back py (floatstr r) (PyFloat r).
Proof.
  intros Hok. destruct (float_ok_inv py r Hok) as (Hm & Hf & ->).
  split; [eapply number_value_start; eassumption|].
  intros fuel rest Hfuel Hd.
  pose proof (match_number_app _ rest _ _ _ Hd Hm) as H.
  destruct fuel as [|fuel].
  { destruct (number_value_start _ _ Hm) as (c & t' & E & _).
    rewrite E in Hfuel. inversion Hfuel. }
  rewrite (scan_once_number py fuel _ _ _ _ H), Hf. reflexivity.
Qed.

Lemma length_flat_map_escape (s : text) :
  (length s <= length (flat_map escape_char s))%nat.
Proof.
  induction s as [|c s IH]; [apply le_n|].
  cbn [flat_map]. rewrite length_app. cbn [length].
  assert (1 <= length (escape_char c))%nat; [|lia].
  unfold escape_char, u_escape.
  repeat match goal with
         | |- context [if ?b then _ else _] => destruct b
         end; cbn [length app]; lia.
Qed.

Lemma reads_back_string (py : builtins) (s : text) :
  text_ok s = true -> reads_back py (encode_basestring_ascii s) (PyStr s).
Proof.
  intros Hok. unfold encode_basestring_ascii. split.
  { eexists; eexists; split; reflexivity. }
  intros fuel rest Hfuel Hd.
  destruct fuel as [|fuel]; [inversion Hfuel|].
  cbn [app]. rewrite <- app_assoc. cbn [app scan_once].
  change (QUOTE =? QUOTE)%N with true. cbv iota.
  rewrite scanstring_escaped; [reflexivity|assumption|].
  rewrite length_app. pose proof (length_flat_map_escape s). cbn [length]. lia.
Qed.

(** ** Arrays and objects *)

Lemma join_head (sep t : text) (chunks : list text) (c : N) (t' : text) :
  t = c :: t' -> exists j, join sep (t :: chunks) = c :: j.
Proof.
  intros ->. destruct chunks as [|q r]; cbn [join app]; eauto.
Qed.

Lemma parse_items_join (py : builtins) (vs : list pyobj) (chunks : list text) :
  Forall2 (fun v t => reads_back py t v) vs chunks ->
  chunks <> [] ->
  forall (acc : list pyobj) (fuel : nat) (rest : text),
    (length (join [ch ","] chunks) < fuel)%nat ->
    parse_items py fuel (join [ch ","] chunks ++ ch "]" :: rest) acc
    = Some (Ok (PyList (rev acc ++ vs), rest)).
Proof.
  induction 1 as [|v t vs chunks Hvt Hrest IH]; intros Hne acc fuel rest Hfuel;
    [contradiction|].
  destruct fuel as [|fuel]; [inversion Hfuel|].
  destruct Hvt as [_ Hscan].
  destruct Hrest as [|v2 t2 vs' chunks' Hvt2 Hrest'].
  - cbn [join] in *. cbn [parse_items].
    rewrite (Hscan fuel (ch "]" :: rest)) by (lia || reflexivity).
    cbn [skip_whitespace]. change (is_whitespace (ch "]")) with false. cbv iota.
    change (ch "]" =? ch "]")%N with true. cbv iota.
    cbn [rev]. reflexivity.
  - assert (Hj : join [ch ","] (t :: t2 :: chunks')
                 = t ++ ch "," :: join [ch ","] (t2 :: chunks')) by reflexivity.
    rewrite Hj in *. rewrite length_app in Hfuel. cbn [length] in Hfuel.
    rewrite <- app_assoc. cbn [app parse_items].
    rewrite (Hscan fuel (ch "," :: join [ch ","] (t2 :: chunks') ++ ch "]" :: rest))
      by (lia || reflexivity).
    cbn [skip_whitespace]. change (is_whitespace (ch ",")) with false. cbv iota.
    change (ch "," =? ch "]")%N with false. change (ch "," =? ch ",")%N with true.
    cbv iota.
    destruct Hvt2 as [(c2 & t2' & E2 & Hstart2) Hscan2].
    destruct (join_head [ch ","] t2 chunks' c2 t2' E2) as [j Ej].
    assert (Hskip : skip_whitespace (join [ch ","] (t2 :: chunks') ++ ch "]" :: rest)
                    = join [ch ","] (t2 :: chunks') ++ ch "]" :: rest).
    { rewrite Ej. cbn [app]. now apply skip_whitespace_value. }
    rewrite Hskip.
    rewrite IH; [|discriminate|lia].
    cbn [rev]. rewrite <- app_assoc. reflexivity.
Qed.

Lemma parse_pairs_join (py : builtins) (kvs : list (text * pyobj))
  (chunks : list text) :
  Forall2 (fun kv chunk =>
             text_ok (fst kv) = true /\
             exists vt, chunk = encode_basestring_ascii (fst kv) ++ ch ":" :: vt /\
                        reads_back py vt (snd kv))
    kvs chunks ->
  chunks <> [] ->
  forall (acc : list (pyobj * pyobj)) (fuel : nat) (rest : text),
    (length (join [ch ","] chunks) < fuel)%nat ->
    parse_pairs py fuel (join [ch ","] chunks ++ ch "}" :: rest) acc
    = Some (Ok (PyDict (dict_of_pairs
                          (rev acc ++ map (fun kv => (PyStr (fst kv), snd kv)) kvs)),
                rest)).
Proof.
  induction 1 as [|[k v] chunk kvs chunks Hkv Hrest IH];
    intros Hne acc fuel rest Hfuel; [contradiction|].
  destruct fuel as [|fuel]; [inversion Hfuel|].
  cbn [fst snd] in Hkv.
  destruct Hkv as (Hk & vt & -> & (c0 & vt' & Evt & Hstart) & Hscan).
  assert (Hstep : forall (X : text),
             delimited X = true -> (length vt <= fuel)%nat ->
             parse_pairs py (S fuel)
               ((encode_basestring_ascii k ++ ch ":" :: vt) ++ X) acc
             = match skip_whitespace X with
               | [] => Some (Raise JSONDecodeError)
               | c :: s5 =>
                   if (c =? ch "}")%N then
                     Some (Ok (PyDict (dict_of_pairs (rev ((PyStr k, v) :: acc))), s5))
                   else if (c =? ch ",")%N
                        then parse_pairs py fuel (skip_whitespace s5)
                               ((PyStr k, v) :: acc)
                        else Some (Raise JSONDecodeError)
               end).
  { intros X HX Hlen. unfold encode_basestring_ascii.
    cbn [app]. rewrite <- !app_assoc. cbn [app parse_pairs].
    change (negb (QUOTE =? QUOTE)%N) with false. cbv iota.
    rewrite scanstring_escaped;
      [|assumption
       |rewrite length_app; pose proof (length_flat_map_escape k); cbn [length]; lia].
    cbn [skip_whitespace]. change (is_whitespace (ch ":")) with false. cbv iota.
    change (negb (ch ":" =? ch ":")%N) with false. cbv iota.
    assert (Hskip : skip_whitespace (vt ++ X) = vt ++ X).
    { rewrite Evt. cbn [app]. now apply skip_whitespace_value. }
    rewrite Hskip, (Hscan fuel X Hlen HX). reflexivity. }
  destruct Hrest as [|[k2 v2] chunk2 kvs' chunks' Hkv2 Hrest'].
  - cbn [join] in *. rewrite length_app in Hfuel. cbn [length] in Hfuel.
    rewrite Hstep by (reflexivity || lia).
    cbn [skip_whitespace]. change (is_whitespace (ch "}")) with false. cbv iota.
    change (ch "}" =? ch "}")%N with true. cbv iota.
    cbn [rev map fst snd]. reflexivity.
  - set (chunk := encode_basestring_ascii k ++ ch ":" :: vt) in *.
    assert (Hj : join [ch ","] (chunk :: chunk2 :: chunks')
                 = chunk ++ ch "," :: join [ch ","] (chunk2 :: chunks')) by reflexivity.
    rewrite Hj in *. rewrite length_app in Hfuel. cbn [length] in Hfuel.
    assert (Hlen : (length vt <= length chunk)%nat).
    { unfold chunk. rewrite length_app. cbn [length]. lia. }
    rewrite <- app_assoc. cbn [app]. unfold chunk at 1.
    rewrite Hstep by (reflexivity || lia).
    cbn [skip_whitespace]. change (is_whitespace (ch ",")) with false. cbv iota.
    change (ch "," =? ch "}")%N with false. change (ch "," =? ch ",")%N with true.
    cbv iota.
    cbn [fst snd] in Hkv2. destruct Hkv2 as (_ & vt2 & E2 & _).
    assert (Hskip : skip_whitespace (join [ch ","] (chunk2 :: chunks') ++ ch "}" :: rest)
                    = join [ch ","] (chunk2 :: chunks') ++ ch "}" :: rest).
    { assert (Eh : chunk2 = QUOTE :: flat_map escape_char k2 ++ [QUOTE] ++ ch ":" :: vt2).
      { rewrite E2. unfold encode_basestring_ascii. cbn [app].
        rewrite <- app_assoc. reflexivity. }
      destruct (join_head [ch ","] chunk2 chunks' QUOTE _ Eh) as [j Ej].
      unfold text in *. rewrite Ej. reflexivity. }
    rewrite Hskip.
    rewrite IH; [|discriminate|lia].
    cbn [rev map fst snd]. rewrite <- app_assoc. reflexivity.
Qed.

(** ** The decoder reads back what the encoder writes *)

Lemma sequence_map_reads (py : builtins) (items : list pyobj) :
  Forall (fun x => encodable py x = true ->
                   exists t, json_dumps py x = Ok t /\
                             reads_back py t (json_image py x)) items ->
  forallb (encodable py) items = true ->
  exists chunks,
    sequence (map (json_dumps py) items) = Ok chunks /\
    Forall2 (fun v t => reads_back py t v) (map (json_image py) items) chunks.
Proof.
  induction 1 as [|x items Hx _ IH]; intros Hall.
  - exists []. split; [reflexivity|constructor].
  - cbn [forallb] in Hall. apply andb_true_iff in Hall. destruct Hall as [Hex Hall].
    destruct (Hx Hex) as (t & Ht & Hr). destruct (IH Hall) as (chunks & Hs & Hf).
    exists (t :: chunks). split.
    + cbn [map sequence]. rewrite Ht, Hs. reflexivity.
    + cbn [map]. constructor; assumption.
Qed.

Lemma sequence_map_pairs (py : builtins) (items : list (pyobj * pyobj)) :
  Forall (fun kv => encodable py (snd kv) = true ->
                    exists t, json_dumps py (snd kv) = Ok t /\
                              reads_back py t (json_image py (snd kv))) items ->
  forallb (fun kv =>
             match key_text (fst kv) with
             | Ok t => text_ok t
             | Raise _ => false
             end && encodable py (snd kv)) items = true ->
  exists chunks,
    sequence (map (fun kv =>
                     k <- key_text (fst kv) ;;
                     v <- json_dumps py (snd kv) ;;
                     Ok (encode_basestring_ascii k ++ ch ":" :: v)) items)
    = Ok chunks /\
    Forall2 (fun kv chunk =>
               text_ok (fst kv) = true /\
               exists vt, chunk = encode_basestring_ascii (fst kv) ++ ch ":" :: vt /\
                          reads_back py vt (snd kv))
      (map (fun kv => (match key_text (fst kv) with Ok t => t | Raise _ => [] end,
                       json_image py (snd kv))) items)
      chunks.
Proof.
  induction 1 as [|[k x] items Hx _ IH]; intros Hall.
  - exists []. split; [reflexivity|constructor].
  - cbn [forallb fst snd] in *. apply andb_true_iff in Hall.
    destruct Hall as [Hkx Hall]. apply andb_true_iff in Hkx. destruct Hkx as [Hk Hex].
    destruct (key_text k) as [kt|e] eqn:Ek; [|discriminate].
    destruct (Hx Hex) as (t & Ht & Hr). destruct (IH Hall) as (chunks & Hs & Hf).
    exists ((encode_basestring_ascii kt ++ ch ":" :: t) :: chunks). split.
    + cbn [map sequence fst snd]. rewrite Ek. cbn [bind]. rewrite Ht. cbn [bind].
      rewrite Hs. reflexivity.
    + cbn [map fst snd]. rewrite Ek. constructor; [|assumption].
      cbn [fst snd]. split; [assumption|]. exists t. auto.
Qed.

Lemma reads_back_array (py : builtins) (vs : list pyobj) (chunks : list text) :
  Forall2 (fun v t => reads_back py t v) vs chunks ->
  reads_back py (ch "[" :: join [ch ","] chunks ++ [ch "]"]) (PyList vs).
Proof.
  intros Hf. split; [eexists; eexists; split; reflexivity|].
  intros fuel rest Hfuel Hd.
  destruct fuel as [|fuel]; [inversion Hfuel|].
  cbn [length] in Hfuel. rewrite length_app in Hfuel. cbn [length] in Hfuel.
  cbn [app]. rewrite <- app_assoc. cbn [app scan_once].
  change (ch "[" =? QUOTE)%N with false. change (ch "[" =? ch "{")%N with false.
  change (ch "[" =? ch "[")%N with true. cbv iota.
  destruct Hf as [|v t vs chunks Hvt Hrest].
  - cbn [join app skip_whitespace]. change (is_whitespace (ch "]")) with false.
    cbv iota. change (ch "]" =? ch "]")%N with true. reflexivity.
  - pose proof Hvt as [(c & t' & E & Hstart) _].
    destruct (join_head [ch ","] t chunks c t' E) as [j Ej].
    pose proof (parse_items_join py (v :: vs) (t :: chunks)
                  (@Forall2_cons _ _ (fun v t => reads_back py t v) _ _ _ _ Hvt Hrest)
                  ltac:(discriminate) [] fuel rest ltac:(lia)) as Hp.
    unfold text in *. rewrite Ej in *. cbn [app] in *.
    rewrite (skip_whitespace_value c _ Hstart).
    destruct (value_start_facts c Hstart) as (_ & Hc & _).
    rewrite (proj2 (N.eqb_neq c (ch "]")) Hc). exact Hp.
Qed.

Lemma reads_back_object (py : builtins) (kvs : list (text * pyobj))
  (chunks : list text) :
  Forall2 (fun kv chunk =>
             text_ok (fst kv) = true /\
             exists vt, chunk = encode_basestring_ascii (fst kv) ++ ch ":" :: vt /\
                        reads_back py vt (snd kv))
    kvs chunks ->
  reads_back py (ch "{" :: join [ch ","] chunks ++ [ch "}"])
    (PyDict (dict_of_pairs (map (fun kv => (PyStr (fst kv), snd kv)) kvs))).
Proof.
  intros Hf. split; [eexists; eexists; split; reflexivity|].
  intros fuel rest Hfuel Hd.
  destruct fuel as [|fuel]; [inversion Hfuel|].
  cbn [length] in Hfuel. rewrite length_app in Hfuel. cbn [length] in Hfuel.
  cbn [app]. rewrite <- app_assoc. cbn [app scan_once].
  change (ch "{" =? QUOTE)%N with false. change (ch "{" =? ch "{")%N with true.
  cbv iota.
  destruct Hf as [|[k v] chunk kvs chunks Hkv Hrest].
  - cbn [join app skip_whitespace]. change (is_whitespace (ch "}")) with false.
    cbv iota. change (ch "}" =? ch "}")%N with true. reflexivity.
  - pose proof Hkv as (_ & vt & E & _). cbn [fst] in E.
    assert (Eh : chunk = QUOTE :: flat_map escape_char k ++ [QUOTE] ++ ch ":" :: vt).
    { rewrite E. unfold encode_basestring_ascii. cbn [app].
      rewrite <- app_assoc. reflexivity. }
    destruct (join_head [ch ","] chunk chunks QUOTE _ Eh) as [j Ej].
    pose proof (parse_pairs_join py ((k, v) :: kvs) (chunk :: chunks)
                  (Forall2_cons _ _ Hkv Hrest) ltac:(discriminate) [] fuel rest
                  ltac:(lia)) as Hp.
    unfold text in *. rewrite Ej in *. cbn [app] in *.
    cbn [skip_whitespace]. change (is_whitespace QUOTE) with false. cbv iota.
    change (QUOTE =? ch "}")%N with false. cbv iota. exact Hp.
Qed.

(** Every encodable value is written by the encoder, and the decoder
    reads its JSON image back from the text. *)
Theorem dumps_reads_back (py : builtins) (v : pyobj) :
  encodable py v = true ->
  exists t, json_dumps py v = Ok t /\ reads_back py t (json_image py v).
Proof.
  induction v as [ | b | n | r | s | b | items IH | items IH | items IH | t | t ]
    using pyobj_induction; intros He.
  - exists (u "null"). split; [reflexivity|]. split.
    + eexists; eexists; split; reflexivity.
    + intros [|fuel] rest Hf _; [inversion Hf|]. reflexivity.
  - destruct b.
    + exists (u "true"). split; [reflexivity|]. split.
      * eexists; eexists; split; reflexivity.
      * intros [|fuel] rest Hf _; [inversion Hf|]. reflexivity.
    + exists (u "false"). split; [reflexivity|]. split.
      * eexists; eexists; split; reflexivity.
      * intros [|fuel] rest Hf _; [inversion Hf|]. reflexivity.
  - exists (int_repr n). split; [reflexivity|]. apply reads_back_int.
  - exists (floatstr r). split; [reflexivity|]. now apply reads_back_float.
  - exists (encode_basestring_ascii s). split; [reflexivity|].
    now apply reads_back_string.
  - eexists. split; [reflexivity|]. now apply reads_back_string.
  - cbn [encodable] in He.
    destruct (sequence_map_reads py items IH He) as (chunks & Hs & Hf).
    eexists. split; [cbn [json_dumps]; rewrite Hs; reflexivity|].
    cbn [json_image]. now apply reads_back_array.
  - cbn [encodable] in He.
    destruct (sequence_map_reads py items IH He) as (chunks & Hs & Hf).
    eexists. split; [cbn [json_dumps]; rewrite Hs; reflexivity|].
    cbn [json_image]. now apply reads_back_array.
  - cbn [encodable] in He.
    assert (IH' : Forall (fun kv => encodable py (snd kv) = true ->
                            exists t, json_dumps py (snd kv) = Ok t /\
                                      reads_back py t (json_image py (snd kv))) items).
    { eapply Forall_impl; [|exact IH]. intros kv [_ H]. exact H. }
    destruct (sequence_map_pairs py items IH' He) as (chunks & Hs & Hf).
    eexists. split; [cbn [json_dumps]; rewrite Hs; reflexivity|].
    cbn [json_image].
    pose proof (reads_back_object py _ chunks Hf) as H.
    rewrite map_map in H. exact H.
  - eexists. split; [reflexivity|]. now apply reads_back_string.
  - eexists. split; [reflexivity|]. now apply reads_back_string.
Qed.

(** ** The characters of the output *)

Lemma span_digits_fst_digits (s : text) :
  Forall (fun c => number_char c = true) (fst (span_digits s)).
Proof.
  induction s as [|c s IH]; [constructor|].
  cbn [span_digits]. destruct (is_digit c) eqn:Hc; [|constructor].
  destruct (span_digits s) as [ds r]. cbn [fst] in *.
  constructor; [unfold number_char; now rewrite Hc|assumption].
Qed.

Lemma match_number_chars (s literal rest : text) (is_float : bool) :
  match_number s = Some (literal, is_float, rest) ->
  Forall (fun c => number_char c = true) literal.
Proof.
  unfold match_number.
  assert (Hsign : Forall (fun c => number_char c = true) (fst (scan_sign s))).
  { unfold scan_sign. destruct s as [|c s]; [constructor|].
    destruct (N.eqb_spec c (ch "-")) as [->|]; repeat constructor. }
  destruct (scan_sign s) as [sign s1]. cbn [fst] in Hsign.
  assert (Hint : forall ip s2, scan_integer s1 = Some (ip, s2) ->
                               Forall (fun c => number_char c = true) ip).
  { unfold scan_integer. destruct s1 as [|c r]; [discriminate|].
    destruct (N.eqb_spec c 48) as [->|].
    - intros ip s2 H. injection H as <- <-. repeat constructor.
    - destruct (is_digit c) eqn:Hc; [|discriminate].
      pose proof (span_digits_fst_digits r) as Hds.
      destruct (span_digits r) as [ds r']. intros ip s2 H. injection H as <- <-.
      constructor; [unfold number_char; now rewrite Hc|assumption]. }
  destruct (scan_integer s1) as [[ip s2]|]; [|discriminate].
  specialize (Hint ip s2 eq_refl).
  assert (Hfrac : Forall (fun c => number_char c = true) (fst (scan_fraction s2))).
  { unfold scan_fraction. destruct s2 as [|dot [|d r]]; try constructor.
    destruct (N.eqb_spec dot (ch ".")) as [->|]; [|constructor].
    destruct (is_digit d) eqn:Hd; [|constructor]. cbn [andb].
    pose proof (span_digits_fst_digits r) as Hds.
    destruct (span_digits r) as [ds r']. cbn [fst] in *.
    constructor; [reflexivity|].
    constructor; [unfold number_char; now rewrite Hd|assumption]. }
  destruct (scan_fraction s2) as [frac s3]. cbn [fst] in Hfrac.
  assert (Hexp : Forall (fun c => number_char c = true) (fst (scan_exponent s3))).
  { unfold scan_exponent. destruct s3 as [|e r]; [constructor|].
    destruct ((e =? ch "e")%N || (e =? ch "E")%N) eqn:He; [|constructor].
    destruct (negb (length r =? 0)%nat); [|constructor]. cbn [andb].
    assert (Hsg : forall sg r',
               match r with
               | c :: r'' =>
                   if (c =? ch "-")%N || (c =? ch "+")%N then ([c], r'') else ([], r)
               | [] => ([], r)
               end = (sg, r') ->
               Forall (fun c => number_char c = true) sg).
    { intros sg r' H. destruct r as [|c r'']; [injection H as <- <-; constructor|].
      destruct ((c =? ch "-")%N || (c =? ch "+")%N) eqn:Hc;
        injection H as <- <-; [|constructor].
      constructor; [|constructor]. unfold number_char.
      apply orb_true_iff in Hc. destruct Hc as [-> | ->];
        rewrite ?orb_true_r; reflexivity. }
    destruct (match r with
              | c :: r'' =>
                  if (c =? ch "-")%N || (c =? ch "+")%N then ([c], r'') else ([], r)
              | [] => ([], r)
              end) as [sg r'] eqn:Esg.
    specialize (Hsg sg r' eq_refl).
    pose proof (span_digits_fst_digits r') as Hds.
    destruct (span_digits r') as [[|d ds] r'']; [constructor|]. cbn [fst] in *.
    constructor.
    - unfold number_char. apply orb_true_iff in He. destruct He as [-> | ->];
        rewrite ?orb_true_r; reflexivity.
    - apply Forall_app. split; assumption. }
  destruct (scan_exponent s3) as [exp s4]. cbn [fst] in Hexp.
  intros H. injection H as <- _ _.
  repeat (apply Forall_app; split); assumption.
Qed.

Lemma Forall_join {Q : N -> Prop} (sep : text) (chunks : list text) :
  Forall Q sep -> Forall (Forall Q) chunks -> Forall Q (join sep chunks).
Proof.
  intros Hsep. induction 1 as [|t chunks Ht Hrest IH]; [constructor|].
  destruct chunks as [|t2 chunks]; [exact Ht|].
  change (Forall Q (t ++ sep ++ join sep (t2 :: chunks))).
  repeat (apply Forall_app; split); assumption.
Qed.

Section Characters.

Variable py : builtins.
Variable Q : N -> Prop.
Variable ok : text -> bool.

Hypothesis Q_structure :
  Forall Q [QUOTE; ch "["; ch "]"; ch "{"; ch "}"; ch ","; ch ":"].
Hypothesis Q_names : Forall Q (u "nulltruefalse").
Hypothesis Q_number : forall c, number_char c = true -> Q c.
Hypothesis Q_escape : forall s, ok s = true -> Forall Q (flat_map escape_char s).

Lemma Q_literal (s : text) :
  ok s = true -> Forall Q (encode_basestring_ascii s).
Proof.
  intros Hs. unfold encode_basestring_ascii.
  constructor; [now inversion Q_structure|].
  apply Forall_app. split; [now apply Q_escape|].
  constructor; [now inversion Q_structure|constructor].
Qed.

Lemma Q_brackets (a b : N) (chunks : list text) :
  In a [ch "["; ch "{"] -> In b [ch "]"; ch "}"] ->
  Forall (Forall Q) chunks ->
  Forall Q (a :: join [ch ","] chunks ++ [b]).
Proof.
  intros Ha Hb Hc. rewrite Forall_forall in Q_structure.
  constructor.
  - apply Q_structure. simpl in *. tauto.
  - apply Forall_app. split.
    + apply Forall_join; [|assumption].
      constructor; [|constructor]. apply Q_structure. simpl. tauto.
    + constructor; [|constructor]. apply Q_structure. simpl in *. tauto.
Qed.

Lemma sequence_map_chars {A : Type} (f : A -> result text) (items : list A)
  (chunks : list text) :
  Forall (fun x => forall t, f x = Ok t -> Forall Q t) items ->
  sequence (map f items) = Ok chunks ->
  Forall (Forall Q) chunks.
Proof.
  intros H. revert chunks. induction H as [|x items Hx _ IH]; intros chunks Hs.
  - injection Hs as <-. constructor.
  - cbn [map sequence] in Hs. destruct (f x) as [t|e] eqn:Ex; [|discriminate].
    cbn [bind] in Hs.
    destruct (sequence (map f items)) as [ts|e]; [|discriminate].
    injection Hs as <-. constructor; [now apply Hx|now apply IH].
Qed.

(** The characters of the output of the encoder all satisfy [Q]. *)
Lemma dumps_chars (v : pyobj) :
  encodable py v = true -> texts_all ok py v = true ->
  forall t, json_dumps py v = Ok t -> Forall Q t.
Proof.
  induction v as [ | b | n | r | s | b | items IH | items IH | items IH | d | d ]
    using pyobj_induction; intros He Hok t Ht.
  - injection Ht as <-. inversion Q_names as [|? ? ? H1]; subst.
    inversion H1 as [|? ? ? H2]; subst. inversion H2 as [|? ? ? H3]; subst.
    inversion H3; subst. repeat constructor; assumption.
  - rewrite Forall_forall in Q_names.
    destruct b; injection Ht as <-; apply Forall_forall; intros c Hc;
      apply Q_names; vm_compute in Hc |- *; tauto.
  - injection Ht as <-. apply Forall_forall. intros c Hc. apply Q_number.
    pose proof (match_number_chars _ _ _ _ (match_number_int_repr n)) as H.
    rewrite Forall_forall in H. now apply H.
  - injection Ht as <-. cbn [encodable] in He.
    destruct (float_ok_inv py r He) as (Hm & _ & ->).
    apply Forall_forall. intros c Hc. apply Q_number.
    pose proof (match_number_chars _ _ _ _ Hm) as H.
    rewrite Forall_forall in H. now apply H.
  - injection Ht as <-. now apply Q_literal.
  - injection Ht as <-. now apply Q_literal.
  - cbn [json_dumps] in Ht. cbn [encodable texts_all] in He, Hok.
    destruct (sequence (map (json_dumps py) items)) as [chunks|e] eqn:Es;
      [|discriminate].
    injection Ht as <-. apply Q_brackets; [simpl; tauto|simpl; tauto|].
    eapply sequence_map_chars; [|exact Es].
    rewrite forallb_forall in He, Hok. rewrite Forall_forall in IH |- *.
    intros x Hx. apply IH; auto.
  - cbn [json_dumps] in Ht. cbn [encodable texts_all] in He, Hok.
    destruct (sequence (map (json_dumps py) items)) as [chunks|e] eqn:Es;
      [|discriminate].
    injection Ht as <-. apply Q_brackets; [simpl; tauto|simpl; tauto|].
    eapply sequence_map_chars; [|exact Es].
    rewrite forallb_forall in He, Hok. rewrite Forall_forall in IH |- *.
    intros x Hx. apply IH; auto.
  - cbn [json_dumps] in Ht. cbn [encodable texts_all] in He, Hok.
    match type of Ht with
    | context [sequence ?l] => destruct (sequence l) as [chunks|e] eqn:Es
    end; [|discriminate].
    injection Ht as <-. apply Q_brackets; [simpl; tauto|simpl; tauto|].
    eapply sequence_map_chars; [|exact Es].
    rewrite forallb_forall in He, Hok. rewrite Forall_forall in IH |- *.
    intros [k x] Hx t Ht. cbn [fst snd] in Ht.
    specialize (He _ Hx). specialize (Hok _ Hx). cbn [fst snd] in He, Hok.
    apply andb_true_iff in He, Hok. destruct He as [_ He]. destruct Hok as [Hk Hok].
    destruct (key_text k) as [kt|e]; [|discriminate]. cbn [bind] in Ht.
    destruct (json_dumps py x) as [vt|e] eqn:Ev; [|discriminate].
    injection Ht as <-.
    change (Forall Q (encode_basestring_ascii kt ++ ch ":" :: vt)).
    apply Forall_app. split; [now apply Q_literal|].
    constructor.
    + rewrite Forall_forall in Q_structure. apply Q_structure. simpl. tauto.
    + destruct (IH _ Hx) as [_ IHx]. cbn [snd] in IHx. now apply IHx.
  - injection Ht as <-. now apply Q_literal.
  - injection Ht as <-. now apply Q_literal.
Qed.

End Characters.

Lemma hex_digit_range (d : N) :
  (d < 16)%N -> (48 <= hex_digit d <= 57 \/ 97 <= hex_digit d <= 102)%N.
Proof.
  intros H. unfold hex_digit. destruct (N.ltb_spec d 10); lia.
Qed.

(** The characters that [escape_char] writes: ASCII, and a space only
    for a space. *)
Lemma escape_char_chars (c x : N) :
  In x (escape_char c) ->
  (x < 128)%N /\ (is_whitespace x = true -> c = 32%N).
Proof.
  assert (Hhex : forall d, (d < 16)%N ->
                   (hex_digit d < 128)%N /\ is_whitespace (hex_digit d) = false).
  { intros d Hd. destruct (hex_digit_range d Hd) as [H|H]; (split; [lia|]);
      unfold is_whitespace; rewrite !orb_false_iff, !N.eqb_neq; lia. }
  assert (Hu : forall n, In x (u_escape n) ->
                 (x < 128)%N /\ is_whitespace x = false).
  { intros n Hin. unfold u_escape in Hin. cbn [In] in Hin.
    destruct Hin as [<-|[<-|[<-|[<-|[<-|[<-|[]]]]]]];
      try (split; reflexivity); apply Hhex; apply N.mod_lt; discriminate. }
  unfold escape_char.
  repeat match goal with
         | |- context [if (c =? ?k)%N then _ else _] =>
             destruct (N.eqb_spec c k) as [->|?];
             [cbn [In]; intros [<-|[<-|[]]]; split; (reflexivity || discriminate)|]
         end.
  destruct ((32 <=? c)%N && (c <=? 126)%N) eqn:Hp.
  - apply andb_true_iff in Hp. destruct Hp as [Hlo Hhi].
    apply N.leb_le in Hlo, Hhi. cbn [In]. intros [<-|[]]. split; [lia|].
    unfold is_whitespace. rewrite !orb_true_iff, !N.eqb_eq. lia.
  - destruct (c <? 65536)%N.
    + intros Hin. destruct (Hu _ Hin) as [H1 H2]. split; [assumption|].
      rewrite H2. discriminate.
    + cbv zeta. intros Hin. apply in_app_or in Hin.
      destruct Hin as [Hin|Hin]; destruct (Hu _ Hin) as [H1 H2];
        (split; [assumption|rewrite H2; discriminate]).
Qed.

Lemma number_char_facts (c : N) :
  number_char c = true -> (c < 128)%N /\ is_whitespace c = false.
Proof.
  unfold number_char. rewrite !orb_true_iff, !N.eqb_eq, is_digit_range.
  intros H.
  repeat match type of H with
         | _ \/ _ => destruct H as [H|H]
         end; try (subst c; split; reflexivity).
  split; [lia|]. unfold is_whitespace. rewrite !orb_false_iff, !N.eqb_neq. lia.
Qed.

(** The output of the encoder is ASCII. *)
Lemma dumps_ascii (py : builtins) (v : pyobj) (t : text) :
  encodable py v = true -> json_dumps py v = Ok t ->
  Forall (fun c => (c < 128)%N) t.
Proof.
  intros He Ht.
  apply (dumps_chars py (fun c => (c < 128)%N) (fun _ => true)) with (v := v);
    try assumption.
  - repeat constructor.
  - repeat constructor.
  - intros c Hc. now apply number_char_facts.
  - intros s _. apply Forall_forall. intros x Hx. apply in_flat_map in Hx.
    destruct Hx as (c & _ & Hx). now apply (escape_char_chars c x).
  - clear. induction v as [ | | | | | | items IH | items IH | items IH | | ]
      using pyobj_induction; try reflexivity; cbn [texts_all].
    + apply forallb_forall. rewrite Forall_forall in IH. assumption.
    + apply forallb_forall. rewrite Forall_forall in IH. assumption.
    + apply forallb_forall. rewrite Forall_forall in IH. intros kv Hkv.
      destruct (IH kv Hkv) as [_ ->]. destruct (key_text (fst kv)); reflexivity.
Qed.

(** Without a space in the texts of the value, the output holds no
    whitespace at all: the encoder puts none between the tokens. *)
Lemma dumps_no_whitespace (py : builtins) (v : pyobj) (t : text) :
  encodable py v = true -> spaceless py v = true -> json_dumps py v = Ok t ->
  Forall (fun c => is_whitespace c = false) t.
Proof.
  intros He Hs Ht.
  apply (dumps_chars py (fun c => is_whitespace c = false) no_space) with (v := v);
    try assumption.
  - repeat constructor.
  - repeat constructor.
  - intros c Hc. now apply number_char_facts.
  - intros s Hns. apply Forall_forall. intros x Hx. apply in_flat_map in Hx.
    destruct Hx as (c & Hc & Hx).
    destruct (is_whitespace x) eqn:Hw; [|reflexivity].
    destruct (escape_char_chars c x Hx) as [_ H]. specialize (H Hw). subst c.
    unfold no_space in Hns. apply negb_true_iff in Hns.
    assert (Hex : existsb (N.eqb 32) s = true).
    { apply existsb_exists. exists 32%N. split; [assumption|reflexivity]. }
    congruence.
Qed.

(** ** UTF-8 of ASCII text *)

Lemma to_N_byte_of_N (c : N) : (c < 256)%N -> Byte.to_N (byte_of_N c) = c.
Proof.
  intros H. unfold byte_of_N. destruct (Byte.of_N c) as [b|] eqn:E.
  - now apply Byte.to_of_N.
  - apply Byte.of_N_None_iff in E. lia.
Qed.

Lemma utf8_encode_ascii (t : text) :
  Forall (fun c => (c < 128)%N) t -> utf8_encode t = Ok (map byte_of_N t).
Proof.
  induction 1 as [|c t Hc _ IH]; [reflexivity|].
  cbn [utf8_encode map]. unfold is_surrogate.
  destruct (N.leb_spec 55296 c); [lia|]. cbn [andb orb].
  destruct (N.ltb_spec 1114111 c); [lia|].
  rewrite IH. cbn [bind]. destruct (N.ltb_spec c 128); [reflexivity|lia].
Qed.

Lemma utf8_decode_ascii (t : text) :
  Forall (fun c => (c < 128)%N) t -> utf8_decode strict (map byte_of_N t) = Ok t.
Proof.
  induction 1 as [|c t Hc _ IH]; [reflexivity|].
  cbn [utf8_decode map]. rewrite to_N_byte_of_N by lia.
  destruct (N.ltb_spec c 128); [|lia].
  unfold decoded. rewrite IH. reflexivity.
Qed.

(** ** JSON-native values *)

Lemma items_set_fresh (acc : list (pyobj * pyobj)) (k v : pyobj) :
  (forall kv, In kv acc -> key_eqb (fst kv) k = false) ->
  items_set acc k v = acc ++ [(k, v)].
Proof.
  induction acc as [|[k' v'] acc IH]; intros H; [reflexivity|].
  cbn [items_set app].
  pose proof (H (k', v') (or_introl eq_refl)) as Hk. cbn [fst] in Hk. rewrite Hk.
  rewrite IH; [reflexivity|]. intros kv Hin. apply H. now right.
Qed.

Lemma fold_items_set_distinct (l : list (pyobj * pyobj)) :
  forall acc : list (pyobj * pyobj),
    (forall kv kv', In kv acc -> In kv' l -> key_eqb (fst kv) (fst kv') = false) ->
    distinct_keys (map fst l) = true ->
    fold_left (fun acc kv => items_set acc (fst kv) (snd kv)) l acc = acc ++ l.
Proof.
  induction l as [|[k v] l IH]; intros acc Hacc Hd; cbn [fold_left].
  - now rewrite app_nil_r.
  - cbn [map distinct_keys fst snd] in *. apply andb_true_iff in Hd.
    destruct Hd as [Hk Hd]. apply negb_true_iff in Hk.
    rewrite items_set_fresh.
    + rewrite IH; [now rewrite <- app_assoc| |assumption].
      intros kv kv' Hin Hin'. apply in_app_or in Hin. destruct Hin as [Hin|[<-|[]]].
      * apply Hacc; [assumption|now right].
      * cbn [fst]. destruct (key_eqb k (fst kv')) eqn:E; [|reflexivity].
        assert (Hex : existsb (key_eqb k) (map fst l) = true).
        { apply existsb_exists. exists (fst kv'). split; [now apply in_map|assumption]. }
        congruence.
    + intros kv Hin. apply (Hacc kv (k, v) Hin). now left.
Qed.

Lemma dict_of_pairs_distinct (l : list (pyobj * pyobj)) :
  distinct_keys (map fst l) = true -> dict_of_pairs l = l.
Proof.
  intros Hd. unfold dict_of_pairs.
  rewrite fold_items_set_distinct; [reflexivity| |assumption].
  intros kv kv' [].
Qed.

Lemma map_id_in {A : Type} (f : A -> A) (l : list A) :
  (forall x, In x l -> f x = x) -> map f l = l.
Proof.
  intros H. rewrite <- (map_id l) at 2. now apply map_ext_in.
Qed.

Lemma json_image_native (py : builtins) (v : pyobj) :
  json_native v = true -> json_image py v = v.
Proof.
  induction v as [ | | | | | | items IH | items IH | items IH | | ]
    using pyobj_induction; intros Hn; try reflexivity; try discriminate.
  - cbn [json_native json_image] in *. f_equal. apply map_id_in.
    rewrite forallb_forall in Hn. rewrite Forall_forall in IH. auto.
  - cbn [json_native json_image] in *. apply andb_true_iff in Hn.
    destruct Hn as [Hall Hd]. f_equal.
    rewrite map_id_in; [now apply dict_of_pairs_distinct|].
    rewrite forallb_forall in Hall. rewrite Forall_forall in IH.
    intros [k x] Hin. specialize (Hall _ Hin). destruct (IH _ Hin) as [_ IHx].
    cbn [fst snd] in *. apply andb_true_iff in Hall. destruct Hall as [Hk Hx].
    destruct k; try discriminate. cbn [key_text]. now rewrite IHx.
Qed.

Lemma sanitize_native (v : pyobj) : json_native v = true -> _sanitize v = v.
Proof.
  induction v as [ | | | | | | items IH | items IH | items IH | | ]
    using pyobj_induction; intros Hn; try reflexivity; try discriminate.
  - cbn [json_native _sanitize] in *. f_equal. apply map_id_in.
    rewrite forallb_forall in Hn. rewrite Forall_forall in IH. auto.
  - cbn [json_native _sanitize] in *. apply andb_true_iff in Hn.
    destruct Hn as [Hall Hd]. f_equal.
    rewrite map_id_in; [now apply dict_of_pairs_distinct|].
    rewrite forallb_forall in Hall. rewrite Forall_forall in IH.
    intros [k x] Hin. specialize (Hall _ Hin). destruct (IH _ Hin) as [_ IHx].
    cbn [fst snd] in *. apply andb_true_iff in Hall. destruct Hall as [Hk Hx].
    destruct k; try discriminate. cbn [_sanitize]. now rewrite IHx.
Qed.

(** ** Decoding with replacement never raises *)

Lemma utf8_decode_replace_total (b : bytes) :
  exists t, utf8_decode replace b = Ok t.
Proof.
  assert (H : forall (n : nat) (l : bytes),
             (length l <= n)%nat -> exists t, utf8_decode replace l = Ok t).
  { induction n as [|n IH]; intros l Hl.
    - destruct l; [exists []; reflexivity|inversion Hl].
    - destruct l as [|b0 t0]; [exists []; reflexivity|].
      cbn [length] in Hl.
      assert (IH0 : exists t, utf8_decode replace t0 = Ok t) by (apply IH; lia).
      assert (IH1 : forall b1 t1, t0 = b1 :: t1 ->
                exists t, utf8_decode replace t1 = Ok t).
      { intros b1 t1 ->. apply IH. cbn [length] in Hl. lia. }
      assert (IH2 : forall b1 b2 t2, t0 = b1 :: b2 :: t2 ->
                exists t, utf8_decode replace t2 = Ok t).
      { intros b1 b2 t2 ->. apply IH. cbn [length] in Hl. lia. }
      assert (IH3 : forall b1 b2 b3 t3, t0 = b1 :: b2 :: b3 :: t3 ->
                exists t, utf8_decode replace t3 = Ok t).
      { intros b1 b2 b3 t3 ->. apply IH. cbn [length] in Hl. lia. }
      destruct IH0 as [r0 E0]. cbn [utf8_decode]. unfold undecodable, decoded.
      destruct (Byte.to_N b0 <? 128)%N; [rewrite E0; eexists; reflexivity|].
      destruct (Byte.to_N b0 <? 194)%N; [rewrite E0; eexists; reflexivity|].
      destruct (Byte.to_N b0 <? 245)%N; [|rewrite E0; eexists; reflexivity].
      destruct t0 as [|b1 t1]; [eexists; reflexivity|].
      destruct (IH1 b1 t1 eq_refl) as [r1 E1].
      destruct (negb (second_byte_ok (Byte.to_N b0) (Byte.to_N b1)));
        [rewrite E0; eexists; reflexivity|].
      destruct (Byte.to_N b0 <? 224)%N; [rewrite E1; eexists; reflexivity|].
      destruct t1 as [|b2 t2]; [eexists; reflexivity|].
      destruct (IH2 b1 b2 t2 eq_refl) as [r2 E2].
      destruct (negb (is_continuation (Byte.to_N b2)));
        [rewrite E1; eexists; reflexivity|].
      destruct (Byte.to_N b0 <? 240)%N; [rewrite E2; eexists; reflexivity|].
      destruct t2 as [|b3 t3]; [eexists; reflexivity|].
      destruct (IH3 b1 b2 b3 t3 eq_refl) as [r3 E3].
      destruct (negb (is_continuation (Byte.to_N b3)));
        [rewrite E2; eexists; reflexivity|].
      rewrite E3. eexists. reflexivity. }
  apply (H (length b)). apply le_n.
Qed.

(** The sanitizer turns a byte string into a text. *)
Lemma sanitize_bytes (b : bytes) : exists t, _sanitize (PyBytes b) = PyStr t.
Proof.
  destruct (utf8_decode_replace_total b) as [t E]. exists t.
  cbn [_sanitize]. now rewrite E.
Qed.

(** ** The encoder puts no whitespace between the tokens *)

Lemma unspaced_nil : unspaced [].
Proof. intros rest. reflexivity. Qed.

Lemma unspaced_app (a b : text) : unspaced a -> unspaced b -> unspaced (a ++ b).
Proof. intros Ha Hb rest. rewrite <- app_assoc, Ha, Hb. reflexivity. Qed.

Lemma unspaced_char (c : N) :
  is_whitespace c = false -> c <> QUOTE -> unspaced [c].
Proof.
  intros Hw Hq rest. cbn [app no_space_between_tokens]. rewrite Hw.
  apply N.eqb_neq in Hq. rewrite Hq. reflexivity.
Qed.

Lemma unspaced_cons (c : N) (t : text) :
  is_whitespace c = false -> c <> QUOTE -> unspaced t -> unspaced (c :: t).
Proof.
  intros Hw Hq Ht. change (c :: t) with ([c] ++ t).
  apply unspaced_app; [now apply unspaced_char|exact Ht].
Qed.

Lemma unspaced_plain (t : text) :
  Forall (fun c => is_whitespace c = false /\ c <> QUOTE) t -> unspaced t.
Proof.
  induction 1 as [|c t [Hw Hq] _ IH]; [apply unspaced_nil|].
  now apply unspaced_cons.
Qed.

Lemma unspaced_join (chunks : list text) :
  Forall unspaced chunks -> unspaced (join [ch ","] chunks).
Proof.
  induction 1 as [|t chunks Ht Hrest IH]; [apply unspaced_nil|].
  destruct chunks as [|t2 chunks]; [exact Ht|].
  change (unspaced (t ++ [ch ","] ++ join [ch ","] (t2 :: chunks))).
  apply unspaced_app; [exact Ht|].
  apply unspaced_app; [|exact IH].
  apply unspaced_char; [reflexivity|discriminate].
Qed.

(** Inside a literal, the scan passes over a character that is neither
    a backslash nor a quotation mark. *)
Lemma in_string_char (c : N) (rest : text) :
  c <> BACKSLASH -> c <> QUOTE ->
  no_space_between_tokens true (c :: rest) = no_space_between_tokens true rest.
Proof.
  intros Hb Hq. cbn [no_space_between_tokens].
  apply N.eqb_neq in Hb, Hq. rewrite Hb, Hq. reflexivity.
Qed.

Lemma in_string_backslash (e : N) (rest : text) :
  no_space_between_tokens true (BACKSLASH :: e :: rest)
  = no_space_between_tokens true rest.
Proof. reflexivity. Qed.

Lemma in_string_u_escape (n : N) (rest : text) :
  no_space_between_tokens true (u_escape n ++ rest)
  = no_space_between_tokens true rest.
Proof.
  assert (Hhex : forall d, (d < 16)%N ->
                   hex_digit d <> BACKSLASH /\ hex_digit d <> QUOTE).
  { intros d Hd. unfold BACKSLASH, QUOTE.
    destruct (hex_digit_range d Hd); split; lia. }
  unfold u_escape. cbn [app]. rewrite in_string_backslash.
  repeat (rewrite in_string_char;
          [|apply Hhex; apply N.mod_lt; discriminate
           |apply Hhex; apply N.mod_lt; discriminate]).
  reflexivity.
Qed.

(** Inside a literal, the scan passes over what [escape_char] writes
    for a character. *)
Lemma in_string_escape_char (c : N) (rest : text) :
  no_space_between_tokens true (escape_char c ++ rest)
  = no_space_between_tokens true rest.
Proof.
  unfold escape_char.
  destruct (N.eqb_spec c QUOTE) as [E1|E1]; [reflexivity|].
  destruct (N.eqb_spec c BACKSLASH) as [E2|E2]; [reflexivity|].
  destruct (c =? 10)%N; [reflexivity|].
  destruct (c =? 13)%N; [reflexivity|].
  destruct (c =? 9)%N; [reflexivity|].
  destruct (c =? 12)%N; [reflexivity|].
  destruct (c =? 8)%N; [reflexivity|].
  destruct ((32 <=? c)%N && (c <=? 126)%N).
  - cbn [app]. now apply in_string_char.
  - destruct (c <? 65536)%N; [apply in_string_u_escape|].
    cbv zeta. rewrite <- app_assoc. now rewrite !in_string_u_escape.
Qed.

Lemma in_string_escaped (s : text) (rest : text) :
  no_space_between_tokens true (flat_map escape_char s ++ rest)
  = no_space_between_tokens true rest.
Proof.
  induction s as [|c s IH]; [reflexivity|].
  cbn [flat_map]. rewrite <- app_assoc, in_string_escape_char. exact IH.
Qed.

(** A string literal of the encoder, whatever its text holds. *)
Lemma unspaced_literal (s : text) : unspaced (encode_basestring_ascii s).
Proof.
  intros rest. unfold encode_basestring_ascii.
  change ((QUOTE :: flat_map escape_char s ++ [QUOTE]) ++ rest)
    with (QUOTE :: (flat_map escape_char s ++ [QUOTE]) ++ rest).
  rewrite <- app_assoc.
  change (no_space_between_tokens false
            (QUOTE :: flat_map escape_char s ++ [QUOTE] ++ rest))
    with (no_space_between_tokens true (flat_map escape_char s ++ [QUOTE] ++ rest)).
  rewrite in_string_escaped. reflexivity.
Qed.

Lemma number_char_plain (c : N) :
  number_char c = true -> is_whitespace c = false /\ c <> QUOTE.
Proof.
  intros H. destruct (number_char_facts c H) as [_ Hw]. split; [exact Hw|].
  intros ->. discriminate H.
Qed.

Lemma unspaced_brackets (a b : N) (chunks : list text) :
  In a [ch "["; ch "{"] -> In b [ch "]"; ch "}"] ->
  Forall unspaced chunks ->
  unspaced (a :: join [ch ","] chunks ++ [b]).
Proof.
  intros Ha Hb Hc.
  apply unspaced_cons.
  - cbn [In] in Ha. destruct Ha as [<-|[<-|[]]]; reflexivity.
  - cbn [In] in Ha. destruct Ha as [<-|[<-|[]]]; discriminate.
  - apply unspaced_app; [now apply unspaced_join|].
    cbn [In] in Hb.
    destruct Hb as [<-|[<-|[]]]; (apply unspaced_char; [reflexivity|discriminate]).
Qed.

Lemma sequence_map_unspaced {A : Type} (f : A -> result text) (items : list A)
  (chunks : list text) :
  Forall (fun x => forall t, f x = Ok t -> unspaced t) items ->
  sequence (map f items) = Ok chunks ->
  Forall unspaced chunks.
Proof.
  intros H. revert chunks. induction H as [|x items Hx _ IH]; intros chunks Hs.
  - injection Hs as <-. constructor.
  - cbn [map sequence] in Hs. destruct (f x) as [t|e] eqn:Ex; [|discriminate].
    cbn [bind] in Hs.
    destruct (sequence (map f items)) as [ts|e]; [|discriminate].
    injection Hs as <-. constructor; [now apply Hx|now apply IH].
Qed.

(** The output of the encoder holds no whitespace outside its string
    literals, whatever the texts of the value hold. *)
Lemma dumps_unspaced (py : builtins) (v : pyobj) :
  encodable py v = true ->
  forall t, json_dumps py v = Ok t -> unspaced t.
Proof.
  induction v as [ | b | n | r | s | b | items IH | items IH | items IH | d | d ]
    using pyobj_induction; intros He t Ht.
  - injection Ht as <-. apply unspaced_plain. repeat constructor; discriminate.
  - destruct b; injection Ht as <-; apply unspaced_plain;
      repeat constructor; discriminate.
  - injection Ht as <-. apply unspaced_plain.
    eapply Forall_impl; [|exact (match_number_chars _ _ _ _ (match_number_int_repr n))].
    intros c Hc. now apply number_char_plain.
  - injection Ht as <-. cbn [encodable] in He.
    destruct (float_ok_inv py r He) as (Hm & _ & ->).
    apply unspaced_plain.
    eapply Forall_impl; [|exact (match_number_chars _ _ _ _ Hm)].
    intros c Hc. now apply number_char_plain.
  - injection Ht as <-. apply unspaced_literal.
  - injection Ht as <-. apply unspaced_literal.
  - cbn [json_dumps] in Ht. cbn [encodable] in He.
    destruct (sequence (map (json_dumps py) items)) as [chunks|e] eqn:Es;
      [|discriminate].
    injection Ht as <-. apply unspaced_brackets; [simpl; tauto|simpl; tauto|].
    eapply sequence_map_unspaced; [|exact Es].
    rewrite forallb_forall in He. rewrite Forall_forall in IH |- *.
    intros x Hx. apply IH; auto.
  - cbn [json_dumps] in Ht. cbn [encodable] in He.
    destruct (sequence (map (json_dumps py) items)) as [chunks|e] eqn:Es;
      [|discriminate].
    injection Ht as <-. apply unspaced_brackets; [simpl; tauto|simpl; tauto|].
    eapply sequence_map_unspaced; [|exact Es].
    rewrite forallb_forall in He. rewrite Forall_forall in IH |- *.
    intros x Hx. apply IH; auto.
  - cbn [json_dumps] in Ht. cbn [encodable] in He.
    match type of Ht with
    | context [sequence ?l] => destruct (sequence l) as [chunks|e] eqn:Es
    end; [|discriminate].
    injection Ht as <-. apply unspaced_brackets; [simpl; tauto|simpl; tauto|].
    eapply sequence_map_unspaced; [|exact Es].
    rewrite forallb_forall in He. rewrite Forall_forall in IH |- *.
    intros [k x] Hx t Ht. cbn [fst snd] in Ht.
    specialize (He _ Hx). cbn [fst snd] in He.
    apply andb_true_iff in He. destruct He as [_ He].
    destruct (key_text k) as [kt|e]; [|discriminate]. cbn [bind] in Ht.
    destruct (json_dumps py x) as [vt|e] eqn:Ev; [|discriminate].
    injection Ht as <-.
    change (unspaced (encode_basestring_ascii kt ++ [ch ":"] ++ vt)).
    apply unspaced_app; [apply unspaced_literal|].
    apply unspaced_app; [apply unspaced_char; [reflexivity|discriminate]|].
    destruct (IH _ Hx) as [_ IHx]. cbn [snd] in IHx. now apply IHx.
  - injection Ht as <-. apply unspaced_literal.
  - injection Ht as <-. apply unspaced_literal.
Qed.

Lemma dumps_no_space_between_tokens (py : builtins) (v : pyobj) (t : text) :
  encodable py v = true -> json_dumps py v = Ok t ->
  no_space_between_tokens false t = true.
Proof.
  intros He Ht. pose proof (dumps_unspaced py v He t Ht []) as H.
  rewrite app_nil_r in H. exact H.
Qed.

(** The code points of ASCII text that was encoded to bytes. *)
Lemma map_to_N_byte_of_N (t : text) :
  Forall (fun c => (c < 128)%N) t -> map Byte.to_N (map byte_of_N t) = t.
Proof.
  intros H. rewrite map_map. apply map_id_in. intros c Hc.
  rewrite Forall_forall in H. specialize (H c Hc).
  apply to_N_byte_of_N. lia.
Qed.

(** ** The serializer *)

Lemma loads_of_dumps (py : builtins) (v : pyobj) (t : text) :
  encodable py v = true -> json_dumps py v = Ok t ->
  json_loads py t = Some (Ok (json_image py v)).
Proof.
  intros He Ht. destruct (dumps_reads_back py v He) as (t' & Ht' & Hstart & Hscan).
  rewrite Ht in Ht'. injection Ht' as <-.
  destruct Hstart as (c & t' & -> & Hc).
  unfold json_loads. rewrite (skip_whitespace_value c t' Hc).
  pose proof (Hscan (S (length (c :: t'))) [] ltac:(lia) eq_refl) as H.
  rewrite app_nil_r in H. rewrite H. reflexivity.
Qed.



(** The scan refuses a text with whitespace between two tokens, as
    after the brace and after the colon here, and accepts the same
    text without it, with the space that belongs to the literal. *)
Example no_space_between_tokens_refuses :
  let literal (s : text) := QUOTE :: s ++ [QUOTE] in
  no_space_between_tokens false
    (u "{ " ++ literal (u "m") ++ u ": " ++ literal (u "disk full") ++ u "}")
  = false /\
  no_space_between_tokens false
    (u "{" ++ literal (u "m") ++ u ":" ++ literal (u "disk full") ++ u "}")
  = true.
Proof. split; reflexivity. Qed.


(** ** The TCP handler *)

(** C4, on the code.  [GELFTCPHandler.makePickle] reads the attribute
    [makePickle] of the built-in type [super], which has none: the
    method raises for every handler and every record, and returns no
    payload, with or without a null byte.  The constructor does
    disable compression. *)
Theorem tcp_makePickle_raises
  (host : text) (port chunk_size : Z) (debugging_fields extra_fields fqdn : bool)
  (localname facility : option text) (level_names tls : bool)
  (tls_server_name : option text) (record : LogRecord) :
  let self := GELFTCPHandler__init__ host port chunk_size debugging_fields
                extra_fields fqdn localname facility level_names tls
                tls_server_name in
  GELFTCPHandler_makePickle self record = Raise AttributeError /\
  compress (base self) = false.
Proof. split; reflexivity. Qed.

(** What the method was written for: the payload of the base class
    with one null byte after it. *)
Lemma base_makePickle_uncompressed (env : environment) (py : builtins)
  (self : GELFTCPHandler) (record : LogRecord) :
  compress (base self) = false ->
  BaseGELFHandler_makePickle env py (base self) record
  = _message_to_pickle py (document (_make_message_dict env (base self) record)).
Proof.
  intros Hc. unfold BaseGELFHandler_makePickle. rewrite Hc.
  destruct (_message_to_pickle _ _); reflexivity.
Qed.

(** * The model on concrete inputs *)

Example ceil_div_rounds_up :
  ceil_div 5 2 = Ok 3 /\ ceil_div 4 2 = Ok 2 /\ ceil_div 0 7 = Ok 0 /\
  ceil_div 1 (-5) = Ok 0 /\ ceil_div 7 (-2) = Ok (-3) /\
  ceil_div 5 0 = Raise ZeroDivisionError.
Proof. repeat split; reflexivity. Qed.

Example pack_B_one_byte :
  pack_B 0 = Ok [x00] /\ pack_B 255 = Ok [xff] /\
  pack_B 256 = Raise StructError /\ pack_B (-1) = Raise StructError.
Proof. repeat split; reflexivity. Qed.

Example pack_Q_native_order :
  pack_Q little 258 = Ok [x02; x01; x00; x00; x00; x00; x00; x00] /\
  pack_Q big 258 = Ok [x00; x00; x00; x00; x00; x00; x01; x02] /\
  pack_Q little (2 ^ 64 - 1) = Ok [xff; xff; xff; xff; xff; xff; xff; xff] /\
  pack_Q little (2 ^ 64) = Raise StructError.
Proof. repeat split; reflexivity. Qed.

Example py_slice_clips :
  py_slice [x61; x62; x63] 2 4 = [x63] /\
  py_slice [x61; x62; x63] 0 2 = [x61; x62] /\
  py_slice [x61; x62; x63] (-2) 3 = [x62; x63] /\
  py_slice [x61; x62; x63] 5 9 = [].
Proof. repeat split; reflexivity. Qed.

Example chunks_of_five_bytes :
  match ChunkedGELF.__init__ little 7 [x61; x62; x63; x64; x65] 2 with
  | Ok c => ChunkedGELF.to_list c
  | Raise _ => None
  end
  = Some ([ [x1e; x0f; x07; x00; x00; x00; x00; x00; x00; x00; x00; x03; x61; x62];
            [x1e; x0f; x07; x00; x00; x00; x00; x00; x00; x00; x01; x03; x63; x64];
            [x1e; x0f; x07; x00; x00; x00; x00; x00; x00; x00; x02; x03; x65] ],
          None).
Proof. reflexivity. Qed.

(** A negative chunk size larger than the payload: the count is 0, the
    range is empty, and nothing is sent. *)
Example negative_chunk_size_sends_nothing :
  GELFUDPHandler_send little 7 (example_udp_handler (-5)) [x61] [] = Some (Ok tt, []) /\
  GELFUDPHandler_send little 7 (example_udp_handler (-1)) [x61; x62] []
  = Some (Raise StructError, []) /\
  GELFUDPHandler_send little 7 (example_udp_handler 0) [x61] []
  = Some (Raise ZeroDivisionError, []).
Proof. repeat split; reflexivity. Qed.

Example document_keys_in_order :
  dict_keys (_make_message_dict example_env example_handler example_record)
  = map u [ "version"; "host"; "short_message"; "full_message"; "timestamp";
            "level"; "facility"; "file"; "line"; "_function"; "_pid";
            "_thread_name"; "_process_name"; "_user" ]%string.
Proof. vm_compute. reflexivity. Qed.

Example decode_replaces_invalid_bytes :
  utf8_decode replace [x61; xff; xe2; x82; xac; xed; xa0; x80; xc3]
  = Ok [97; 65533; 8364; 65533; 65533; 65533; 65533]%N /\
  utf8_decode strict [x61; xff] = Raise UnicodeDecodeError /\
  _sanitize (PyList [PyBytes [xc3; xa9]; PyTuple [PyBytes [x80]]])
  = PyList [PyStr [233%N]; PyTuple [PyStr [65533%N]]].
Proof. repeat split; reflexivity. Qed.

(** The quotes of the JSON text are shown as apostrophes. *)
Example dumps_escapes_and_separators :
  match json_dumps example_builtins
          (PyDict [ (PyStr (u "m"), PyStr [233; 128512; 10; 34; 92; 65; 32; 66]%N);
                    (PyInt 5, PyList [PyNone; PyBool false; PyInt (-12)]);
                    (PyStr (u "when"), PyDatetime (u "2018-11-03T10:00:00"));
                    (PyStr (u "who"), PyObject (u "<User 7>")) ])
  with
  | Ok t => Ok (map (fun c => if (c =? QUOTE)%N then ch "'" else c) t)
  | Raise e => Raise e
  end
  = Ok (u "{'m':'\u00e9\ud83d\ude00\n\'\\A B','5':[null,false,-12],'when':'2018-11-03T10:00:00','who':'<User 7>'}").
Proof. vm_compute. reflexivity. Qed.

Example loads_skips_whitespace :
  json_loads example_builtins (u " [1, 2.5e3 , {} , [ ] , -0, true ] ")
  = Some (Ok (PyList [PyInt 1; PyFloat (u "2.5e3"); PyDict []; PyList []; PyInt 0;
                      PyBool true])) /\
  json_loads example_builtins (u "[1,]") = Some (Raise JSONDecodeError) /\
  json_loads example_builtins (u "01") = Some (Raise JSONDecodeError).
Proof. repeat split; vm_compute; reflexivity. Qed.

(** A key written twice keeps its first place and its last value; the
    quotes of the input are written as apostrophes. *)
Example loads_last_value_wins :
  json_loads example_builtins
    (map (fun c => if (c =? ch "'")%N then QUOTE else c)
       (u "{'a':1,'b':'\ud83d\ude00\u00e9','a':[NaN,-Infinity]}"))
  = Some (Ok (PyDict [ (PyStr (u "a"),
                        PyList [PyFloat (u "nan"); PyFloat (u "-inf")]);
                       (PyStr (u "b"), PyStr [128512; 233]%N) ])).
Proof. vm_compute. reflexivity. Qed.

Example tcp_makePickle_on_example_record :
  GELFTCPHandler_makePickle
    (GELFTCPHandler__init__ (u "localhost") 12201 1420 true true false None None
       false false None)
    example_record
  = Raise AttributeError.
Proof. reflexivity. Qed.

(** ** Further properties of the chunker and of the UDP handler *)

Lemma len_py_slice_inside {A : Type} (l : list A) (i s : Z) :
  0 <= i <= len l -> 0 < s -> len (py_slice l i (i + s)) = Z.min s (len l - i).
Proof.
  intros Hi Hs. rewrite py_slice_inside by assumption.
  unfold len in *. rewrite length_firstn, length_skipn. lia.
Qed.

Lemma len_frame (c : ChunkedGELF.t) (k : Z) (chunk : bytes) :
  List.length (ChunkedGELF.id c) = 8%nat ->
  List.length (ChunkedGELF.pieces c) = 1%nat ->
  len (frame c k chunk) = 12 + len chunk.
Proof.
  intros Hid Hp. unfold frame, ChunkedGELF.magic, len.
  rewrite !length_app. cbn [List.length]. rewrite Hid, Hp. lia.
Qed.

Lemma remaining_lt (stop step : Z) (k : nat) :
  0 < step -> (k < remaining stop step 0)%nat -> Z.of_nat k * step < stop.
Proof.
  unfold remaining. intros Hs Hk.
  pose proof (Z.mul_div_le (stop - 0 + step - 1) step Hs).
  assert (Z.of_nat k + 1 <= (stop - 0 + step - 1) / step) by lia.
  nia.
Qed.

Lemma send_init_raises (native : byteorder) (r : Z) (self : GELFUDPHandler)
  (m : bytes) (net : wire) (e : exn) :
  chunk_size (udp_base self) <= len m ->
  ChunkedGELF.__init__ native r m (chunk_size (udp_base self)) = Raise e ->
  GELFUDPHandler_send native r self m net = Some (Raise e, net).
Proof.
  intros Hs Hinit. unfold GELFUDPHandler_send.
  destruct (Z.ltb_spec (len m) (chunk_size (udp_base self))); [lia|].
  now rewrite Hinit.
Qed.

Lemma send_below (native : byteorder) (r : Z) (self : GELFUDPHandler)
  (m : bytes) (net : wire) :
  len m < chunk_size (udp_base self) ->
  GELFUDPHandler_send native r self m net = Some (Ok tt, net ++ [m]).
Proof.
  intros Hs. unfold GELFUDPHandler_send.
  destruct (Z.ltb_spec (len m) (chunk_size (udp_base self))); [reflexivity|lia].
Qed.

Lemma len_chunk_list (native : byteorder) (r : Z) (m : bytes) (s n : Z)
  (c : ChunkedGELF.t) :
  ChunkedGELF.__init__ native r m s = Ok c -> 0 < s ->
  ceil_div (len m) s = Ok n -> len (chunk_list c) = n.
Proof.
  intros Hinit Hs Hn.
  destruct (init_inv _ _ _ _ _ Hinit) as (Hm & Hsz & _).
  unfold chunk_list. rewrite Hm, Hsz.
  destruct (Z.ltb_spec 0 s); [|lia].
  unfold len at 1. rewrite length_frames_from.
  apply remaining_ceil; [assumption | apply len_nonneg | assumption].
Qed.

(** The chunk of index [k] of a constructed chunker. *)
Lemma chunk_list_nth (native : byteorder) (r : Z) (m : bytes) (s : Z)
  (c : ChunkedGELF.t) (k : nat) (chunk : bytes) :
  ChunkedGELF.__init__ native r m s = Ok c ->
  nth_error (chunk_list c) k = Some chunk ->
  0 < s /\ Z.of_nat k * s < len m /\
  chunk = frame c (Z.of_nat k) (py_slice m (Z.of_nat k * s) (Z.of_nat k * s + s)) /\
  len chunk = 12 + Z.min s (len m - Z.of_nat k * s).
Proof.
  intros Hinit Hk.
  destruct (init_inv _ _ _ _ _ Hinit) as (Hm & Hsz & _).
  destruct (init_lengths _ _ _ _ _ Hinit) as [Hid Hp].
  apply nth_error_chunk_list in Hk. rewrite Hm, Hsz in Hk.
  destruct Hk as (Hpos & Hlt & ->).
  apply remaining_lt in Hlt; [|assumption].
  repeat split; try assumption.
  rewrite len_frame by assumption.
  rewrite len_py_slice_inside by lia. reflexivity.
Qed.

(** The [for] loop of [send] hands the chunks of the pass to the
    socket, up to the first one that the socket refuses. *)
Lemma send_chunks_over_drain {X : Type} (sendto : socket X) (fuel : nat) :
  forall (g : ChunkedGELF.generator) (net : wire) (chunks : list bytes),
    ChunkedGELF.drain fuel g = Some (chunks, None) ->
    send_chunks_over sendto fuel g net = Some (deliver sendto net chunks).
Proof.
  induction fuel as [|fuel IH]; intros g net chunks H; [discriminate|].
  cbn [ChunkedGELF.drain] in H. cbn [send_chunks_over].
  destruct (ChunkedGELF.next g) as [[ch| |x] g'].
  - destruct (ChunkedGELF.drain fuel g') as [[cs e']|] eqn:E; [|discriminate].
    injection H as <- ->. cbn [deliver].
    destruct (sendto net ch); [reflexivity|]. now apply IH.
  - injection H as <-. reflexivity.
  - discriminate.
Qed.

Lemma send_over_chunked {X : Type} (sendto : socket X) (native : byteorder) (r : Z)
  (self : GELFUDPHandler) (m : bytes) (net : wire) (c : ChunkedGELF.t) :
  chunk_size (udp_base self) <= len m ->
  ChunkedGELF.__init__ native r m (chunk_size (udp_base self)) = Ok c ->
  GELFUDPHandler_send_over sendto native r self m net
  = Some (deliver sendto net (chunk_list c)).
Proof.
  intros Hs Hinit. unfold GELFUDPHandler_send_over.
  destruct (Z.ltb_spec (len m) (chunk_size (udp_base self))); [lia|]. rewrite Hinit.
  pose proof (to_list_init _ _ _ _ _ Hinit) as Hl.
  unfold ChunkedGELF.to_list in Hl.
  destruct (init_inv _ _ _ _ _ Hinit) as (Hm & _). rewrite Hm in Hl.
  now apply send_chunks_over_drain.
Qed.

(** What [deliver] leaves on the wire: every datagram when the socket
    takes them all, and otherwise the datagrams before the first one
    that the socket refuses, with the exception of the socket. *)
Lemma deliver_inv {X : Type} (sendto : socket X) (datagrams : list bytes) :
  forall net : wire,
    (deliver sendto net datagrams = (Returns, net ++ datagrams) /\
     forall (k : nat) (d : bytes),
       nth_error datagrams k = Some d ->
       sendto (net ++ firstn k datagrams) d = None) \/
    (exists (k : nat) (d : bytes) (x : X),
       nth_error datagrams k = Some d /\
       sendto (net ++ firstn k datagrams) d = Some x /\
       deliver sendto net datagrams = (SocketRaises x, net ++ firstn k datagrams)).
Proof.
  induction datagrams as [|d rest IH]; intros net.
  - left. split; [now rewrite app_nil_r|]. intros [|k] d H; discriminate.
  - cbn [deliver]. destruct (sendto net d) as [x|] eqn:E.
    + right. exists 0%nat, d, x. cbn [firstn nth_error].
      rewrite app_nil_r. auto.
    + destruct (IH (net ++ [d])) as [[Hall Hk]|(k & d' & x & Hn & Hx & Hd)].
      * left. rewrite <- app_assoc in Hall. split; [exact Hall|].
        intros [|k] d' Hn.
        -- injection Hn as <-. cbn [firstn]. now rewrite app_nil_r.
        -- cbn [firstn nth_error] in *. specialize (Hk k d' Hn).
           now rewrite <- app_assoc in Hk.
      * right. exists (S k), d', x. cbn [firstn nth_error].
        rewrite <- app_assoc in Hx, Hd. auto.
Qed.

(** X1.  With a positive chunk size S and a payload of L bytes (L
    below 2^53, where the float quotient of the chunker has the exact
    ceiling), on any socket: when L is at most 255 * S, [send] hands
    datagrams to the socket in order, one for a payload shorter than S
    and ceil(L/S) otherwise, up to the first one that the socket
    refuses; it returns when the socket takes them all and lets the
    exception of the socket through otherwise, with the datagrams
    before the refused one sent; the chunker raises nothing.  When L
    is more than 255 * S, [send] raises [struct.error] and hands
    nothing to the socket, whatever the socket would answer. *)
Theorem send_hands_over_iff_fits
  (X : Type) (sendto : socket X)
  (native : byteorder) (r : Z) (self : GELFUDPHandler) (s : bytes) (net : wire) :
  0 <= r < 2 ^ 64 -> 0 < chunk_size (udp_base self) -> len s < 2 ^ 53 ->
  (len s <= 255 * chunk_size (udp_base self) ->
   exists datagrams : list bytes,
     len datagrams = (if len s <? chunk_size (udp_base self) then 1
                      else (len s + chunk_size (udp_base self) - 1)
                           / chunk_size (udp_base self)) /\
     GELFUDPHandler_send_over sendto native r self s net
     = Some (deliver sendto net datagrams) /\
     ((GELFUDPHandler_send_over sendto native r self s net
       = Some (Returns, net ++ datagrams) /\
       forall (k : nat) (d : bytes),
         nth_error datagrams k = Some d ->
         sendto (net ++ firstn k datagrams) d = None) \/
      (exists (k : nat) (d : bytes) (x : X),
         nth_error datagrams k = Some d /\
         sendto (net ++ firstn k datagrams) d = Some x /\
         GELFUDPHandler_send_over sendto native r self s net
         = Some (SocketRaises x, net ++ firstn k datagrams))) /\
     GELFUDPHandler_send native r self s net = Some (Ok tt, net ++ datagrams)) /\
  (255 * chunk_size (udp_base self) < len s ->
   GELFUDPHandler_send_over sendto native r self s net
   = Some (Raises StructError, net)).
Proof.
  set (size := chunk_size (udp_base self)). intros Hr Hsize _.
  pose proof (ceil_div_pos (len s) size Hsize) as Hc.
  pose proof (proj1 (ceil_div_spec (len s) size _ Hsize) Hc) as Hn.
  pose proof (len_nonneg s) as Hl.
  assert (Hover : forall datagrams,
            GELFUDPHandler_send_over sendto native r self s net
            = Some (deliver sendto net datagrams) ->
            (GELFUDPHandler_send_over sendto native r self s net
             = Some (Returns, net ++ datagrams) /\
             forall (k : nat) (d : bytes),
               nth_error datagrams k = Some d ->
               sendto (net ++ firstn k datagrams) d = None) \/
            (exists (k : nat) (d : bytes) (x : X),
               nth_error datagrams k = Some d /\
               sendto (net ++ firstn k datagrams) d = Some x /\
               GELFUDPHandler_send_over sendto native r self s net
               = Some (SocketRaises x, net ++ firstn k datagrams))).
  { intros datagrams ->.
    destruct (deliver_inv sendto datagrams net) as [[-> Hk]|(k & d & x & Hk & Hx & ->)].
    - left. auto.
    - right. exists k, d, x. auto. }
  split.
  - intros Hfit. destruct (Z.ltb_spec (len s) size) as [Hlt|Hge].
    + assert (Hsend : GELFUDPHandler_send_over sendto native r self s net
                      = Some (deliver sendto net [s])).
      { unfold GELFUDPHandler_send_over. fold size.
        destruct (Z.ltb_spec (len s) size); [|lia].
        cbn [deliver]. destruct (sendto net s); reflexivity. }
      exists [s]. split; [reflexivity|]. split; [exact Hsend|].
      split; [now apply Hover|now apply send_below].
    + destruct (init_ok native r s size _ Hc ltac:(nia) Hr) as (q & _ & Hinit).
      pose proof (send_over_chunked sendto _ _ _ _ net _ Hge Hinit) as Hsend.
      eexists. split; [eapply len_chunk_list; eassumption|].
      split; [exact Hsend|]. split; [now apply Hover|].
      now apply send_chunked.
  - intros Hbig. unfold GELFUDPHandler_send_over. fold size.
    destruct (Z.ltb_spec (len s) size); [lia|].
    erewrite init_too_many; [reflexivity|exact Hc|]. right. nia.
Qed.

Lemma send_hands_over_iff_fits_witness :
  (exists datagrams : list bytes,
     len datagrams = 3 /\
     GELFUDPHandler_send_over (example_socket 13 90) little 7 (example_udp_handler 2)
       [x61; x62; x63; x64; x65] []
     = Some (deliver (example_socket 13 90) [] datagrams) /\
     GELFUDPHandler_send little 7 (example_udp_handler 2) [x61; x62; x63; x64; x65] []
     = Some (Ok tt, [] ++ datagrams)) /\
  GELFUDPHandler_send_over (example_socket 13 90) little 7 (example_udp_handler 2)
    [x61; x62; x63; x64; x65] []
  = Some (SocketRaises 90, []) /\
  GELFUDPHandler_send_over (example_socket 14 90) little 7 (example_udp_handler 2)
    [x61; x62; x63; x64; x65] []
  = Some (Returns,
          [ [x1e; x0f; x07; x00; x00; x00; x00; x00; x00; x00; x00; x03; x61; x62];
            [x1e; x0f; x07; x00; x00; x00; x00; x00; x00; x00; x01; x03; x63; x64];
            [x1e; x0f; x07; x00; x00; x00; x00; x00; x00; x00; x02; x03; x65] ]) /\
  GELFUDPHandler_send_over (example_socket 14 90) little 7 (example_udp_handler 2)
    (repeat x61 511) []
  = Some (Raises StructError, []).
Proof.
  destruct (send_hands_over_iff_fits Z (example_socket 13 90) little 7
              (example_udp_handler 2) [x61; x62; x63; x64; x65] []
              ltac:(lia) ltac:(reflexivity) ltac:(reflexivity))
    as [Hfit _].
  destruct (send_hands_over_iff_fits Z (example_socket 14 90) little 7
              (example_udp_handler 2) (repeat x61 511) []
              ltac:(lia) ltac:(reflexivity) ltac:(reflexivity))
    as [_ Hbig].
  split; [|split; [|split]].
  - destruct (Hfit ltac:(vm_compute; discriminate))
      as (datagrams & Hlen & Hsend & _ & Hold).
    exists datagrams. split; [exact Hlen|]. split; [exact Hsend|exact Hold].
  - vm_compute. reflexivity.
  - vm_compute. reflexivity.
  - apply Hbig. reflexivity.
Defined.

(** X2.  Whatever [send] returns, it only appends datagrams to those
    sent before, and none of them is longer than the chunk size plus
    the 12 bytes of the chunk header.  When the payload is chunked, the
    datagram of index k holds the header and min(S, L - k * S) bytes
    of payload: every chunk but the last is full, and none is empty. *)
Theorem send_datagram_lengths
  (native : byteorder) (r : Z) (self : GELFUDPHandler) (s : bytes)
  (net net' : wire) (res : result unit) :
  GELFUDPHandler_send native r self s net = Some (res, net') ->
  exists sent : list bytes,
    net' = net ++ sent /\
    Forall (fun d => len d <= chunk_size (udp_base self) + 12) sent /\
    (chunk_size (udp_base self) <= len s ->
     forall (k : nat) (d : bytes),
       nth_error sent k = Some d ->
       len d = 12 + Z.min (chunk_size (udp_base self))
                      (len s - Z.of_nat k * chunk_size (udp_base self)) /\
       12 < len d).
Proof.
  set (size := chunk_size (udp_base self)). intros Hsend.
  destruct (Z.lt_ge_cases (len s) size) as [Hlt|Hge].
  - rewrite send_below in Hsend by assumption. injection Hsend as _ <-.
    exists [s]. split; [reflexivity|]. split; [|lia].
    constructor; [lia|constructor].
  - destruct (ChunkedGELF.__init__ native r s size) as [c|e] eqn:Hinit.
    + rewrite (send_chunked _ _ _ _ _ c Hge Hinit) in Hsend. injection Hsend as _ <-.
      exists (chunk_list c). split; [reflexivity|].
      assert (Hnth : forall (k : nat) (d : bytes),
                 nth_error (chunk_list c) k = Some d ->
                 len d = 12 + Z.min size (len s - Z.of_nat k * size) /\ 12 < len d).
      { intros k d Hk.
        destruct (chunk_list_nth _ _ _ _ _ _ _ Hinit Hk) as (Hpos & Hks & _ & Hlen).
        split; [assumption|lia]. }
      split; [|intros _; exact Hnth].
      apply Forall_forall. intros d Hin. apply In_nth_error in Hin.
      destruct Hin as [k Hk]. destruct (Hnth k d Hk). lia.
    + rewrite (send_init_raises _ _ _ _ _ e Hge Hinit) in Hsend. injection Hsend as _ <-.
      exists []. split; [now rewrite app_nil_r|]. split; [constructor|].
      intros _ [|k] d Hk; discriminate.
Qed.

Lemma send_datagram_lengths_witness :
  exists sent : list bytes,
    [[x61]; [x1e; x0f; x07; x00; x00; x00; x00; x00; x00; x00; x00; x02; x61; x62];
     [x1e; x0f; x07; x00; x00; x00; x00; x00; x00; x00; x01; x02; x63]]
    = [[x61]] ++ sent /\
    Forall (fun d => len d <= 2 + 12) sent /\
    (2 <= len [x61; x62; x63] ->
     forall (k : nat) (d : bytes),
       nth_error sent k = Some d ->
       len d = 12 + Z.min 2 (len [x61; x62; x63] - Z.of_nat k * 2) /\ 12 < len d).
Proof.
  apply (send_datagram_lengths little 7 (example_udp_handler 2) [x61; x62; x63]
           [[x61]] _ (Ok tt)).
  reflexivity.
Defined.

(** X3.  With a chunk size of zero or less no datagram is ever sent,
    for a chunk size that Python converts to a float, as it does
    every integer from -2^1023, and a payload of fewer than 2^53
    bytes, for which the float quotient of the chunker has the exact
    ceiling.  A chunk size of zero raises [ZeroDivisionError] for
    every payload; with a negative chunk size [send] returns without
    sending when the payload is shorter than the absolute value of the
    chunk size (the payload is dropped), and raises [struct.error]
    otherwise. *)
Theorem send_nonpositive_chunk_size
  (native : byteorder) (r : Z) (self : GELFUDPHandler) (s : bytes) (net : wire) :
  0 <= r < 2 ^ 64 -> - 2 ^ 1023 <= chunk_size (udp_base self) <= 0 ->
  len s < 2 ^ 53 ->
  GELFUDPHandler_send native r self s net
  = Some (if chunk_size (udp_base self) =? 0 then Raise ZeroDivisionError
          else if len s <? - chunk_size (udp_base self) then Ok tt
               else Raise StructError,
          net).
Proof.
  set (size := chunk_size (udp_base self)). intros Hr [_ Hsize] _.
  pose proof (len_nonneg s) as Hl.
  destruct (Z.eqb_spec size 0) as [H0|Hne].
  - apply send_init_raises; [fold size; lia|]. fold size. rewrite H0. reflexivity.
  - assert (Hc : ceil_div (len s) size = Ok (- (len s / - size))).
    { unfold ceil_div. destruct (Z.eqb_spec size 0); [contradiction|].
      do 2 f_equal. rewrite <- (Z.opp_involutive size) at 1.
      apply Z.div_opp_opp. lia. }
    destruct (Z.ltb_spec (len s) (- size)) as [Hlt|Hge].
    + rewrite Z.div_small in Hc by lia.
      destruct (init_ok native r s size _ Hc ltac:(lia) Hr) as (q & _ & Hinit).
      assert (Hge : size <= len s) by lia.
      rewrite (send_chunked _ _ _ _ _ _ Hge Hinit).
      unfold chunk_list. cbn [ChunkedGELF.size].
      destruct (Z.ltb_spec 0 size); [lia|]. now rewrite app_nil_r.
    + apply send_init_raises; [fold size; lia|].
      eapply init_too_many; [exact Hc|]. left.
      assert (1 <= len s / - size); [|lia].
      apply Z.div_le_lower_bound; lia.
Qed.

Lemma send_nonpositive_chunk_size_witness :
  GELFUDPHandler_send little 7 (example_udp_handler (-5)) [x61; x62; x63] [[x61]]
  = Some (Ok tt, [[x61]]) /\
  GELFUDPHandler_send little 7 (example_udp_handler (-2)) [x61; x62; x63] [[x61]]
  = Some (Raise StructError, [[x61]]) /\
  GELFUDPHandler_send little 7 (example_udp_handler 0) [x61; x62; x63] [[x61]]
  = Some (Raise ZeroDivisionError, [[x61]]).
Proof.
  split; [|split].
  - apply (send_nonpositive_chunk_size little 7 (example_udp_handler (-5))
             [x61; x62; x63] [[x61]]);
      [lia|vm_compute; split; discriminate|reflexivity].
  - apply (send_nonpositive_chunk_size little 7 (example_udp_handler (-2))
             [x61; x62; x63] [[x61]]);
      [lia|vm_compute; split; discriminate|reflexivity].
  - apply (send_nonpositive_chunk_size little 7 (example_udp_handler 0)
             [x61; x62; x63] [[x61]]);
      [lia|vm_compute; split; discriminate|reflexivity].
Defined.

Lemma pack_Q_range (native : byteorder) (r : Z) (q : bytes) :
  pack_Q native r = Ok q ->
  0 <= r < 2 ^ 64 /\
  q = match native with little => le_bytes 8 r | big => rev (le_bytes 8 r) end.
Proof.
  unfold pack_Q. destruct (Z.leb_spec 0 r), (Z.ltb_spec r (2 ^ 64));
    try discriminate.
  intros E. injection E as <-. split; [lia|reflexivity].
Qed.

Lemma to_N_byte_of_Z (n : Z) : Z.of_N (Byte.to_N (byte_of_Z n)) = n mod 256.
Proof.
  unfold byte_of_Z.
  pose proof (Z.mod_pos_bound n 256 ltac:(lia)) as Hb.
  destruct (Byte.of_N (Z.to_N (n mod 256))) as [b|] eqn:E.
  - apply Byte.to_of_N in E. rewrite E. lia.
  - apply Byte.of_N_None_iff in E. lia.
Qed.

Lemma le_value_le_bytes (k : nat) :
  forall n : Z, le_value (le_bytes k n) = n mod 256 ^ Z.of_nat k.
Proof.
  induction k as [|k IH]; intros n.
  - simpl. now rewrite Z.mod_1_r.
  - cbn [le_bytes le_value]. rewrite IH, to_N_byte_of_Z.
    rewrite Nat2Z.inj_succ, Z.pow_succ_r by lia.
    rewrite Z.rem_mul_r by lia. reflexivity.
Qed.

(** Two draws that give the same eight bytes are the same number. *)
Lemma pack_Q_injective (native : byteorder) (r1 r2 : Z) (q : bytes) :
  pack_Q native r1 = Ok q -> pack_Q native r2 = Ok q -> r1 = r2.
Proof.
  intros H1 H2.
  apply pack_Q_range in H1. apply pack_Q_range in H2.
  destruct H1 as [Hr1 E1], H2 as [Hr2 E2].
  assert (E : le_bytes 8 r1 = le_bytes 8 r2).
  { destruct native; [congruence|].
    rewrite <- (rev_involutive (le_bytes 8 r1)), <- (rev_involutive (le_bytes 8 r2)).
    congruence. }
  apply (f_equal le_value) in E. rewrite !le_value_le_bytes in E.
  change (256 ^ Z.of_nat 8) with (2 ^ 64) in E.
  rewrite !Z.mod_small in E by lia. exact E.
Qed.

(** X4.  For a payload of at least S and at most 255 * S bytes, the
    datagrams that [send] hands to the socket, after those sent before
    and in this order, carry the magic bytes, the eight bytes packed
    from the number drawn for this call, their index from 0 and their
    count; the payload slices behind the headers, concatenated in the
    order sent, are the payload handed to [send]. *)
Theorem send_chunks_reassemble
  (native : byteorder) (r : Z) (self : GELFUDPHandler) (s q : bytes) (net : wire) :
  pack_Q native r = Ok q ->
  0 < chunk_size (udp_base self) <= len s ->
  len s <= 255 * chunk_size (udp_base self) ->
  exists chunks : list bytes,
    GELFUDPHandler_send native r self s net = Some (Ok tt, net ++ chunks) /\
    concat (map chunk_payload chunks) = s /\
    forall (k : nat) (chunk : bytes),
      nth_error chunks k = Some chunk ->
      chunk_magic chunk = [x1e; x0f] /\
      chunk_id chunk = q /\
      chunk_sequence chunk = Some (byte_of_Z (Z.of_nat k)) /\
      chunk_total chunk = Some (byte_of_Z (len chunks)) /\
      Z.of_nat k < len chunks <= 255.
Proof.
  set (size := chunk_size (udp_base self)). intros Hq Hsize Hfit.
  destruct (pack_Q_range _ _ _ Hq) as [Hr _].
  pose proof (ceil_div_pos (len s) size ltac:(lia)) as Hc.
  pose proof (proj1 (ceil_div_spec (len s) size _ ltac:(lia)) Hc) as Hn.
  set (n := (len s + size - 1) / size) in *.
  destruct (init_ok native r s size n Hc ltac:(nia) Hr) as (q' & Hq' & Hinit).
  assert (q' = q) by congruence. subst q'.
  set (c := ChunkedGELF.mk s size [byte_of_Z n] q) in *.
  destruct (init_lengths _ _ _ _ _ Hinit) as [Hid Hp].
  pose proof (len_chunk_list _ _ _ _ _ _ Hinit ltac:(lia) Hc) as Hlen.
  exists (chunk_list c). split; [|split].
  - apply send_chunked; [fold size; lia|exact Hinit].
  - eapply chunk_list_payloads; [exact Hinit|lia].
  - intros k chunk Hk.
    assert (Hlt : (k < List.length (chunk_list c))%nat).
    { apply nth_error_Some. congruence. }
    destruct (chunk_list_nth _ _ _ _ _ _ _ Hinit Hk) as (_ & _ & -> & _).
    destruct (chunk_fields_frame c Hid Hp (Z.of_nat k)
                (py_slice s (Z.of_nat k * size) (Z.of_nat k * size + size)))
      as (Hmagic & Hcid & Hseq & Htot).
    rewrite Hlen. cbn [ChunkedGELF.pieces ChunkedGELF.id c map] in Htot, Hcid.
    injection Htot as Htot.
    repeat split; try assumption; unfold len in Hlen; nia.
Qed.

Lemma send_chunks_reassemble_witness :
  exists chunks : list bytes,
    GELFUDPHandler_send little 7 (example_udp_handler 2) [x61; x62; x63] [[x61]]
    = Some (Ok tt, [[x61]] ++ chunks) /\
    concat (map chunk_payload chunks) = [x61; x62; x63] /\
    forall (k : nat) (chunk : bytes),
      nth_error chunks k = Some chunk ->
      chunk_magic chunk = [x1e; x0f] /\
      chunk_id chunk = [x07; x00; x00; x00; x00; x00; x00; x00] /\
      chunk_sequence chunk = Some (byte_of_Z (Z.of_nat k)) /\
      chunk_total chunk = Some (byte_of_Z (len chunks)) /\
      Z.of_nat k < len chunks <= 255.
Proof.
  apply (send_chunks_reassemble little 7 (example_udp_handler 2) [x61; x62; x63]).
  - reflexivity.
  - vm_compute. split; [reflexivity|discriminate].
  - vm_compute. discriminate.
Defined.

(** X5.  The message id of a chunker is the number drawn by
    [random.randint], written in eight bytes in the native order: read
    back, the id is the number, two chunkers have the same id exactly
    when the same number was drawn, and no chunk of one carries the id
    of a chunk of the other when the numbers differ. *)
Theorem message_id_injective
  (native : byteorder) (r1 r2 : Z) (m1 m2 : bytes) (s1 s2 : Z)
  (c1 c2 : ChunkedGELF.t) :
  ChunkedGELF.__init__ native r1 m1 s1 = Ok c1 ->
  ChunkedGELF.__init__ native r2 m2 s2 = Ok c2 ->
  le_value (match native with
            | little => ChunkedGELF.id c1
            | big => rev (ChunkedGELF.id c1)
            end) = r1 /\
  (ChunkedGELF.id c1 = ChunkedGELF.id c2 <-> r1 = r2) /\
  (r1 <> r2 ->
   forall ch1 ch2 : bytes,
     In ch1 (chunk_list c1) -> In ch2 (chunk_list c2) ->
     chunk_id ch1 <> chunk_id ch2).
Proof.
  intros H1 H2.
  destruct (init_lengths _ _ _ _ _ H1) as [Hid1 Hp1].
  destruct (init_lengths _ _ _ _ _ H2) as [Hid2 Hp2].
  destruct (init_inv _ _ _ _ _ H1) as (_ & _ & Hq1 & _).
  destruct (init_inv _ _ _ _ _ H2) as (_ & _ & Hq2 & _).
  assert (Hiff : ChunkedGELF.id c1 = ChunkedGELF.id c2 <-> r1 = r2).
  { split.
    - intros E. rewrite <- E in Hq2. eapply pack_Q_injective; eassumption.
    - intros ->. congruence. }
  split; [|split; [exact Hiff|]].
  - destruct (pack_Q_range _ _ _ Hq1) as [Hr ->].
    assert (E : le_value (le_bytes 8 r1) = r1).
    { rewrite le_value_le_bytes. change (256 ^ Z.of_nat 8) with (2 ^ 64).
      apply Z.mod_small. lia. }
    destruct native; [exact E|]. now rewrite rev_involutive.
  - intros Hne ch1 ch2 Hin1 Hin2 E.
    apply chunk_list_frames in Hin1. destruct Hin1 as (k1 & p1 & ->).
    apply chunk_list_frames in Hin2. destruct Hin2 as (k2 & p2 & ->).
    destruct (chunk_fields_frame c1 Hid1 Hp1 k1 p1) as (_ & E1 & _).
    destruct (chunk_fields_frame c2 Hid2 Hp2 k2 p2) as (_ & E2 & _).
    apply Hne, Hiff. congruence.
Qed.

Lemma message_id_injective_witness :
  le_value [x07; x01; x00; x00; x00; x00; x00; x00] = 263 /\
  forall ch1 ch2 : bytes,
    In ch1 (chunk_list (ChunkedGELF.mk [x61; x62; x63] 2 [x02]
                          [x00; x00; x00; x00; x00; x00; x01; x07])) ->
    In ch2 (chunk_list (ChunkedGELF.mk [x61] 1 [x01]
                          [x00; x00; x00; x00; x00; x00; x00; x09])) ->
    chunk_id ch1 <> chunk_id ch2.
Proof.
  destruct (message_id_injective big 263 9 [x61; x62; x63] [x61] 2 1 _ _
              eq_refl eq_refl) as (Hv & _ & Hne).
  split; [exact Hv|]. apply Hne. discriminate.
Defined.

(** X6.  For a chunk size that Python converts to a float, as it does
    every integer of absolute value at most 2^1023: a chunker built on
    an empty message, with any such chunk size but zero, has a count
    of 0 and yields no chunk.  A chunker built on a message that is
    not empty and shorter than the chunk size has a count of 1 and
    yields one chunk: the header with index 0, and the whole
    message. *)
Theorem chunker_short_message
  (native : byteorder) (r : Z) (m q : bytes) (s : Z) :
  pack_Q native r = Ok q -> Z.abs s <= 2 ^ 1023 ->
  (len m = 0 -> s <> 0 ->
   ChunkedGELF.__init__ native r m s = Ok (ChunkedGELF.mk m s [x00] q) /\
   ChunkedGELF.to_list (ChunkedGELF.mk m s [x00] q) = Some ([], None)) /\
  (0 < len m < s ->
   ChunkedGELF.__init__ native r m s = Ok (ChunkedGELF.mk m s [x01] q) /\
   ChunkedGELF.to_list (ChunkedGELF.mk m s [x01] q)
   = Some ([[x1e; x0f] ++ q ++ [x00; x01] ++ m], None)).
Proof.
  intros Hq _. split.
  - intros Hlen Hs.
    assert (Hc : ceil_div (len m) s = Ok 0).
    { unfold ceil_div. destruct (Z.eqb_spec s 0); [contradiction|].
      rewrite Hlen. reflexivity. }
    assert (Hinit : ChunkedGELF.__init__ native r m s
                    = Ok (ChunkedGELF.mk m s [x00] q)).
    { unfold ChunkedGELF.__init__. rewrite Hc. simpl. rewrite Hq. reflexivity. }
    split; [exact Hinit|].
    rewrite (to_list_init _ _ _ _ _ Hinit). do 2 f_equal.
    unfold chunk_list. cbn [ChunkedGELF.size ChunkedGELF.message].
    destruct (Z.ltb_spec 0 s) as [Hpos|Hneg]; [|reflexivity].
    rewrite <- (Nat2Z.id (remaining _ _ _)).
    rewrite (remaining_ceil _ _ 0 Hpos (len_nonneg m) Hc). reflexivity.
  - intros Hlen.
    assert (Hc : ceil_div (len m) s = Ok 1).
    { apply ceil_div_spec; lia. }
    assert (Hinit : ChunkedGELF.__init__ native r m s
                    = Ok (ChunkedGELF.mk m s [x01] q)).
    { unfold ChunkedGELF.__init__. rewrite Hc. simpl. rewrite Hq. reflexivity. }
    split; [exact Hinit|].
    rewrite (to_list_init _ _ _ _ _ Hinit). do 2 f_equal.
    unfold chunk_list. cbn [ChunkedGELF.size ChunkedGELF.message].
    destruct (Z.ltb_spec 0 s) as [Hpos|Hneg]; [|lia].
    rewrite <- (Nat2Z.id (remaining _ _ _)).
    rewrite (remaining_ceil _ _ 1 Hpos (len_nonneg m) Hc).
    change (Z.to_nat 1) with 1%nat.
    cbn [frames_from ChunkedGELF.size ChunkedGELF.message].
    rewrite py_slice_inside by lia.
    change (Z.to_nat 0) with 0%nat. rewrite skipn_O.
    rewrite firstn_all2 by (unfold len in Hlen; lia).
    reflexivity.
Qed.

Lemma chunker_short_message_witness :
  ChunkedGELF.to_list
    (ChunkedGELF.mk [] 5 [x00] [x07; x00; x00; x00; x00; x00; x00; x00])
  = Some ([], None) /\
  ChunkedGELF.to_list
    (ChunkedGELF.mk [x61; x62] 5 [x01] [x07; x00; x00; x00; x00; x00; x00; x00])
  = Some ([[x1e; x0f; x07; x00; x00; x00; x00; x00; x00; x00; x00; x01; x61; x62]],
          None).
Proof.
  destruct (chunker_short_message little 7 [] _ 5 eq_refl
              ltac:(vm_compute; discriminate))
    as [Hempty _].
  destruct (chunker_short_message little 7 [x61; x62] _ 5 eq_refl
              ltac:(vm_compute; discriminate))
    as [_ Hshort].
  split.
  - apply Hempty; [reflexivity|discriminate].
  - apply Hshort. vm_compute. split; reflexivity.
Defined.

(** ** Further properties of the field extractor *)

(** The document before the extra fields are added: its keys and its
    values. *)
Lemma make_message_dict_base (env : environment) (self : BaseGELFHandler)
  (record : LogRecord) :
  exists fields : dict,
    _make_message_dict env self record
    = (if extra_fields self then _add_extra_fields fields record else fields) /\
    dict_keys fields = required_keys ++ optional_keys self record /\
    (dict_get fields (u "version") = Some (PyStr (u "1.0")) /\
     dict_get fields (u "host")
     = Some (PyStr (if fqdn self then socket_getfqdn env
                    else if truthy (localname self)
                         then match localname self with Some n => n | None => [] end
                         else socket_gethostname env)) /\
     dict_get fields (u "short_message")
     = Some (PyStr (match formatter self with
                    | Some format => format record
                    | None => getMessage record
                    end)) /\
     dict_get fields (u "full_message")
     = Some (PyStr (match formatter self with
                    | Some format => format record
                    | None => _get_full_message record
                    end)) /\
     dict_get fields (u "timestamp") = Some (created record) /\
     dict_get fields (u "level")
     = Some (PyInt (levels_get SYSLOG_LEVELS (levelno record) (levelno record))) /\
     dict_get fields (u "facility")
     = Some (PyStr (if truthy (facility self)
                    then match facility self with Some f => f | None => [] end
                    else name record))) /\
    (dict_get fields (u "level_name")
     = (if level_names self
        then Some (PyStr (logging_getLevelName env (levelno record)))
        else None) /\
     dict_get fields (u "file")
     = (if debugging_fields self then Some (pathname record) else None) /\
     dict_get fields (u "line")
     = (if debugging_fields self then Some (lineno record) else None)) /\
    (dict_get fields (u "_logger")
     = match facility self with
       | Some _ => Some (PyStr (name record))
       | None => None
       end /\
     dict_get fields (u "_function")
     = (if debugging_fields self then Some (funcName record) else None) /\
     dict_get fields (u "_pid")
     = (if debugging_fields self then Some (process record) else None) /\
     dict_get fields (u "_thread_name")
     = (if debugging_fields self then Some (threadName record) else None) /\
     dict_get fields (u "_process_name")
     = (if debugging_fields self
        then match processName record with
             | None | Some PyNone => None
             | Some pn => Some pn
             end
        else None)).
Proof.
  destruct self as [size dbg ext fq ln fac lvl cmp fmt].
  destruct record as [nm lv pa li fu cr pr th pn ei et gm attrs].
  destruct lvl, fac as [f|]; (destruct dbg; [destruct pn as [[]|]|]);
    unfold _make_message_dict, optional_keys;
    cbn [chunk_size debugging_fields extra_fields fqdn localname facility level_names
         compress formatter name levelno pathname lineno funcName created process
         threadName processName exc_info exc_text getMessage __dict__];
    cbv beta iota zeta;
    (eexists; split; [reflexivity|]);
    match goal with |- dict_keys ?T = _ /\ _ => set (d := T) end.
  all: repeat match goal with |- _ /\ _ => split end.
  all: subst d; vm_compute; reflexivity.
Qed.

Lemma source_host_eq (env : environment) (self : BaseGELFHandler) :
  (if fqdn self then socket_getfqdn env
   else if truthy (localname self)
        then match localname self with Some n => n | None => [] end
        else socket_gethostname env)
  = source_host env self.
Proof. unfold source_host. destruct (fqdn self), (localname self) as [[|c n]|]; reflexivity. Qed.

(** A field under a name without a leading underscore is what it was
    before the extra fields were added. *)
Lemma document_plain_field (env : environment) (self : BaseGELFHandler)
  (record : LogRecord) (fields : dict) (k : text) :
  _make_message_dict env self record
  = (if extra_fields self then _add_extra_fields fields record else fields) ->
  startswith_underscore k = false ->
  dict_get (_make_message_dict env self record) k = dict_get fields k.
Proof.
  intros -> Hk. destruct (extra_fields self); [|reflexivity].
  now apply extra_fields_plain_key.
Qed.

(** A field under ['_' + key] is what it was before the extra fields
    were added, unless the record has an attribute [key]. *)
Lemma document_underscored_field (env : environment) (self : BaseGELFHandler)
  (record : LogRecord) (fields : dict) (key : text) :
  _make_message_dict env self record
  = (if extra_fields self then _add_extra_fields fields record else fields) ->
  extra_fields self = false \/ ~ In key (map fst (__dict__ record)) ->
  dict_get (_make_message_dict env self record) (underscore key)
  = dict_get fields (underscore key).
Proof.
  intros -> Hcase. destruct (extra_fields self) eqn:He; [|reflexivity].
  destruct Hcase as [Hcase|Hcase]; [discriminate|].
  unfold _add_extra_fields. apply extra_loop_other.
  intros key' Hin _ Heq. unfold underscore in Heq. injection Heq as ->. contradiction.
Qed.

Lemma document_keys (env : environment) (self : BaseGELFHandler) (record : LogRecord) :
  exists added : list text,
    dict_keys (_make_message_dict env self record)
    = required_keys ++ optional_keys self record ++ added /\
    (extra_fields self = false -> added = []) /\
    forall k, In k added ->
      exists key, In key (map fst (__dict__ record)) /\ passes key = true /\
                  k = underscore key.
Proof.
  destruct (make_message_dict_base env self record) as (fields & -> & Hkeys & _).
  destruct (extra_fields self).
  - unfold _add_extra_fields.
    destruct (extra_loop_keys (__dict__ record) fields) as (added & -> & Hadded).
    exists added. rewrite Hkeys, <- app_assoc. split; [reflexivity|].
    split; [discriminate|exact Hadded].
  - exists []. rewrite Hkeys, app_nil_r. split; [reflexivity|].
    split; [reflexivity|]. intros k [].
Qed.

(** X7.  Every document starts with the seven keys of the dictionary
    literal, in the order of the literal; the version is "1.0", the
    timestamp is [record.created], the short message is the formatted
    record when the handler has a formatter and [record.getMessage()]
    otherwise, and the four other fields are present: no attribute of
    the record replaces or removes one of the seven. *)
Theorem required_fields_first
  (env : environment) (self : BaseGELFHandler) (record : LogRecord) :
  let doc := _make_message_dict env self record in
  firstn 7 (dict_keys doc)
  = map u [ "version"; "host"; "short_message"; "full_message"; "timestamp";
            "level"; "facility" ]%string /\
  dict_get doc (u "version") = Some (PyStr (u "1.0")) /\
  dict_get doc (u "timestamp") = Some (created record) /\
  dict_get doc (u "short_message")
  = Some (PyStr (match formatter self with
                 | Some format => format record
                 | None => getMessage record
                 end)) /\
  (exists host full_message level facility : pyobj,
     dict_get doc (u "host") = Some host /\
     dict_get doc (u "full_message") = Some full_message /\
     dict_get doc (u "level") = Some level /\
     dict_get doc (u "facility") = Some facility).
Proof.
  cbv zeta.
  destruct (document_keys env self record) as (added & Hkeys & _).
  destruct (make_message_dict_base env self record)
    as (fields & E & _ & (Hv & Hh & Hs & Hf & Ht & Hlevel & Hfac) & _).
  split; [|split; [|split; [|split]]].
  - rewrite Hkeys. reflexivity.
  - rewrite (document_plain_field _ _ _ _ _ E) by reflexivity. exact Hv.
  - rewrite (document_plain_field _ _ _ _ _ E) by reflexivity. exact Ht.
  - rewrite (document_plain_field _ _ _ _ _ E) by reflexivity. exact Hs.
  - do 4 eexists. split; [|split; [|split]].
    + rewrite (document_plain_field _ _ _ _ _ E) by reflexivity. exact Hh.
    + rewrite (document_plain_field _ _ _ _ _ E) by reflexivity. exact Hf.
    + rewrite (document_plain_field _ _ _ _ _ E) by reflexivity. exact Hlevel.
    + rewrite (document_plain_field _ _ _ _ _ E) by reflexivity. exact Hfac.
Qed.

(** X8.  The [host] field: the fully qualified domain name when
    [fqdn] is set, whatever [localname] is; otherwise [localname] when
    it is a text that is not empty; otherwise the host name, also for
    an empty [localname]. *)
Theorem host_precedence
  (env : environment) (self : BaseGELFHandler) (record : LogRecord) :
  let host := dict_get (_make_message_dict env self record) (u "host") in
  (fqdn self = true -> host = Some (PyStr (socket_getfqdn env))) /\
  (fqdn self = false ->
   forall (c : N) (n : text),
     localname self = Some (c :: n) -> host = Some (PyStr (c :: n))) /\
  (fqdn self = false -> localname self = None \/ localname self = Some [] ->
   host = Some (PyStr (socket_gethostname env))).
Proof.
  cbv zeta.
  destruct (make_message_dict_base env self record)
    as (fields & E & _ & (_ & Hh & _) & _).
  rewrite (document_plain_field _ _ _ _ _ E) by reflexivity.
  rewrite Hh, source_host_eq. unfold source_host.
  split; [|split].
  - intros ->. reflexivity.
  - intros -> c n ->. reflexivity.
  - intros -> [-> | ->]; reflexivity.
Qed.

Lemma host_precedence_witness :
  dict_get (_make_message_dict example_env example_handler example_record) (u "host")
  = Some (PyStr (u "log1")) /\
  dict_get (_make_message_dict example_env
              (BaseGELFHandler__init__ 1420 true true true (Some (u "db7")) None
                 false true)
              example_record) (u "host")
  = Some (PyStr (u "log1.example.org")) /\
  dict_get (_make_message_dict example_env
              (BaseGELFHandler__init__ 1420 true true false (Some (u "db7")) None
                 false true)
              example_record) (u "host")
  = Some (PyStr (u "db7")).
Proof.
  split; [|split].
  - apply (proj2 (proj2 (host_precedence example_env example_handler example_record)));
      [reflexivity|left; reflexivity].
  - apply (proj1 (host_precedence example_env
                    (BaseGELFHandler__init__ 1420 true true true (Some (u "db7")) None
                       false true)
                    example_record)).
    reflexivity.
  - apply (proj1 (proj2 (host_precedence example_env
                           (BaseGELFHandler__init__ 1420 true true false
                              (Some (u "db7")) None false true)
                           example_record)));
      reflexivity.
Defined.

(** X9.  The [full_message] field equals the [short_message] field
    when the handler has a formatter, and when the record has neither
    exception information nor exception text.  Without a formatter it
    is the lines of the formatted exception joined by newlines when
    the record has exception information, whatever its exception text
    is, and the exception text when there is no exception information
    and the text is not empty. *)
Theorem full_message_source
  (env : environment) (self : BaseGELFHandler) (record : LogRecord) :
  let doc := _make_message_dict env self record in
  (formatter self <> None
   \/ (exc_info record = None /\ truthy (exc_text record) = false) ->
   dict_get doc (u "full_message") = dict_get doc (u "short_message")) /\
  (formatter self = None ->
   forall lines : list text,
     exc_info record = Some lines ->
     dict_get doc (u "full_message") = Some (PyStr (join [10%N] lines))) /\
  (formatter self = None -> exc_info record = None ->
   forall (c : N) (t : text),
     exc_text record = Some (c :: t) ->
     dict_get doc (u "full_message") = Some (PyStr (c :: t))).
Proof.
  cbv zeta.
  destruct (make_message_dict_base env self record)
    as (fields & E & _ & (_ & _ & Hs & Hf & _) & _).
  rewrite !(document_plain_field _ _ _ _ _ E) by reflexivity.
  rewrite Hs, Hf. unfold _get_full_message.
  split; [|split].
  - intros [Hfmt | [Hi Ht]].
    + destruct (formatter self); [reflexivity|contradiction].
    + rewrite Hi, Ht. reflexivity.
  - intros -> lines ->. reflexivity.
  - intros -> -> c t ->. reflexivity.
Qed.

Lemma full_message_source_witness :
  dict_get (_make_message_dict example_env example_handler example_record)
    (u "full_message")
  = dict_get (_make_message_dict example_env example_handler example_record)
      (u "short_message").
Proof.
  apply (proj1 (full_message_source example_env example_handler example_record)).
  right. split; reflexivity.
Defined.

(** X10.  Every key of a document is one of the ten names without
    underscore that [_make_message_dict] spells out, one of its five
    names with a leading underscore, or '_' + key for an attribute of
    the record that is not in the skip list and has no leading
    underscore, and this only with extra fields enabled.  So every key
    beside the ten starts with an underscore, and no document has the
    key '_id'. *)
Theorem document_keys_classified
  (env : environment) (self : BaseGELFHandler) (record : LogRecord) (k : text) :
  In k (dict_keys (_make_message_dict env self record)) ->
  (In k (map u [ "version"; "host"; "short_message"; "full_message"; "timestamp";
                 "level"; "facility"; "level_name"; "file"; "line" ]%string)
   \/ In k (map u [ "_logger"; "_function"; "_pid"; "_thread_name";
                    "_process_name" ]%string)
   \/ (extra_fields self = true /\
       exists key : text,
         In key (map fst (__dict__ record)) /\ in_skip_list key = false /\
         startswith_underscore key = false /\ k = underscore key)) /\
  (In k (map u [ "version"; "host"; "short_message"; "full_message"; "timestamp";
                 "level"; "facility"; "level_name"; "file"; "line" ]%string)
   \/ startswith_underscore k = true) /\
  k <> u "_id".
Proof.
  intros Hin.
  destruct (document_keys env self record) as (added & Hkeys & Hoff & Hadded).
  rewrite Hkeys in Hin.
  assert (Hcases :
            In k (map u [ "version"; "host"; "short_message"; "full_message";
                          "timestamp"; "level"; "facility"; "level_name"; "file";
                          "line" ]%string)
            \/ In k (map u [ "_logger"; "_function"; "_pid"; "_thread_name";
                             "_process_name" ]%string)
            \/ In k added).
  { apply in_app_or in Hin. destruct Hin as [Hin|Hin].
    - left. unfold required_keys in Hin. cbn [map In] in *. tauto.
    - apply in_app_or in Hin. destruct Hin as [Hin|Hin]; [|tauto].
      unfold optional_keys in Hin.
      destruct (level_names self), (facility self), (debugging_fields self);
        try destruct (processName record) as [[]|];
        cbn [map In app] in *; tauto. }
  assert (Hextra : In k added ->
            extra_fields self = true /\
            exists key : text,
              In key (map fst (__dict__ record)) /\ in_skip_list key = false /\
              startswith_underscore key = false /\ k = underscore key).
  { intros Ha. split.
    - destruct (extra_fields self); [reflexivity|].
      rewrite Hoff in Ha by reflexivity. contradiction.
    - destruct (Hadded k Ha) as (key & Hkey & Hp & ->).
      apply passes_true_iff in Hp. exists key. tauto. }
  split; [|split].
  - destruct Hcases as [H|[H|H]]; auto.
  - destruct Hcases as [H|[H|H]]; [now left| |].
    + right. cbn [map In] in H.
      destruct H as [<-|[<-|[<-|[<-|[<-|[]]]]]]; reflexivity.
    + right. destruct (Hextra H) as (_ & key & _ & _ & _ & ->). reflexivity.
  - intros ->. destruct Hcases as [H|[H|H]].
    + vm_compute in H. repeat (destruct H as [H|H]; [discriminate H|]). exact H.
    + vm_compute in H. repeat (destruct H as [H|H]; [discriminate H|]). exact H.
    + destruct (Hextra H) as (_ & key & _ & Hskip & _ & Heq).
      change (u "_id") with (underscore (u "id")) in Heq.
      unfold underscore in Heq. injection Heq as <-. discriminate Hskip.
Qed.

Lemma document_keys_classified_witness :
  startswith_underscore (u "_user") = true /\ u "_user" <> u "_id".
Proof.
  destruct (document_keys_classified example_env example_handler example_record
              (u "_user")) as (_ & Hplain & Hid).
  - vm_compute. tauto.
  - split; [|exact Hid]. destruct Hplain as [H|H]; [|exact H].
    vm_compute in H. repeat (destruct H as [H|H]; [discriminate H|]). destruct H.
Defined.

(** X11.  The field [level_name] is in the document exactly when
    [level_names] is set, and then holds [logging.getLevelName] of the
    level of the record; the fields [file] and [line] are in the
    document exactly when [debugging_fields] is set, and then hold the
    path and the line of the record.  No attribute of the record
    changes this. *)
Theorem flag_fields
  (env : environment) (self : BaseGELFHandler) (record : LogRecord) :
  let doc := _make_message_dict env self record in
  dict_get doc (u "level_name")
  = (if level_names self
     then Some (PyStr (logging_getLevelName env (levelno record)))
     else None) /\
  dict_get doc (u "file")
  = (if debugging_fields self then Some (pathname record) else None) /\
  dict_get doc (u "line")
  = (if debugging_fields self then Some (lineno record) else None).
Proof.
  cbv zeta.
  destruct (make_message_dict_base env self record)
    as (fields & E & _ & _ & (Hn & Hf & Hl) & _).
  rewrite !(document_plain_field _ _ _ _ _ E) by reflexivity. auto.
Qed.

(** X12.  With [debugging_fields] set, the fields [_function], [_pid]
    and [_thread_name] hold the function name, the process id and the
    thread name of the record, and [_process_name] the process name
    unless that is missing or [None]; without [debugging_fields] the
    four are absent.  Each statement holds when extra fields are off
    or the record has no attribute named as the field without its
    underscore (such an attribute would take the field). *)
Theorem debugging_underscore_fields
  (env : environment) (self : BaseGELFHandler) (record : LogRecord) :
  let doc := _make_message_dict env self record in
  let free (key : text) :=
    extra_fields self = false \/ ~ In key (map fst (__dict__ record)) in
  (free (u "function") ->
   dict_get doc (u "_function")
   = if debugging_fields self then Some (funcName record) else None) /\
  (free (u "pid") ->
   dict_get doc (u "_pid")
   = if debugging_fields self then Some (process record) else None) /\
  (free (u "thread_name") ->
   dict_get doc (u "_thread_name")
   = if debugging_fields self then Some (threadName record) else None) /\
  (free (u "process_name") ->
   dict_get doc (u "_process_name")
   = if debugging_fields self
     then match processName record with
          | None | Some PyNone => None
          | Some pn => Some pn
          end
     else None).
Proof.
  cbv zeta.
  destruct (make_message_dict_base env self record)
    as (fields & E & _ & _ & _ & (_ & Hf & Hp & Ht & Hn)).
  repeat split; intros Hfree.
  - change (u "_function") with (underscore (u "function")).
    rewrite (document_underscored_field _ _ _ _ _ E Hfree). exact Hf.
  - change (u "_pid") with (underscore (u "pid")).
    rewrite (document_underscored_field _ _ _ _ _ E Hfree). exact Hp.
  - change (u "_thread_name") with (underscore (u "thread_name")).
    rewrite (document_underscored_field _ _ _ _ _ E Hfree). exact Ht.
  - change (u "_process_name") with (underscore (u "process_name")).
    rewrite (document_underscored_field _ _ _ _ _ E Hfree). exact Hn.
Qed.

Lemma debugging_underscore_fields_witness :
  dict_get (_make_message_dict example_env example_handler example_record)
    (u "_function") = Some (PyStr (u "connect")) /\
  dict_get (_make_message_dict example_env example_handler example_record)
    (u "_process_name") = Some (PyStr (u "MainProcess")).
Proof.
  destruct (debugging_underscore_fields example_env example_handler example_record)
    as (Hf & _ & _ & Hn).
  split.
  - apply Hf. right. intros H. vm_compute in H.
    repeat (destruct H as [H|H]; [discriminate H|]). exact H.
  - apply Hn. right. intros H. vm_compute in H.
    repeat (destruct H as [H|H]; [discriminate H|]). exact H.
Defined.

(** X13.  With a facility override that is not empty, the [facility]
    field is the override and the name of the record goes to
    [_logger]; with no override the [facility] field is the name of
    the record and there is no [_logger] field.  The statements on
    [_logger] hold when extra fields are off or the record has no
    attribute [logger]. *)
Theorem facility_override
  (env : environment) (self : BaseGELFHandler) (record : LogRecord) :
  let doc := _make_message_dict env self record in
  let free :=
    extra_fields self = false \/ ~ In (u "logger") (map fst (__dict__ record)) in
  (forall (c : N) (f : text),
     facility self = Some (c :: f) ->
     dict_get doc (u "facility") = Some (PyStr (c :: f)) /\
     (free -> dict_get doc (u "_logger") = Some (PyStr (name record)))) /\
  (facility self = None ->
   dict_get doc (u "facility") = Some (PyStr (name record)) /\
   (free -> dict_get doc (u "_logger") = None)).
Proof.
  cbv zeta.
  destruct (make_message_dict_base env self record)
    as (fields & E & _ & (_ & _ & _ & _ & _ & _ & Hfac) & _ & (Hlog & _)).
  rewrite (document_plain_field _ _ _ _ _ E) by reflexivity.
  change (u "_logger") with (underscore (u "logger")) in *.
  split.
  - intros c f Hf. rewrite Hf in Hfac, Hlog. split; [exact Hfac|].
    intros Hfree. rewrite (document_underscored_field _ _ _ _ _ E Hfree). exact Hlog.
  - intros Hf. rewrite Hf in Hfac, Hlog. split; [exact Hfac|].
    intros Hfree. rewrite (document_underscored_field _ _ _ _ _ E Hfree). exact Hlog.
Qed.

Lemma facility_override_witness :
  dict_get (_make_message_dict example_env
              (BaseGELFHandler__init__ 1420 true true false None (Some (u "billing"))
                 false true)
              example_record) (u "facility")
  = Some (PyStr (u "billing")) /\
  dict_get (_make_message_dict example_env
              (BaseGELFHandler__init__ 1420 true true false None (Some (u "billing"))
                 false true)
              example_record) (u "_logger")
  = Some (PyStr (u "app.db")) /\
  dict_get (_make_message_dict example_env example_handler example_record)
    (u "_logger") = None.
Proof.
  destruct (facility_override example_env
              (BaseGELFHandler__init__ 1420 true true false None (Some (u "billing"))
                 false true)
              example_record) as [Hsome _].
  destruct (facility_override example_env example_handler example_record)
    as [_ Hnone].
  assert (Hfree : ~ In (u "logger") (map fst (__dict__ example_record))).
  { intros H. vm_compute in H.
    repeat (destruct H as [H|H]; [discriminate H|]). exact H. }
  destruct (Hsome 98%N (u "illing") eq_refl) as [Hfac Hlog].
  split; [exact Hfac|]. split.
  - apply Hlog. right. exact Hfree.
  - apply (proj2 (Hnone eq_refl)). right. exact Hfree.
Defined.

(** The skip list has no entry for [stack_info], an attribute of every
    record since Python 3.2: with extra fields on, the loop copies it
    to [_stack_info]. *)
Example stack_info_is_not_skipped :
  passes (u "stack_info") = true /\
  dict_get (_add_extra_fields [] {| name := u "app"; levelno := 20;
                                    pathname := PyStr (u "a.py"); lineno := PyInt 3;
                                    funcName := PyStr (u "f"); created := PyInt 0;
                                    process := PyInt 1; threadName := PyStr (u "T");
                                    processName := None; exc_info := None;
                                    exc_text := None; getMessage := u "m";
                                    __dict__ := [ (u "msg", PyStr (u "m"));
                                                  (u "stack_info", PyNone) ] |})
    (u "_stack_info") = Some PyNone.
Proof. split; reflexivity. Qed.

(** ** Further properties of the serializer *)

Lemma printable_range (c : N) : printable c = true <-> (32 <= c <= 126)%N.
Proof. unfold printable. rewrite andb_true_iff, !N.leb_le. tauto. Qed.

Lemma hex_digit_printable (d : N) : (d < 16)%N -> printable (hex_digit d) = true.
Proof.
  intros H. apply printable_range. destruct (hex_digit_range d H); lia.
Qed.

(** The characters that [escape_char] writes are printable. *)
Lemma escape_char_printable (c x : N) :
  In x (escape_char c) -> printable x = true.
Proof.
  assert (Hu : forall n, In x (u_escape n) -> printable x = true).
  { intros n Hin. unfold u_escape in Hin. cbn [In] in Hin.
    destruct Hin as [<-|[<-|[<-|[<-|[<-|[<-|[]]]]]]];
      try reflexivity; apply hex_digit_printable; apply N.mod_lt; discriminate. }
  unfold escape_char.
  repeat match goal with
         | |- context [if (c =? ?k)%N then _ else _] =>
             destruct (N.eqb_spec c k) as [->|?];
             [cbn [In]; intros [<-|[<-|[]]]; reflexivity|]
         end.
  destruct ((32 <=? c)%N && (c <=? 126)%N) eqn:Hp.
  - cbn [In]. intros [<-|[]]. exact Hp.
  - destruct (c <? 65536)%N; [apply Hu|].
    cbv zeta. intros Hin. apply in_app_or in Hin. destruct Hin as [Hin|Hin];
      eapply Hu; eassumption.
Qed.

Lemma encode_basestring_printable (s : text) :
  Forall (fun c => printable c = true) (encode_basestring_ascii s).
Proof.
  unfold encode_basestring_ascii. constructor; [reflexivity|].
  apply Forall_app. split; [|repeat constructor].
  apply Forall_forall. intros x Hx. apply in_flat_map in Hx.
  destruct Hx as (c & _ & Hx). now apply (escape_char_printable c x).
Qed.

Lemma int_repr_printable (n : Z) : Forall (fun c => printable c = true) (int_repr n).
Proof.
  assert (Hd : forall d, Forall (fun c => printable c = true) (digits_of_uint d)).
  { intros d. eapply Forall_impl; [|apply digits_of_uint_digits].
    intros c Hc. apply is_digit_range in Hc. apply printable_range. lia. }
  destruct n as [|p|p]; cbn [int_repr].
  - repeat constructor.
  - apply Hd.
  - constructor; [reflexivity|apply Hd].
Qed.

Lemma floatstr_printable (r : text) :
  forallb printable r = true -> Forall (fun c => printable c = true) (floatstr r).
Proof.
  intros Hr. unfold floatstr.
  destruct (text_eqb r (u "nan")); [repeat constructor|].
  destruct (text_eqb r (u "inf")); [repeat constructor|].
  destruct (text_eqb r (u "-inf")); [repeat constructor|].
  apply Forall_forall. rewrite forallb_forall in Hr. exact Hr.
Qed.

(** The output of the encoder is printable ASCII, whatever characters
    the texts of the value hold. *)
Lemma dumps_printable (py : builtins) (v : pyobj) :
  floats_all (forallb printable) v = true ->
  forall t, json_dumps py v = Ok t -> Forall (fun c => printable c = true) t.
Proof.
  assert (Hstructure : Forall (fun c => printable c = true)
                         [QUOTE; ch "["; ch "]"; ch "{"; ch "}"; ch ","; ch ":"])
    by (repeat constructor).
  induction v as [ | b | n | r | s | b | items IH | items IH | items IH | d | d ]
    using pyobj_induction; intros Hf t Ht.
  - injection Ht as <-. repeat constructor.
  - destruct b; injection Ht as <-; repeat constructor.
  - injection Ht as <-. apply int_repr_printable.
  - injection Ht as <-. now apply floatstr_printable.
  - injection Ht as <-. apply encode_basestring_printable.
  - injection Ht as <-. apply encode_basestring_printable.
  - cbn [json_dumps] in Ht. cbn [floats_all] in Hf.
    destruct (sequence (map (json_dumps py) items)) as [chunks|e] eqn:Es;
      [|discriminate].
    injection Ht as <-.
    apply Q_brackets; [exact Hstructure|simpl; tauto|simpl; tauto|].
    eapply sequence_map_chars; [|exact Es].
    rewrite forallb_forall in Hf. rewrite Forall_forall in IH |- *.
    intros x Hx. apply IH; auto.
  - cbn [json_dumps] in Ht. cbn [floats_all] in Hf.
    destruct (sequence (map (json_dumps py) items)) as [chunks|e] eqn:Es;
      [|discriminate].
    injection Ht as <-.
    apply Q_brackets; [exact Hstructure|simpl; tauto|simpl; tauto|].
    eapply sequence_map_chars; [|exact Es].
    rewrite forallb_forall in Hf. rewrite Forall_forall in IH |- *.
    intros x Hx. apply IH; auto.
  - cbn [json_dumps] in Ht. cbn [floats_all] in Hf.
    match type of Ht with
    | context [sequence ?l] => destruct (sequence l) as [chunks|e] eqn:Es
    end; [|discriminate].
    injection Ht as <-.
    apply Q_brackets; [exact Hstructure|simpl; tauto|simpl; tauto|].
    eapply sequence_map_chars; [|exact Es].
    rewrite forallb_forall in Hf. rewrite Forall_forall in IH |- *.
    intros [k x] Hx t Ht. cbn [fst snd] in Ht.
    specialize (Hf _ Hx). cbn [fst snd] in Hf.
    apply andb_true_iff in Hf. destruct Hf as [_ Hf].
    destruct (key_text k) as [kt|e]; [|discriminate]. cbn [bind] in Ht.
    destruct (json_dumps py x) as [vt|e] eqn:Ev; [|discriminate].
    injection Ht as <-.
    change (Forall (fun c => printable c = true)
              (encode_basestring_ascii kt ++ ch ":" :: vt)).
    apply Forall_app. split; [apply encode_basestring_printable|].
    constructor; [reflexivity|].
    destruct (IH _ Hx) as [_ IHx]. cbn [snd] in IHx. now apply IHx.
  - injection Ht as <-. apply encode_basestring_printable.
  - injection Ht as <-. apply encode_basestring_printable.
Qed.

(** The results of a list of calls: all succeed where [p] holds of
    every item, and the first failure is a [TypeError] otherwise. *)
Lemma sequence_outcome {A B : Type} (f : A -> result B) (p : A -> bool)
  (items : list A) :
  Forall (fun x => match f x with
                   | Ok _ => p x = true
                   | Raise e => e = TypeError /\ p x = false
                   end) items ->
  match sequence (map f items) with
  | Ok _ => forallb p items = true
  | Raise e => e = TypeError /\ forallb p items = false
  end.
Proof.
  induction 1 as [|x items Hx _ IH]; [reflexivity|].
  cbn [map sequence forallb]. destruct (f x) as [a|e]; cbn [bind].
  - rewrite Hx. destruct (sequence (map f items)) as [ts|e]; cbn [bind andb];
      exact IH.
  - destruct Hx as [-> ->]. auto.
Qed.

(** The encoder fails on the keys that it does not accept, with a
    [TypeError], and on nothing else. *)
Lemma dumps_outcome (py : builtins) (v : pyobj) :
  match json_dumps py v with
  | Ok _ => keys_ok v = true
  | Raise e => e = TypeError /\ keys_ok v = false
  end.
Proof.
  induction v as [ | b | n | r | s | b | items IH | items IH | items IH | d | d ]
    using pyobj_induction; try reflexivity.
  - destruct b; reflexivity.
  - cbn [json_dumps keys_ok].
    pose proof (sequence_outcome (json_dumps py) keys_ok items IH) as H.
    destruct (sequence (map (json_dumps py) items)); exact H.
  - cbn [json_dumps keys_ok].
    pose proof (sequence_outcome (json_dumps py) keys_ok items IH) as H.
    destruct (sequence (map (json_dumps py) items)); exact H.
  - cbn [json_dumps keys_ok].
    match goal with
    | |- context [sequence (map ?f items)] =>
        pose proof (sequence_outcome f
                      (fun kv => match key_text (fst kv) with
                                 | Ok _ => true
                                 | Raise _ => false
                                 end && keys_ok (snd kv)) items) as H;
        destruct (sequence (map f items))
    end.
    + apply H. eapply Forall_impl; [|exact IH].
      intros [k x] [_ Hx]. cbn [fst snd] in *.
      destruct (key_text k) as [kt|e] eqn:Ek; cbn [bind andb].
      * destruct (json_dumps py x); exact Hx.
      * split; [|reflexivity]. destruct k; try discriminate Ek;
          try (injection Ek as <-; reflexivity).
        destruct b; discriminate.
    + apply H. eapply Forall_impl; [|exact IH].
      intros [k x] [_ Hx]. cbn [fst snd] in *.
      destruct (key_text k) as [kt|e'] eqn:Ek; cbn [bind andb].
      * destruct (json_dumps py x); exact Hx.
      * split; [|reflexivity]. destruct k; try discriminate Ek;
          try (injection Ek as <-; reflexivity).
        destruct b; discriminate.
Qed.

(** ** What [_sanitize] keeps of a dictionary *)

Lemma items_set_in (d : list (pyobj * pyobj)) (k0 v0 k v : pyobj) :
  In (k, v) (items_set d k0 v0) ->
  In (k, v) d \/ (v = v0 /\ (k = k0 \/ exists v', In (k, v') d)).
Proof.
  induction d as [|[k1 v1] d IH]; cbn [items_set].
  - intros [H|[]]. injection H as <- <-. right. auto.
  - destruct (key_eqb k1 k0).
    + intros [H|H].
      * injection H as <- <-. right. split; [reflexivity|]. right.
        exists v1. now left.
      * left. now right.
    + intros [H|H].
      * left. now left.
      * destruct (IH H) as [Hin|[-> [->|[v' Hv']]]].
        -- left. now right.
        -- right. auto.
        -- right. split; [reflexivity|]. right. exists v'. now right.
Qed.

Lemma fold_items_set_in (l : list (pyobj * pyobj)) :
  forall (acc : list (pyobj * pyobj)) (k v : pyobj),
    In (k, v) (fold_left (fun acc kv => items_set acc (fst kv) (snd kv)) l acc) ->
    (exists v', In (k, v') (acc ++ l)) /\ (exists k', In (k', v) (acc ++ l)).
Proof.
  induction l as [|[k0 v0] l IH]; intros acc k v H; cbn [fold_left] in H.
  - rewrite app_nil_r. eauto.
  - apply IH in H. cbn [fst snd] in H.
    destruct H as [[v' Hk] [k' Hv]]. split.
    + apply in_app_or in Hk. destruct Hk as [Hk|Hk].
      * apply items_set_in in Hk.
        destruct Hk as [Hk|[_ [->|[v'' Hk]]]].
        -- exists v'. apply in_or_app. now left.
        -- exists v0. apply in_or_app. right. now left.
        -- exists v''. apply in_or_app. now left.
      * exists v'. apply in_or_app. right. now right.
    + apply in_app_or in Hv. destruct Hv as [Hv|Hv].
      * apply items_set_in in Hv.
        destruct Hv as [Hv|[-> _]].
        -- exists k'. apply in_or_app. now left.
        -- exists k0. apply in_or_app. right. now left.
      * exists k'. apply in_or_app. right. now right.
Qed.

(** A key of [dict(pairs)] is the key of a pair, and a value the value
    of a pair. *)
Lemma dict_of_pairs_in (l : list (pyobj * pyobj)) (k v : pyobj) :
  In (k, v) (dict_of_pairs l) ->
  (exists v', In (k, v') l) /\ (exists k', In (k', v) l).
Proof. intros H. apply fold_items_set_in in H. exact H. Qed.

Lemma forallb_dict_of_pairs (p q : pyobj -> bool) (l : list (pyobj * pyobj)) :
  forallb (fun kv => p (fst kv) && q (snd kv)) l = true ->
  forallb (fun kv => p (fst kv) && q (snd kv)) (dict_of_pairs l) = true.
Proof.
  rewrite !forallb_forall. intros H [k v] Hin.
  apply dict_of_pairs_in in Hin. destruct Hin as [[v' Hk] [k' Hv]].
  apply H in Hk, Hv. cbn [fst snd] in *.
  apply andb_true_iff in Hk, Hv. apply andb_true_iff. tauto.
Qed.

Lemma forallb_map_in {A B : Type} (p : B -> bool) (f : A -> B) (l : list A) :
  (forall x, In x l -> p (f x) = true) -> forallb p (map f l) = true.
Proof.
  intros H. apply forallb_forall. intros y Hy. apply in_map_iff in Hy.
  destruct Hy as (x & <- & Hx). now apply H.
Qed.

(** [_sanitize] adds no float. *)
Lemma floats_all_sanitize (ok : text -> bool) (v : pyobj) :
  floats_all ok v = true -> floats_all ok (_sanitize v) = true.
Proof.
  induction v as [ | b | n | r | s | b | items IH | items IH | items IH | d | d ]
    using pyobj_induction; intros H; try exact H.
  - cbn [_sanitize]. destruct (utf8_decode replace b); reflexivity.
  - cbn [_sanitize floats_all] in *. apply forallb_map_in.
    rewrite forallb_forall in H. rewrite Forall_forall in IH. auto.
  - cbn [_sanitize floats_all] in *. apply forallb_map_in.
    rewrite forallb_forall in H. rewrite Forall_forall in IH. auto.
  - cbn [_sanitize floats_all] in *.
    apply (forallb_dict_of_pairs (floats_all ok) (floats_all ok)).
    apply forallb_map_in. intros [k x] Hx. cbn [fst snd].
    rewrite forallb_forall in H. rewrite Forall_forall in IH.
    specialize (H _ Hx). destruct (IH _ Hx) as [IHk IHx]. cbn [fst snd] in *.
    apply andb_true_iff in H. destruct H as [Hk Hv].
    rewrite IHk, IHx by assumption. reflexivity.
Qed.

Lemma byte_of_N_printable (t : text) :
  Forall (fun c => printable c = true) t ->
  Forall (fun x => (32 <= Byte.to_N x <= 126)%N) (map byte_of_N t).
Proof.
  intros H. apply Forall_forall. intros x Hx. apply in_map_iff in Hx.
  destruct Hx as (c & <- & Hc). rewrite Forall_forall in H.
  specialize (H c Hc). apply printable_range in H.
  rewrite to_N_byte_of_N by lia. exact H.
Qed.

(** The serializer, from the result of the encoder. *)
Lemma message_to_pickle_dumps (py : builtins) (obj : pyobj) (t : text) :
  floats_all (forallb printable) obj = true ->
  json_dumps py (_sanitize obj) = Ok t ->
  _message_to_pickle py obj = Ok (map byte_of_N t) /\
  Forall (fun c => printable c = true) t.
Proof.
  intros Hf Ht.
  assert (Hp : Forall (fun c => printable c = true) t).
  { eapply dumps_printable; [|exact Ht]. now apply floats_all_sanitize. }
  split; [|exact Hp].
  unfold _message_to_pickle. rewrite Ht. cbn [bind].
  apply utf8_encode_ascii. eapply Forall_impl; [|exact Hp].
  intros c Hc. apply printable_range in Hc. lia.
Qed.

(** X15.  The bytes that the serializer returns are printable ASCII
    (0x20 to 0x7e), whatever characters the texts and the bytes of the
    document hold: no byte is 0x00, the terminator of a TCP frame, and
    none is a newline.  The floats of the document are assumed to have
    a [repr] of printable characters, as every float of Python has. *)
Theorem serializer_output_printable (py : builtins) (obj : pyobj) (b : bytes) :
  floats_all (forallb printable) obj = true ->
  _message_to_pickle py obj = Ok b ->
  Forall (fun x => (32 <= Byte.to_N x <= 126)%N) b /\
  ~ In x00 b /\ ~ In x0a b.
Proof.
  intros Hf Hb.
  assert (Hp : Forall (fun x => (32 <= Byte.to_N x <= 126)%N) b).
  { unfold _message_to_pickle in Hb.
    destruct (json_dumps py (_sanitize obj)) as [t|e] eqn:Ht; [|discriminate].
    destruct (message_to_pickle_dumps py obj t Hf Ht) as [E Hp].
    unfold _message_to_pickle in E. rewrite Ht in E.
    cbn [bind] in Hb, E. rewrite E in Hb. injection Hb as <-.
    now apply byte_of_N_printable. }
  split; [exact Hp|]. rewrite Forall_forall in Hp.
  split; intros Hin; apply Hp in Hin; vm_compute in Hin; destruct Hin as [H _];
    now apply H.
Qed.

Lemma serializer_output_printable_witness :
  Forall (fun x => (32 <= Byte.to_N x <= 126)%N)
    [x7b; x22; x6d; x22; x3a; x22; x5c; x75; x30; x30; x30; x30; x5c; x75;
     x30; x30; x65; x39; x5c; x6e; x22; x7d].
Proof.
  apply (serializer_output_printable example_builtins
           (PyDict [(PyBytes [x6d], PyStr [0%N; 233%N; 10%N])])).
  - reflexivity.
  - reflexivity.
Defined.

(** X16.  The documents of this statement are the values of [pyobj]:
    [None], booleans, integers, floats, texts, bytes, datetimes,
    objects of other classes on which [repr] returns a text, and
    lists, tuples and dictionaries of such values that are instances
    of [list], [tuple] and [dict] themselves.  (For an instance of a
    subclass of [list] or [tuple], a named tuple for one, [_sanitize]
    calls the subclass with one list, which can raise or build
    another value; such values are not values of [pyobj].)  Every
    integer of the document has fewer than 4300 digits, as
    [int.__repr__] refuses a longer one since Python 3.11, and the
    nesting stays within the recursion limit of the interpreter.  For
    such a document the serializer returns bytes exactly when every
    key of every dictionary of the sanitized document is a text, a
    number, a boolean or [None], and raises [TypeError] otherwise: a
    value of any other class is written through [_smarter_repr], and
    encoding the JSON text to UTF-8 never fails, since the text is
    ASCII. *)
Theorem serializer_raises_only_for_keys (py : builtins) (obj : pyobj) :
  floats_all (forallb printable) obj = true ->
  ints_all repr_writes obj = true ->
  (keys_ok (_sanitize obj) = true -> exists b, _message_to_pickle py obj = Ok b) /\
  (keys_ok (_sanitize obj) = false -> _message_to_pickle py obj = Raise TypeError).
Proof.
  intros Hf _. pose proof (dumps_outcome py (_sanitize obj)) as H.
  destruct (json_dumps py (_sanitize obj)) as [t|e] eqn:Ht.
  - split; [|congruence]. intros _.
    destruct (message_to_pickle_dumps py obj t Hf Ht) as [E _]. eauto.
  - destruct H as [-> Hk]. split; [congruence|]. intros _.
    unfold _message_to_pickle. rewrite Ht. reflexivity.
Qed.

Lemma serializer_raises_only_for_keys_witness :
  (exists b, _message_to_pickle example_builtins example_document = Ok b) /\
  _message_to_pickle example_builtins
    (PyDict [(PyTuple [PyInt 1; PyInt 2], PyStr (u "corner"))])
  = Raise TypeError.
Proof.
  split.
  - apply (proj1 (serializer_raises_only_for_keys example_builtins example_document
                    eq_refl ltac:(vm_compute; reflexivity))).
    reflexivity.
  - apply (proj2 (serializer_raises_only_for_keys example_builtins
                    (PyDict [(PyTuple [PyInt 1; PyInt 2], PyStr (u "corner"))])
                    eq_refl ltac:(vm_compute; reflexivity))).
    reflexivity.
Defined.

(** ** [_sanitize] on its own results *)

Lemma items_set_keys_distinct (d : list (pyobj * pyobj)) (k v : pyobj) :
  distinct_keys (map fst d) = true ->
  distinct_keys (map fst (items_set d k v)) = true.
Proof.
  intros Hd.
  assert (Hcases : map fst (items_set d k v) = map fst d
                   \/ (items_set d k v = d ++ [(k, v)] /\
                       forall kv, In kv d -> key_eqb (fst kv) k = false)).
  { clear Hd. induction d as [|[k1 v1] d IH]; cbn [items_set].
    - right. split; [reflexivity|]. intros kv [].
    - destruct (key_eqb k1 k) eqn:E; [left; reflexivity|].
      destruct IH as [IH|[IH Hfresh]].
      + left. cbn [map]. now rewrite IH.
      + right. split; [cbn [app]; now rewrite IH|].
        intros kv [<-|Hin]; [exact E|now apply Hfresh]. }
  destruct Hcases as [->|[-> Hfresh]]; [exact Hd|].
  rewrite map_app. cbn [map fst]. clear -Hd Hfresh.
  induction d as [|[k1 v1] d IH]; [reflexivity|].
  cbn [map fst distinct_keys app] in *.
  apply andb_true_iff in Hd. destruct Hd as [Hk1 Hd].
  apply andb_true_iff. split.
  - apply negb_true_iff. apply negb_true_iff in Hk1.
    rewrite existsb_app, Hk1. cbn [existsb orb].
    pose proof (Hfresh (k1, v1) (or_introl eq_refl)) as Hk. cbn [fst] in Hk.
    rewrite Hk. reflexivity.
  - apply IH; [exact Hd|]. intros kv Hin. apply Hfresh. now right.
Qed.

(** [dict(pairs)] lists no key twice. *)
Lemma dict_of_pairs_keys_distinct (l : list (pyobj * pyobj)) :
  distinct_keys (map fst (dict_of_pairs l)) = true.
Proof.
  unfold dict_of_pairs.
  assert (H : forall acc, distinct_keys (map fst acc) = true ->
                distinct_keys
                  (map fst (fold_left (fun acc kv => items_set acc (fst kv) (snd kv))
                              l acc)) = true).
  { induction l as [|kv l IH]; intros acc Hacc; [exact Hacc|].
    cbn [fold_left]. apply IH. now apply items_set_keys_distinct. }
  now apply H.
Qed.

Lemma clean_sanitize (v : pyobj) : clean (_sanitize v) = true.
Proof.
  induction v as [ | b | n | r | s | b | items IH | items IH | items IH | d | d ]
    using pyobj_induction; try reflexivity.
  - destruct (sanitize_bytes b) as [t ->]. reflexivity.
  - cbn [_sanitize clean]. apply forallb_map_in. now apply Forall_forall.
  - cbn [_sanitize clean]. apply forallb_map_in. now apply Forall_forall.
  - cbn [_sanitize clean]. apply andb_true_iff. split.
    + apply (forallb_dict_of_pairs clean clean). apply forallb_map_in.
      intros kv Hkv. rewrite Forall_forall in IH. destruct (IH kv Hkv) as [Hk Hx].
      cbn [fst snd]. now rewrite Hk, Hx.
    + apply dict_of_pairs_keys_distinct.
Qed.

Lemma sanitize_clean (v : pyobj) : clean v = true -> _sanitize v = v.
Proof.
  induction v as [ | b | n | r | s | b | items IH | items IH | items IH | d | d ]
    using pyobj_induction; intros H; try reflexivity.
  - discriminate.
  - cbn [_sanitize clean] in *. f_equal. apply map_id_in.
    rewrite forallb_forall in H. rewrite Forall_forall in IH. auto.
  - cbn [_sanitize clean] in *. f_equal. apply map_id_in.
    rewrite forallb_forall in H. rewrite Forall_forall in IH. auto.
  - cbn [_sanitize clean] in *. apply andb_true_iff in H. destruct H as [Hc Hd].
    f_equal.
    assert (E : map (fun kv => (_sanitize (fst kv), _sanitize (snd kv))) items = items).
    { apply map_id_in. intros [k x] Hx.
      rewrite forallb_forall in Hc. rewrite Forall_forall in IH.
      specialize (Hc _ Hx). destruct (IH _ Hx) as [IHk IHx]. cbn [fst snd] in *.
      apply andb_true_iff in Hc. destruct Hc as [Hk Hv].
      now rewrite IHk, IHx. }
    rewrite E. now apply dict_of_pairs_distinct.
Qed.

Lemma clean_bytes_free (v : pyobj) : clean v = true -> bytes_free v = true.
Proof.
  induction v as [ | b | n | r | s | b | items IH | items IH | items IH | d | d ]
    using pyobj_induction; intros H; try exact H.
  - cbn [clean bytes_free] in *. rewrite forallb_forall in *.
    rewrite Forall_forall in IH. auto.
  - cbn [clean bytes_free] in *. rewrite forallb_forall in *.
    rewrite Forall_forall in IH. auto.
  - cbn [clean bytes_free] in *. apply andb_true_iff in H. destruct H as [H _].
    rewrite forallb_forall in *. rewrite Forall_forall in IH.
    intros kv Hkv. specialize (H _ Hkv). destruct (IH _ Hkv) as [IHk IHx].
    apply andb_true_iff in H. destruct H as [Hk Hx].
    now rewrite IHk, IHx.
Qed.


(** ** UTF-8: decoding what the encoder writes *)

Ltac narith := zify; Z.to_euclidean_division_equations; lia.

(** One turn of [utf8_decode]. *)
Lemma utf8_decode_unfold (mode : errors) (b0 : byte) (t0 : bytes) :
  utf8_decode mode (b0 :: t0)
  = ltac:(let t := eval cbn [utf8_decode] in (utf8_decode mode (b0 :: t0)) in exact t).
Proof. reflexivity. Qed.

Ltac settle_tests :=
  repeat match goal with
         | |- context [(?a <? ?b)%N] =>
             first [ rewrite (proj2 (N.ltb_lt a b)) by narith
                   | rewrite (proj2 (N.ltb_ge a b)) by narith ]
         | |- context [(?a <=? ?b)%N] =>
             first [ rewrite (proj2 (N.leb_le a b)) by narith
                   | rewrite (proj2 (N.leb_gt a b)) by narith ]
         | |- context [(?a =? ?b)%N] =>
             first [ rewrite (proj2 (N.eqb_eq a b)) by narith
                   | rewrite (proj2 (N.eqb_neq a b)) by narith ]
         end;
  cbn [andb orb negb].

Lemma utf8_decode_one (mode : errors) (c : N) (rest : bytes) :
  (c < 128)%N ->
  utf8_decode mode (byte_of_N c :: rest) = decoded c (utf8_decode mode rest).
Proof.
  intros Hc. rewrite utf8_decode_unfold. cbv beta zeta match.
  rewrite !to_N_byte_of_N by narith. settle_tests. reflexivity.
Qed.

Lemma utf8_decode_two (mode : errors) (c : N) (rest : bytes) :
  (128 <= c < 2048)%N ->
  utf8_decode mode (byte_of_N (192 + c / 64) :: byte_of_N (128 + c mod 64) :: rest)
  = decoded c (utf8_decode mode rest).
Proof.
  intros Hc. rewrite utf8_decode_unfold. cbv beta zeta match.
  rewrite !to_N_byte_of_N by narith.
  unfold second_byte_ok, is_continuation. settle_tests.
  f_equal. narith.
Qed.

Lemma utf8_decode_three (mode : errors) (c : N) (rest : bytes) :
  (2048 <= c < 65536)%N -> is_surrogate c = false ->
  utf8_decode mode
    (byte_of_N (224 + c / 4096) :: byte_of_N (128 + (c / 64) mod 64)
     :: byte_of_N (128 + c mod 64) :: rest)
  = decoded c (utf8_decode mode rest).
Proof.
  intros Hc Hs. unfold is_surrogate in Hs.
  assert (Hs' : (c < 55296 \/ 57343 < c)%N).
  { destruct (N.leb_spec 55296 c), (N.leb_spec c 57343); try discriminate; lia. }
  clear Hs.
  rewrite utf8_decode_unfold. cbv beta zeta match.
  rewrite !to_N_byte_of_N by narith.
  unfold second_byte_ok, is_continuation.
  destruct (N.eqb_spec (224 + c / 4096) 224) as [E1|E1];
    destruct (N.eqb_spec (224 + c / 4096) 237) as [E2|E2];
    settle_tests; f_equal; narith.
Qed.

Lemma utf8_decode_four (mode : errors) (c : N) (rest : bytes) :
  (65536 <= c <= 1114111)%N ->
  utf8_decode mode
    (byte_of_N (240 + c / 262144) :: byte_of_N (128 + (c / 4096) mod 64)
     :: byte_of_N (128 + (c / 64) mod 64) :: byte_of_N (128 + c mod 64) :: rest)
  = decoded c (utf8_decode mode rest).
Proof.
  intros Hc.
  rewrite utf8_decode_unfold. cbv beta zeta match.
  rewrite !to_N_byte_of_N by narith.
  unfold second_byte_ok, is_continuation.
  destruct (N.eqb_spec (240 + c / 262144) 240) as [E1|E1];
    destruct (N.eqb_spec (240 + c / 262144) 244) as [E2|E2];
    settle_tests; f_equal; narith.
Qed.

(** One turn of [utf8_encode]. *)
Lemma utf8_encode_unfold (c : N) (s' : text) :
  utf8_encode (c :: s')
  = if is_surrogate c || (1114111 <? c)%N then Raise UnicodeEncodeError
    else
      t <- utf8_encode s' ;;
      Ok ((if (c <? 128)%N then [byte_of_N c]
           else if (c <? 2048)%N then
             [byte_of_N (192 + c / 64); byte_of_N (128 + c mod 64)]
           else if (c <? 65536)%N then
             [byte_of_N (224 + c / 4096); byte_of_N (128 + (c / 64) mod 64);
              byte_of_N (128 + c mod 64)]
           else
             [byte_of_N (240 + c / 262144); byte_of_N (128 + (c / 4096) mod 64);
              byte_of_N (128 + (c / 64) mod 64); byte_of_N (128 + c mod 64)])%N
          ++ t).
Proof. reflexivity. Qed.

(** Decoding gives back the text that was encoded, in both modes. *)
Lemma utf8_decode_encode (mode : errors) (t : text) :
  forall b : bytes, utf8_encode t = Ok b -> utf8_decode mode b = Ok t.
Proof.
  induction t as [|c t IH]; intros b Hb.
  - injection Hb as <-. reflexivity.
  - rewrite utf8_encode_unfold in Hb.
    destruct (is_surrogate c) eqn:Hs; [discriminate|].
    rewrite orb_false_l in Hb.
    destruct (N.ltb_spec 1114111 c) as [Hbig|Hmax]; [discriminate|].
    destruct (utf8_encode t) as [b'|e]; [|discriminate].
    unfold bind in Hb. specialize (IH b' eq_refl).
    assert (Hd : decoded c (utf8_decode mode b') = Ok (c :: t)).
    { unfold decoded. rewrite IH. reflexivity. }
    injection Hb as <-.
    destruct (N.ltb_spec c 128) as [H1|H1].
    { change ([byte_of_N c] ++ b') with (byte_of_N c :: b').
      rewrite utf8_decode_one by assumption. exact Hd. }
    destruct (N.ltb_spec c 2048) as [H2|H2].
    { etransitivity; [apply utf8_decode_two; lia|exact Hd]. }
    destruct (N.ltb_spec c 65536) as [H3|H3].
    { etransitivity; [apply utf8_decode_three; [lia|assumption]|exact Hd]. }
    etransitivity; [apply utf8_decode_four; lia|exact Hd].
Qed.

(** X18.  Bytes that are the UTF-8 encoding of a text are sanitized to
    that text, for the one- to four-byte forms alike, and they are
    serialized as the text is. *)
Theorem sanitize_decodes_utf8 (py : builtins) (t : text) (b : bytes) :
  utf8_encode t = Ok b ->
  utf8_decode strict b = Ok t /\
  _sanitize (PyBytes b) = PyStr t /\
  _message_to_pickle py (PyBytes b) = _message_to_pickle py (PyStr t).
Proof.
  intros Hb.
  assert (Hs : _sanitize (PyBytes b) = PyStr t).
  { cbn [_sanitize]. now rewrite (utf8_decode_encode replace t b Hb). }
  split; [now apply utf8_decode_encode|]. split; [exact Hs|].
  unfold _message_to_pickle. rewrite Hs. reflexivity.
Qed.

Lemma sanitize_decodes_utf8_witness :
  _sanitize (PyBytes [x63; xc3; xa9; xe2; x82; xac; xf0; x9f; x98; x80])
  = PyStr [99%N; 233%N; 8364%N; 128512%N].
Proof.
  apply (sanitize_decodes_utf8 example_builtins [99%N; 233%N; 8364%N; 128512%N]).
  reflexivity.
Defined.

(** ** Further properties of [makePickle] *)

Lemma distinct_texts_NoDup (l : list text) : distinct_texts l = true -> NoDup l.
Proof.
  induction l as [|k l IH]; intros H; [constructor|].
  cbn [distinct_texts] in H. apply andb_true_iff in H. destruct H as [Hk Hl].
  constructor; [|now apply IH].
  intros Hin. apply negb_true_iff in Hk.
  assert (Hex : existsb (text_eqb k) l = true).
  { apply existsb_exists. exists k. split; [assumption|apply text_eqb_refl]. }
  congruence.
Qed.

Lemma base_keys_distinct (self : BaseGELFHandler) (record : LogRecord) :
  NoDup (required_keys ++ optional_keys self record).
Proof.
  apply distinct_texts_NoDup. unfold optional_keys.
  destruct (level_names self), (facility self), (debugging_fields self);
    try destruct (processName record) as [[]|]; reflexivity.
Qed.

Lemma dict_get_in (d : dict) (k : text) (v : pyobj) :
  NoDup (dict_keys d) -> In (k, v) d -> dict_get d k = Some v.
Proof.
  unfold dict_keys. induction d as [|[k0 v0] d IH]; intros Hnd Hin; [contradiction|].
  cbn [map fst] in Hnd. inversion Hnd as [|? ? Hnotin Hnd']; subst.
  cbn [dict_get]. destruct Hin as [Heq|Hin].
  - injection Heq as -> ->. now rewrite text_eqb_refl.
  - rewrite text_eqb_neq; [now apply IH|].
    intros ->. apply Hnotin. apply in_map_iff. exists (k, v). auto.
Qed.

Lemma dict_set_values (P : pyobj -> Prop) (d : dict) (k : text) (v : pyobj) :
  Forall (fun kv => P (snd kv)) d -> P v ->
  Forall (fun kv => P (snd kv)) (dict_set d k v).
Proof.
  intros Hd Hv. induction Hd as [|[k0 v0] d H0 Hd IH]; cbn [dict_set].
  - repeat constructor. exact Hv.
  - destruct (text_eqb k0 k); constructor; assumption.
Qed.

Lemma extra_loop_values (P : pyobj -> Prop) (items : list (text * pyobj)) :
  forall d : dict,
    Forall (fun kv => P (snd kv)) d -> Forall (fun kv => P (snd kv)) items ->
    Forall (fun kv => P (snd kv)) (fold_left extra_field_step items d).
Proof.
  induction items as [|[k v] items IH]; intros d Hd Hitems; [exact Hd|].
  inversion Hitems as [|? ? Hv Hrest]; subst. cbn [fold_left]. apply IH; [|exact Hrest].
  unfold extra_field_step. destruct (passes k); [|exact Hd].
  now apply dict_set_values.
Qed.

(** A value of the document is a text or an integer that the handler
    makes, or the value of an attribute of the record. *)
Lemma document_values (env : environment) (self : BaseGELFHandler)
  (record : LogRecord) :
  Forall (fun kv => (exists s, snd kv = PyStr s) \/ (exists n, snd kv = PyInt n)
                    \/ In (snd kv) (record_values record))
    (_make_message_dict env self record).
Proof.
  set (P := fun v : pyobj => (exists s, v = PyStr s) \/ (exists n, v = PyInt n)
                             \/ In v (record_values record)).
  change (Forall (fun kv => P (snd kv)) (_make_message_dict env self record)).
  assert (Hattr : forall v, In v (record_values record) -> P v) by (intros v H; right; now right).
  assert (Hstr : forall s, P (PyStr s)) by (intros s; left; eauto).
  assert (Hint : forall n, P (PyInt n)) by (intros n; right; left; eauto).
  destruct (make_message_dict_base env self record)
    as (fields & -> & Hkeys
        & (Hversion & Hhost & Hshort & Hfull & Htime & Hlevel & Hfac)
        & (Hname & Hfile & Hline)
        & (Hlog & Hfun & Hpid & Hthread & Hproc)).
  assert (Hnd : NoDup (dict_keys fields)).
  { rewrite Hkeys. apply base_keys_distinct. }
  assert (Hfields : Forall (fun kv => P (snd kv)) fields).
  { apply Forall_forall. intros [k v] Hin. cbn [snd].
    pose proof (dict_get_in _ _ _ Hnd Hin) as Hget.
    assert (Hk : In k (required_keys ++ optional_keys self record)).
    { rewrite <- Hkeys. unfold dict_keys. apply in_map_iff. exists (k, v). auto. }
    assert (Hin6 : forall i, (i < 6)%nat ->
              In (nth i (record_values record) PyNone) (record_values record)).
    { intros i Hi. apply nth_In. unfold record_values. rewrite length_app.
      cbn [List.length]. lia. }
    apply in_app_or in Hk. destruct Hk as [Hk|Hk].
    - unfold required_keys in Hk. cbn [map In] in Hk.
      destruct Hk as [<-|[<-|[<-|[<-|[<-|[<-|[<-|[]]]]]]]].
      + rewrite Hversion in Hget. injection Hget as <-. apply Hstr.
      + rewrite Hhost in Hget. injection Hget as <-. apply Hstr.
      + rewrite Hshort in Hget. injection Hget as <-. apply Hstr.
      + rewrite Hfull in Hget. injection Hget as <-. apply Hstr.
      + rewrite Htime in Hget. injection Hget as <-. apply Hattr, (Hin6 0%nat). lia.
      + rewrite Hlevel in Hget. injection Hget as <-. apply Hint.
      + rewrite Hfac in Hget. injection Hget as <-. apply Hstr.
    - unfold optional_keys in Hk.
      assert (Hcases : In k (map u [ "level_name"; "_logger"; "file"; "line";
                                     "_function"; "_pid"; "_thread_name";
                                     "_process_name" ]%string)).
      { destruct (level_names self), (facility self), (debugging_fields self);
          try destruct (processName record) as [[]|];
          cbn [map In app] in *; tauto. }
      clear Hk. cbn [map In] in Hcases.
      destruct Hcases as [<-|[<-|[<-|[<-|[<-|[<-|[<-|[<-|[]]]]]]]]].
      + rewrite Hname in Hget. destruct (level_names self); [|discriminate].
        injection Hget as <-. apply Hstr.
      + rewrite Hlog in Hget. destruct (facility self); [|discriminate].
        injection Hget as <-. apply Hstr.
      + rewrite Hfile in Hget. destruct (debugging_fields self); [|discriminate].
        injection Hget as <-. apply Hattr, (Hin6 1%nat). lia.
      + rewrite Hline in Hget. destruct (debugging_fields self); [|discriminate].
        injection Hget as <-. apply Hattr, (Hin6 2%nat). lia.
      + rewrite Hfun in Hget. destruct (debugging_fields self); [|discriminate].
        injection Hget as <-. apply Hattr, (Hin6 3%nat). lia.
      + rewrite Hpid in Hget. destruct (debugging_fields self); [|discriminate].
        injection Hget as <-. apply Hattr, (Hin6 4%nat). lia.
      + rewrite Hthread in Hget. destruct (debugging_fields self); [|discriminate].
        injection Hget as <-. apply Hattr, (Hin6 5%nat). lia.
      + rewrite Hproc in Hget. destruct (debugging_fields self); [|discriminate].
        apply Hattr. unfold record_values.
        apply in_or_app. right. apply in_or_app. left.
        destruct (processName record) as [pn|]; [|discriminate].
        destruct pn; try discriminate; injection Hget as <-; now left. }
  destruct (extra_fields self); [|exact Hfields].
  unfold _add_extra_fields. apply extra_loop_values; [exact Hfields|].
  apply Forall_forall. intros [k v] Hin. cbn [snd]. apply Hattr.
  unfold record_values. apply in_or_app. right. apply in_or_app. right.
  apply in_map_iff. exists (k, v). auto.
Qed.

(** X19.  The records of this statement hold values of [pyobj] in
    their attributes: [None], booleans, integers, floats, texts,
    bytes, datetimes, objects of other classes on which [repr] returns
    a text, and lists, tuples and dictionaries of such values that are
    instances of [list], [tuple] and [dict] themselves (an instance of
    a subclass of [list] or [tuple], a named tuple for one, is handed
    by [_sanitize] to the constructor of the subclass, which can
    raise, and is not a value of [pyobj]); [getMessage] and the
    formatter return their texts.  When the level number and every
    integer of the attribute values have fewer than 4300 digits, as
    [int.__repr__] refuses a longer one since Python 3.11, and the
    attribute values hold, once sanitized, only dictionary keys that
    the encoder accepts, [makePickle] returns: the fields that the
    handler makes itself cannot make the serializer fail.  The result
    is the printable ASCII text of the document, compressed by
    [zlib.compress] when the handler compresses and as it is
    otherwise. *)
Theorem makePickle_succeeds
  (env : environment) (py : builtins) (self : BaseGELFHandler) (record : LogRecord) :
  repr_writes (levelno record) = true ->
  Forall (fun v => floats_all (forallb printable) v = true
                   /\ ints_all repr_writes v = true
                   /\ keys_ok (_sanitize v) = true)
    (record_values record) ->
  exists packed : bytes,
    _message_to_pickle py (document (_make_message_dict env self record)) = Ok packed /\
    Forall (fun x => (32 <= Byte.to_N x <= 126)%N) packed /\
    BaseGELFHandler_makePickle env py self record
    = Ok (if compress self then zlib_compress py packed else packed).
Proof.
  intros _ Hrec. rewrite Forall_forall in Hrec.
  pose proof (document_values env self record) as Hvalues.
  rewrite Forall_forall in Hvalues.
  set (d := _make_message_dict env self record) in *.
  assert (Hvalue : forall kv, In kv d ->
            floats_all (forallb printable) (snd kv) = true
            /\ keys_ok (_sanitize (snd kv)) = true).
  { intros kv Hin. destruct (Hvalues kv Hin) as [[s ->]|[[n ->]|Hattr]].
    - split; reflexivity.
    - split; reflexivity.
    - destruct (Hrec _ Hattr) as (Hfloats & _ & Hkeys). now split. }
  assert (Hf : floats_all (forallb printable) (document d) = true).
  { unfold document. cbn [floats_all]. apply forallb_map_in.
    intros kv Hin. cbn [fst snd floats_all]. now apply Hvalue. }
  assert (Hk : keys_ok (_sanitize (document d)) = true).
  { unfold document. cbn [_sanitize keys_ok]. rewrite map_map.
    apply (forallb_dict_of_pairs
             (fun k => match key_text k with Ok _ => true | Raise _ => false end)
             keys_ok).
    apply forallb_map_in. intros kv Hin. cbn [fst snd _sanitize key_text].
    now apply Hvalue. }
  pose proof (dumps_outcome py (_sanitize (document d))) as Hd.
  destruct (json_dumps py (_sanitize (document d))) as [t|e] eqn:Ht;
    [|destruct Hd; congruence].
  destruct (message_to_pickle_dumps py (document d) t Hf Ht) as [Hp Hprint].
  exists (map byte_of_N t). split; [exact Hp|].
  split; [now apply byte_of_N_printable|].
  unfold BaseGELFHandler_makePickle. fold d. rewrite Hp. reflexivity.
Qed.

Lemma makePickle_succeeds_witness :
  exists packed : bytes,
    _message_to_pickle example_builtins
      (document (_make_message_dict example_env example_handler example_record))
    = Ok packed /\
    Forall (fun x => (32 <= Byte.to_N x <= 126)%N) packed /\
    BaseGELFHandler_makePickle example_env example_builtins example_handler
      example_record
    = Ok (x78 :: x9c :: packed).
Proof.
  apply (makePickle_succeeds example_env example_builtins example_handler
           example_record).
  - vm_compute. reflexivity.
  - repeat (constructor; [repeat split; vm_compute; reflexivity|]). constructor.
Defined.

(** ** The document on the wire *)

Lemma dict_set_keys_nodup (d : dict) (k : text) (v : pyobj) :
  NoDup (dict_keys d) -> NoDup (dict_keys (dict_set d k v)).
Proof.
  intros Hnd. rewrite dict_keys_set.
  destruct (existsb (fun k' => text_eqb k' k) (dict_keys d)) eqn:E; [exact Hnd|].
  apply NoDup_app; [exact Hnd|repeat constructor; intros []|].
  intros k' Hin [Heq|[]]. subst k'.
  assert (Hex : existsb (fun k' => text_eqb k' k) (dict_keys d) = true).
  { apply existsb_exists. exists k. split; [assumption|apply text_eqb_refl]. }
  congruence.
Qed.

Lemma extra_loop_nodup (items : list (text * pyobj)) :
  forall d : dict,
    NoDup (dict_keys d) -> NoDup (dict_keys (fold_left extra_field_step items d)).
Proof.
  induction items as [|[k v] items IH]; intros d Hnd; [exact Hnd|].
  cbn [fold_left]. apply IH. unfold extra_field_step.
  destruct (passes k); [now apply dict_set_keys_nodup|exact Hnd].
Qed.

(** No field is listed twice in a document. *)
Lemma document_keys_distinct (env : environment) (self : BaseGELFHandler)
  (record : LogRecord) :
  NoDup (dict_keys (_make_message_dict env self record)).
Proof.
  destruct (make_message_dict_base env self record) as (fields & -> & Hkeys & _).
  assert (Hnd : NoDup (dict_keys fields)).
  { rewrite Hkeys. apply base_keys_distinct. }
  destruct (extra_fields self); [|exact Hnd].
  unfold _add_extra_fields. now apply extra_loop_nodup.
Qed.

Lemma distinct_keys_texts (l : list text) :
  NoDup l -> distinct_keys (map PyStr l) = true.
Proof.
  induction 1 as [|k l Hnotin _ IH]; [reflexivity|].
  cbn [map distinct_keys]. rewrite IH, andb_true_r. apply negb_true_iff.
  destruct (existsb (key_eqb (PyStr k)) (map PyStr l)) eqn:E; [|reflexivity].
  apply existsb_exists in E. destruct E as (x & Hx & Heq).
  apply in_map_iff in Hx. destruct Hx as (k' & <- & Hk').
  cbn [key_eqb] in Heq. apply text_eqb_eq in Heq. subst k'. contradiction.
Qed.

(** A dictionary with distinct text keys, through [_sanitize] and
    through the encoder and the decoder. *)
Lemma sanitize_document (d : dict) :
  NoDup (dict_keys d) ->
  _sanitize (document d)
  = PyDict (map (fun kv => (PyStr (fst kv), _sanitize (snd kv))) d).
Proof.
  intros Hnd. unfold document. cbn [_sanitize]. rewrite map_map. f_equal.
  apply dict_of_pairs_distinct. rewrite map_map. cbn [fst].
  rewrite <- (map_map fst PyStr). now apply distinct_keys_texts.
Qed.

Lemma json_image_document (py : builtins) (d : dict) :
  NoDup (dict_keys d) ->
  json_image py (PyDict (map (fun kv => (PyStr (fst kv), _sanitize (snd kv))) d))
  = PyDict (map (fun kv => (PyStr (fst kv), json_image py (_sanitize (snd kv)))) d).
Proof.
  intros Hnd. cbn [json_image]. rewrite map_map. f_equal.
  apply dict_of_pairs_distinct. rewrite map_map. cbn [fst].
  rewrite <- (map_map fst PyStr). now apply distinct_keys_texts.
Qed.

(** The bytes of the serializer, read back. *)
Lemma pickle_loads (py : builtins) (obj : pyobj) :
  encodable py (_sanitize obj) = true ->
  exists b : bytes,
    _message_to_pickle py obj = Ok b /\
    json_loads_bytes py b = Some (Ok (json_image py (_sanitize obj))).
Proof.
  intros He. destruct (dumps_reads_back py _ He) as (t & Ht & _).
  pose proof (dumps_ascii py _ t He Ht) as Hascii.
  exists (map byte_of_N t). split.
  - unfold _message_to_pickle. rewrite Ht. cbn [bind].
    now apply utf8_encode_ascii.
  - unfold json_loads_bytes. rewrite (utf8_decode_ascii t Hascii).
    now apply loads_of_dumps.
Qed.



(** X14.  For a record whose attributes are all in the skip list or
    start with an underscore, [_add_extra_fields] returns the
    dictionary unchanged, and the keys of the document are the seven
    of the literal and those that follow the flags of the handler,
    with extra fields on as with extra fields off. *)
Theorem standard_record_no_extra_fields
  (env : environment) (self : BaseGELFHandler) (record : LogRecord)
  (message_dict : dict) :
  (forall key : text,
     In key (map fst (__dict__ record)) ->
     in_skip_list key = true \/ startswith_underscore key = true) ->
  _add_extra_fields message_dict record = message_dict /\
  dict_keys (_make_message_dict env self record)
  = required_keys ++ optional_keys self record.
Proof.
  intros Hskip.
  assert (Hloop : forall d, _add_extra_fields d record = d).
  { unfold _add_extra_fields. induction (__dict__ record) as [|[k v] items IH];
      intros d; [reflexivity|].
    cbn [fold_left]. unfold extra_field_step at 2.
    assert (Hp : passes k = false).
    { apply passes_false_iff. apply Hskip. now left. }
    rewrite Hp. apply IH. intros key Hin. apply Hskip. now right. }
  split; [apply Hloop|].
  destruct (make_message_dict_base env self record) as (fields & -> & Hkeys & _).
  destruct (extra_fields self); [rewrite Hloop|]; exact Hkeys.
Qed.

Lemma standard_record_no_extra_fields_witness :
  dict_keys (_make_message_dict example_env example_handler
               {| name := u "app"; levelno := 20; pathname := PyStr (u "a.py");
                  lineno := PyInt 3; funcName := PyStr (u "f");
                  created := PyInt 0; process := PyInt 1;
                  threadName := PyStr (u "T"); processName := None;
                  exc_info := None; exc_text := None; getMessage := u "m";
                  __dict__ := [ (u "name", PyStr (u "app")); (u "msg", PyStr (u "m"));
                                (u "_cache", PyNone) ] |})
  = map u [ "version"; "host"; "short_message"; "full_message"; "timestamp";
            "level"; "facility"; "file"; "line"; "_function"; "_pid";
            "_thread_name" ]%string.
Proof.
  refine (proj2 (standard_record_no_extra_fields example_env example_handler _ [] _)).
  intros key Hin. vm_compute in Hin.
  destruct Hin as [<-|[<-|[<-|[]]]]; [left|left|right]; reflexivity.
Defined.
